(** * Aether Telegram bot webhook: command interpretation and dispatch

    A shallow embedding of [src/app/api/telegram-bot/route.ts] and the
    properties of its specification.

    Conventions of the embedding:
    - A JavaScript string is the [string] of the bytes of its UTF-8 encoding
      (a surrogate without its partner is written as the three bytes of its
      code, so that every JavaScript string has one such encoding).  The
      characters that the patterns and the tests of the source name are ASCII
      characters, which are single bytes; the length of a string is counted
      in UTF-16 units, as the source counts it.
    - The identifiers of chats, users and messages are integers of [Z]: the
      source compares them and passes them on.  The durations, on which the
      source computes, are doubles ([Js.number]): the arithmetic is exact up
      to 2^53 and rounds to the nearest double beyond.
    - Every call to a collaborator (Telegram Bot API, Airtable) is a [Call]
      appended to a trace; what the collaborator answers is given by a
      [World], which may depend on everything that happened before.
    - A JavaScript exception is the outcome [Throw]. *)

From Stdlib Require Import ZArith String Ascii List Bool Lia DecimalString.
From stdpp Require Import base option gmap strings.
Import ListNotations.

Local Open Scope string_scope.
Local Open Scope Z_scope.

(** Let [simpl] compute the concatenation of strings. *)
#[local] Arguments String.append !s1 s2 : simpl nomatch.

(** The decimal digits of an integer. *)
Definition string_of_Z (n : Z) : string := NilZero.string_of_int (Z.to_int n).

(** ** Characters, strings and numbers *)

Module Js.

Definition code (c : ascii) : nat := nat_of_ascii c.

Definition is_digit (c : ascii) : bool :=
  (48 <=? code c)%nat && (code c <=? 57)%nat.

Definition is_upper (c : ascii) : bool :=
  (65 <=? code c)%nat && (code c <=? 90)%nat.

Definition is_lower (c : ascii) : bool :=
  (97 <=? code c)%nat && (code c <=? 122)%nat.

(** [\w] : letters, digits and the underscore. *)
Definition is_word (c : ascii) : bool :=
  is_digit c || is_upper c || is_lower c || (code c =? 95)%nat.

(** Any character but the double quote (code 34). *)
Definition not_quote (c : ascii) : bool := negb (code c =? 34)%nat.

(** [[A-Z0-9]] under the [i] flag. *)
Definition is_alnum_i (c : ascii) : bool :=
  is_digit c || is_upper c || is_lower c.

Definition upper_char (c : ascii) : ascii :=
  if is_lower c then ascii_of_nat (code c - 32) else c.

Definition lower_char (c : ascii) : ascii :=
  if is_upper c then ascii_of_nat (code c + 32) else c.

Fixpoint map_string (f : ascii -> ascii) (s : string) : string :=
  match s with
  | EmptyString => EmptyString
  | String c s' => String (f c) (map_string f s')
  end.

(** The ASCII letters of a text in upper case, the other bytes as they
    are: what [toUpperCase] makes of a text of ASCII characters.  What it
    makes of another text depends on the Unicode tables of the runtime and is
    taken from the environment ([toUpperCase] of [Env]). *)
Definition upper_ascii : string -> string := map_string upper_char.

(** The source applies [toLowerCase] once, to compare the result with the
    word [closed]: a character outside ASCII has none of the letters of that
    word for its lower case, so the ASCII letters decide the comparison. *)
Definition toLowerCase : string -> string := map_string lower_char.

Fixpoint is_ascii (s : string) : bool :=
  match s with
  | EmptyString => true
  | String c s' => (code c <? 128)%nat && is_ascii s'
  end.

(** *** Lengths

    The length of a string counts UTF-16 units.  A byte that starts a
    character of up to three bytes stands for one unit, a byte that starts a
    character of four bytes for two (a pair of surrogates), a byte that
    continues a character for none. *)
Definition units (c : ascii) : nat :=
  if (code c <? 128)%nat then 1
  else if (code c <? 192)%nat then 0
  else if (code c <? 240)%nat then 1
  else 2.

Fixpoint length (s : string) : nat :=
  match s with
  | EmptyString => 0
  | String c s' => units c + length s'
  end.

(** The first surrogate of the character of four bytes that starts with [c]
    and goes on in [rest]: the unit that is left when a text is cut in the
    middle of the pair.  The surrogate is 0xD800 plus the ten upper bits of
    the code of the character less 0x10000; its three bytes are 0xED, 0xA0
    plus its bits 6 to 9, and 0x80 plus its bits 0 to 5. *)
Definition high_surrogate (c : ascii) (rest : string) : string :=
  match rest with
  | String b1 (String b2 _) =>
      let top :=
        (code c mod 8 * 256 + code b1 mod 64 * 4 + code b2 mod 64 / 16 - 64)%nat in
      String (ascii_of_nat 237)
        (String (ascii_of_nat (160 + top / 64 mod 16))
           (String (ascii_of_nat (128 + top mod 64)) EmptyString))
  | _ => EmptyString
  end.

(** [s.substring(0, n)]: the first [n] units. *)
Fixpoint substring0 (n : nat) (s : string) : string :=
  match s with
  | EmptyString => EmptyString
  | String c s' =>
      match units c, n with
      | O, _ => String c (substring0 n s')
      | _, O => EmptyString
      | 1%nat, S n' => String c (substring0 n' s')
      | _, 1%nat => high_surrogate c s'
      | _, S (S n') => String c (substring0 n' s')
      end
  end.

(** [s.startsWith(p)] *)
Fixpoint startsWith (p s : string) : bool :=
  match p with
  | EmptyString => true
  | String a p' =>
      match s with
      | EmptyString => false
      | String b s' => Ascii.eqb a b && startsWith p' s'
      end
  end.

(** [s.split(' ')]: the pieces between single spaces; never empty. *)
Fixpoint split_space (s : string) : list string :=
  match s with
  | EmptyString => [EmptyString]
  | String c s' =>
      if Ascii.eqb c " "%char then EmptyString :: split_space s'
      else match split_space s' with
           | w :: ws => String c w :: ws
           | [] => [String c EmptyString]
           end
  end.

(** [parts.join(' ')] *)
Fixpoint join_space (parts : list string) : string :=
  match parts with
  | [] => EmptyString
  | [w] => w
  | w :: ws => w ++ " " ++ join_space ws
  end.

(** [list.includes(x)] on strings *)
Definition includes (l : list string) (x : string) : bool :=
  existsb (String.eqb x) l.

(** Truthiness of a possibly undefined string: defined and not empty. *)
Definition truthy (o : option string) : bool :=
  match o with
  | Some s => negb (String.eqb s EmptyString)
  | None => false
  end.

Definition undefined {A} (o : option A) : bool :=
  match o with Some _ => false | None => true end.

(** Rendering inside a template literal: [undefined] prints as such. *)
Definition show (o : option string) : string :=
  match o with Some s => s | None => "undefined" end.

(** *** Numbers

    The numbers on which the source computes are integers held in doubles
    and [Infinity]; [Finite z] is the double of value [z].  An operation
    gives the double nearest to its exact result, the one with the even
    significand of two at the same distance, and [Infinity] from 2^1024
    on. *)

Inductive number := Finite (z : Z) | Infinity.

(** The integer nearest to [num / den], the even one of two at the same
    distance. *)
Definition nearest (num den : Z) : Z :=
  let q := num / den in
  let r := num mod den in
  if 2 * r <? den then q
  else if den <? 2 * r then q + 1
  else if Z.even q then q else q + 1.

(** An integer as a number: 53 bits of it are kept.  (No integer below
    -2^53 arises, and the integers above it and below 2^53 are doubles.) *)
Definition of_Z (n : Z) : number :=
  let e := Z.max 0 (Z.log2 n - 52) in
  let d := nearest n (2 ^ e) * 2 ^ e in
  if 2 ^ 1024 <=? d then Infinity else Finite d.

(** [a * b] for a positive integer constant [b]. *)
Definition mul (a : number) (b : Z) : number :=
  match a with Finite x => of_Z (x * b) | Infinity => Infinity end.

(** [a + b] for an integer [a]. *)
Definition add (a : Z) (b : number) : number :=
  match b with Finite x => of_Z (a + x) | Infinity => Infinity end.

(** [a > 0] and [a >= n]. *)
Definition positive (a : number) : bool :=
  match a with Finite x => 0 <? x | Infinity => true end.

Definition geb (a : number) (n : Z) : bool :=
  match a with Finite x => n <=? x | Infinity => true end.

(** [2 ^ k <= num / den], for an exponent of either sign. *)
Definition pow2_le (k num den : Z) : bool :=
  if 0 <=? k then den * 2 ^ k <=? num else den <=? num * 2 ^ (- k).

(** The binary order of magnitude of a positive quotient: the [k] with
    [2 ^ k <= num / den < 2 ^ (k + 1)]. *)
Definition magnitude (num den : Z) : Z :=
  let k := Z.log2 num - Z.log2 den in
  if pow2_le k num den then k else k - 1.

(** The double nearest to the positive quotient [num / den], as its
    significand [m] of 53 bits and its exponent [e]: the value is
    [m * 2 ^ e]. *)
Definition round_ratio (num den : Z) : Z * Z :=
  let e := magnitude num den - 52 in
  (if 0 <=? e then nearest num (den * 2 ^ e) else nearest (num * 2 ^ (- e)) den, e).

(** [Math.floor(a / b)] for a number [a] that is not negative and a positive
    integer constant [b]: the quotient is rounded to a double first. *)
Definition floor_div (a : number) (b : Z) : number :=
  match a with
  | Finite x =>
      if x =? 0 then Finite 0
      else let '(m, e) := round_ratio x b in Finite (Z.shiftl m e)
  | Infinity => Infinity
  end.

(** The conversion of a number to a string prints the decimal number of the
    fewest significant digits that reads back as the same double (the
    nearest one of several), with zeros up to the unit, and in the notation
    with an exponent from 10^21 on. *)
Definition reads_as (x v : Z) : bool :=
  match of_Z v with Finite y => y =? x | Infinity => false end.

Definition digits_of (x : Z) : Z := Z.of_nat (String.length (string_of_Z x)).

(** The decimal of [k] significant digits that reads back as [x], if any. *)
Definition shortest_at (x k : Z) : option Z :=
  let p := 10 ^ (digits_of x - k) in
  let lo := x / p * p in
  let hi := lo + p in
  match reads_as x lo, reads_as x hi with
  | true, true =>
      Some (if x - lo <? hi - x then lo
            else if hi - x <? x - lo then hi
            else if Z.even (x / p) then lo else hi)
  | true, false => Some lo
  | false, true => Some hi
  | false, false => None
  end.

Fixpoint shortest_from (fuel : nat) (x k : Z) : Z :=
  match fuel with
  | O => x
  | S fuel' =>
      match shortest_at x k with
      | Some v => v
      | None => shortest_from fuel' x (k + 1)
      end
  end.

(** Seventeen significant digits tell any two doubles apart. *)
Definition shortest (x : Z) : Z := shortest_from 17 x 1.

Fixpoint strip_zeros (s : list ascii) : list ascii :=
  match s with
  | c :: s' => if Ascii.eqb c "0" then strip_zeros s' else s
  | [] => []
  end.

(** The digits without the zeros at the end. *)
Definition significant (s : string) : string :=
  string_of_list_ascii (rev (strip_zeros (rev (list_ascii_of_string s)))).

(** The notation with an exponent: [d.ddde+n]. *)
Definition exponential (v : Z) : string :=
  let all := string_of_Z v in
  let exponent := string_of_Z (Z.of_nat (String.length all) - 1) in
  match significant all with
  | String d EmptyString => String d ("e+" ++ exponent)
  | String d more => String d ("." ++ more ++ "e+" ++ exponent)
  | EmptyString => all
  end.

Definition to_string (a : number) : string :=
  match a with
  | Infinity => "Infinity"
  | Finite x =>
      let v := shortest x in
      if v <? 10 ^ 21 then string_of_Z v else exponential v
  end.

(** [parseInt] on a string of decimal digits: the double nearest to the
    number that the digits write. *)
Definition digit_val (c : ascii) : Z := Z.of_nat (code c - 48).

Fixpoint parseInt_acc (acc : Z) (s : string) : Z :=
  match s with
  | EmptyString => acc
  | String c s' => parseInt_acc (10 * acc + digit_val c) s'
  end.

Definition decimal (digits : string) : Z := parseInt_acc 0 digits.

Definition parseInt (digits : string) : number := of_Z (decimal digits).

(** *** Backtracking matcher

    The regular expressions of the source are built from greedy repetitions
    of a character class followed by a continuation.  [star_greedy p acc s k]
    has consumed [acc], extends it with as many characters of class [p] as
    possible, and gives back characters one by one while the continuation
    [k] fails: the strategy of the JavaScript matcher. *)

Fixpoint star_greedy {R} (p : ascii -> bool) (acc s : string)
    (k : string -> string -> option R) : option R :=
  match s with
  | String c s' =>
      if p c then
        match star_greedy p (acc ++ String c EmptyString) s' k with
        | Some r => Some r
        | None => k acc s
        end
      else k acc s
  | EmptyString => k acc s
  end.

(** [p+] followed by [k]. *)
Definition plus_greedy {R} (p : ascii -> bool) (s : string)
    (k : string -> string -> option R) : option R :=
  match s with
  | String c s' =>
      if p c then star_greedy p (String c EmptyString) s' k else None
  | EmptyString => None
  end.

(** An unanchored search: the leftmost position at which [m] matches. *)
Fixpoint search {R} (m : string -> option R) (s : string) : option R :=
  match m s with
  | Some r => Some r
  | None =>
      match s with
      | String _ s' => search m s'
      | EmptyString => None
      end
  end.

(** Longest prefix of characters of a class, and what follows it. *)
Fixpoint span (p : ascii -> bool) (s : string) : string * string :=
  match s with
  | String c s' =>
      if p c then let '(a, b) := span p s' in (String c a, b)
      else (EmptyString, s)
  | EmptyString => (EmptyString, EmptyString)
  end.

End Js.

(** An integer is read as the number of its value where a number is
    expected. *)
Coercion Js.Finite : Z >-> Js.number.

(** ** Duration parser *)

(** [durationStr.match(/^(\d+)([hdm])$/)]: the two groups. *)
Definition match_duration (durationStr : string) : option (string * ascii) :=
  Js.plus_greedy Js.is_digit durationStr (fun digits rest =>
    match rest with
    | String u EmptyString =>
        if Ascii.eqb u "h" || Ascii.eqb u "d" || Ascii.eqb u "m"
        then Some (digits, u) else None
    | _ => None
    end).

Definition parseMuteDuration (durationStr : string) : Js.number :=
  match match_duration durationStr with
  | None => 0
  | Some (digits, unit) =>
      let value := Js.parseInt digits in
      if Ascii.eqb unit "h" then Js.mul value 3600
      else if Ascii.eqb unit "d" then Js.mul value 86400
      else if Ascii.eqb unit "m" then Js.mul value 60
      else 0
  end.

(** ** Argument parser *)

(** A plain JavaScript object used as a dictionary.  [obj[k] = v] with a
    string [v] creates or overwrites the property [k], except for the key
    [__proto__]: that assignment reaches the accessor inherited from
    [Object.prototype], which ignores a value that is neither an object nor
    null, so no property is created. *)
Definition obj_set (k v : string) (o : gmap string string) : gmap string string :=
  if String.eqb k "__proto__" then o else <[k := v]> o.

(** The text after an equals sign and a double quote at the start of [s]. *)
Definition after_equals_quote (s : string) : option string :=
  match s with
  | String a (String b rest) =>
      if Ascii.eqb a "=" && Ascii.eqb b "034" then Some rest else None
  | _ => None
  end.

(** The text after a double quote at the start of [s]. *)
Definition after_quote (s : string) : option string :=
  match s with
  | String a rest => if Ascii.eqb a "034" then Some rest else None
  | EmptyString => None
  end.

(** One attempt of the regular expression of [parseCommandArgs] at the start
    of [s]: a greedy run of word characters, the equals sign, a double quote,
    a greedy run of characters other than the double quote, a double quote.
    The result is the key, the value and the text after the match. *)
Definition match_arg_at (s : string) : option (string * string * string) :=
  Js.plus_greedy Js.is_word s (fun key r1 =>
    match after_equals_quote r1 with
    | Some r2 =>
        Js.plus_greedy Js.not_quote r2 (fun value r3 =>
          match after_quote r3 with
          | Some r4 => Some (key, value, r4)
          | None => None
          end)
    | None => None
    end).

(** [regex.exec(text)] from the position where the last match ended. *)
Definition exec_arg (s : string) : option (string * string * string) :=
  Js.search match_arg_at s.

(** The [while] loop of [parseCommandArgs]; [fuel] bounds its iterations. *)
Fixpoint parse_loop (fuel : nat) (s : string) (args : gmap string string)
    : option (gmap string string) :=
  match fuel with
  | O => None
  | S fuel' =>
      match exec_arg s with
      | None => Some args
      | Some (key, value, rest) => parse_loop fuel' rest (obj_set key value args)
      end
  end.

Definition parseCommandArgs (text : string) : gmap string string :=
  default ∅ (parse_loop (S (String.length text)) text ∅).

(** The argument parser as the specification words it: a left-to-right scan
    for non-overlapping tokens, each an identifier, the equals sign and a
    quoted value; the identifier is a run of word characters and the value a
    non-empty run of characters other than the double quote; what is not
    such a token is skipped.  [token_at] reads one token at the start of
    [s]. *)
Definition token_at (s : string) : option (string * string * string) :=
  let '(key, r1) := Js.span Js.is_word s in
  match key, after_equals_quote r1 with
  | String _ _, Some r2 =>
      let '(value, r3) := Js.span Js.not_quote r2 in
      match value, after_quote r3 with
      | String _ _, Some r4 => Some (key, value, r4)
      | _, _ => None
      end
  | _, _ => None
  end.

(** The tokens from left to right; one unit of [fuel] per position is
    enough. *)
Fixpoint scan_tokens (fuel : nat) (s : string) : list (string * string) :=
  match fuel with
  | O => []
  | S fuel' =>
      match token_at s with
      | Some (key, value, rest) => (key, value) :: scan_tokens fuel' rest
      | None =>
          match s with
          | String _ s' => scan_tokens fuel' s'
          | EmptyString => []
          end
      end
  end.

Definition tokens (text : string) : list (string * string) :=
  scan_tokens (S (String.length text)) text.

(** Later occurrences of a key overwrite earlier ones. *)
Definition parseArgs_spec (text : string) : gmap string string :=
  fold_left (fun m kv => <[kv.1 := kv.2]> m) (tokens text) ∅.

(** The double quote, for writing texts with quoted values. *)
Definition dq : string := String "034"%char EmptyString.

(** ** Data model *)

Record Config := {
  TELEGRAM_BOT_TOKEN : option string;
  AIRTABLE_API_KEY : option string;
  AIRTABLE_BASE_ID : option string;
  TELEGRAM_ADMIN_ID : option string;
  AIRTABLE_MEMBERS_TABLE_ID : option string;
  AIRTABLE_EVENTS_TABLE_ID : option string;
  AIRTABLE_QUESTIONS_TABLE_ID : option string;
  TELEGRAM_GROUP_CHAT_ID : option string
}.

(** What the handler takes from its run-time environment besides the
    configuration: [Number(TELEGRAM_ADMIN_ID)] when that is an integer
    ([None] for [NaN] and for any other number, which no integer identifier
    equals), the clock [Math.floor(Date.now() / 1000)] in seconds (an integer
    of at most 8.64e12 in absolute value), the two uses of [Date] in the
    admin listing of events, and [String.prototype.toUpperCase].  The last
    follows the Unicode tables of the runtime, of which the embedding keeps
    two facts: a text of ASCII characters has its letters a to z mapped to A
    to Z, and a text in upper case is left as it is. *)
Record Env := {
  config : Config;
  admin_id_number : option Z;
  now_seconds : Z;
  is_upcoming : option string -> bool;
  toLocaleDateString : option string -> string;
  toUpperCase : string -> string;
  toUpperCase_of_ascii :
    forall s, Js.is_ascii s = true -> toUpperCase s = Js.upper_ascii s;
  toUpperCase_twice : forall s, toUpperCase (toUpperCase s) = toUpperCase s
}.

(** Only the identifier of a user is read by the handler. *)
Record TelegramUser := { user_id : Z }.

Inductive ChatType := private | group | supergroup | channel.

Definition is_private (t : ChatType) : bool :=
  match t with private => true | _ => false end.

Record Chat := { chat_id : Z; chat_type : ChatType }.

#[warnings="-register-all"]
Inductive Message := {
  message_id : Z;
  from : TelegramUser;
  chat : Chat;
  text : option string;
  reply_to_message : option Message
}.

(** ** Collaborators *)

(** The permissions of a restriction: sending messages withdrawn, or the
    eight permissions that [unmuteUser] lists granted.  Its [until_date] is
    left out by [unmuteUser]; [muteUser] gives a number, and [Infinity] is
    written as [null] in the request. *)
Inductive Permissions := muted | all_allowed.

(** The inline keyboard of the source always holds one button with a link. *)
Record Button := { button_text : string; button_url : string }.

Inductive FieldValue := FString (s : string) | FBool (b : bool).

Inductive Call :=
| sendMessage_call (chatId : Z) (body : string) (reply_to_message_id : option Z)
    (reply_markup : option Button)
| getChatMember_call (chatId userId : Z)
| createChatInviteLink_call (chatId : string) (member_limit : Z) (expire_date : Z)
| banChatMember_call (chatId userId : Z)
| unbanChatMember_call (chatId userId : Z)
| restrictChatMember_call (chatId userId : Z) (permissions : Permissions)
    (until_date : option Js.number)
| deleteMessage_call (chatId messageId : Z)
| getMe_call
| select_call (table : string) (filterByFormula : option string)
    (sort : option (string * string)) (maxRecords : option Z)
| create_call (table : string) (fields : list (string * FieldValue))
| update_call (table : string) (recordId : string) (fields : list (string * FieldValue)).

Record AirtableRecord := { record_id : string; get : string -> option string }.

(** What a collaborator answers: the request fails (the promise rejects or,
    where the source reads the body, the body is not JSON), a Telegram answer with its [ok] flag and the
    string fields of its [result], the records of an Airtable selection, or
    the completion of an Airtable write. *)
Inductive Reply :=
| Rejected
| Telegram (ok : bool) (result : option (string -> option string))
| Records (records : list AirtableRecord)
| Written.

(** The answer to a call may depend on all the calls made before it. *)
Definition World := list Call -> Call -> Reply.

Inductive Outcome (A : Type) := Ret (a : A) | Throw.
Arguments Ret {A} a.
Arguments Throw {A}.

(** Computations that call collaborators: the trace of calls is threaded. *)
Definition M (A : Type) : Type := World -> list Call -> Outcome A * list Call.

Definition ret {A} (a : A) : M A := fun _ h => (Ret a, h).

Definition throw {A} : M A := fun _ h => (Throw, h).

Definition bind {A B} (m : M A) (f : A -> M B) : M B :=
  fun w h =>
    match m w h with
    | (Ret a, h') => f a w h'
    | (Throw, h') => (Throw, h')
    end.

Definition call (c : Call) : M Reply :=
  fun w h => (Ret (w h c), (h ++ [c])%list).

Notation "x <- m ;; k" := (bind m (fun x => k))
  (at level 100, m at next level, right associativity).
Notation "m ;;; k" := (bind m (fun _ => k))
  (at level 100, right associativity).

(** [await fetch(...)] whose answer is not read: only a failed request
    matters. *)
Definition fetch_ (c : Call) : M unit :=
  r <- call c ;;
  match r with
  | Rejected => throw
  | _ => ret tt
  end.

Section Handlers.

Variable env : Env.

Let cfg := config env.

(** *** Core API helpers *)

(** [if (replyToMessageId) payload.reply_to_message_id = replyToMessageId]:
    an identifier that is undefined or zero is left out. *)
Definition reply_to_field (replyToMessageId : option Z) : option Z :=
  match replyToMessageId with
  | Some i => if i =? 0 then None else Some i
  | None => None
  end.

Definition sendMessage (chatId : Z) (body : string) (replyToMessageId : option Z)
    (replyMarkup : option Button) : M unit :=
  if negb (Js.truthy (TELEGRAM_BOT_TOKEN cfg)) then ret tt
  else
    (* the request, the decoding of its answer and the test of [json.ok]
       are inside a [try]; a failure is only logged *)
    call (sendMessage_call chatId body (reply_to_field replyToMessageId) replyMarkup) ;;;
    ret tt.

(** [data.ok && ['creator', 'administrator'].includes(data.result.status)];
    reading [status] of a missing [result] raises, which the [catch] of
    [isUserAdmin] turns into [false]. *)
Definition member_is_admin (r : Reply) : bool :=
  match r with
  | Telegram true (Some result) =>
      match result "status" with
      | Some status => Js.includes ["creator"; "administrator"] status
      | None => false
      end
  | _ => false
  end.

Definition isUserAdmin (chatId userId : Z) : M bool :=
  if chatId >? 0 then ret false
  else
    r <- call (getChatMember_call chatId userId) ;;
    ret (member_is_admin r).

Definition createInviteLink (chatId : string) : M (option string) :=
  r <- call (createChatInviteLink_call chatId 1 (now_seconds env + 86400)) ;;
  match r with
  | Telegram true (Some result) => ret (result "invite_link")
  | _ => ret None
  end.

(** *** Moderation actions *)

Definition reason_text (reason : string) : string :=
  if Js.truthy (Some reason) then "Reason: " ++ reason else "".

Definition banUser (chatId userId : Z) (reason : string) : M unit :=
  fetch_ (banChatMember_call chatId userId) ;;;
  sendMessage chatId ("User has been banned. " ++ reason_text reason) None None.

Definition unbanUser (chatId userId : Z) : M unit :=
  fetch_ (unbanChatMember_call chatId userId) ;;;
  sendMessage chatId "User has been unbanned." None None.

Definition muteUser (chatId userId : Z) (durationSeconds : Js.number)
    (reason : string) : M unit :=
  let until_date := Js.add (now_seconds env) durationSeconds in
  fetch_ (restrictChatMember_call chatId userId muted (Some until_date)) ;;;
  let durationText :=
    if Js.geb durationSeconds 86400
    then Js.to_string (Js.floor_div durationSeconds 86400) ++ " days"
    else Js.to_string (Js.floor_div durationSeconds 3600) ++ " hours" in
  sendMessage chatId
    ("User has been muted for " ++ durationText ++ ". " ++ reason_text reason)
    None None.

Definition unmuteUser (chatId userId : Z) : M unit :=
  fetch_ (restrictChatMember_call chatId userId all_allowed None) ;;;
  sendMessage chatId "User has been unmuted." None None.

Definition deleteMessage (chatId messageId : Z) : M unit :=
  fetch_ (deleteMessage_call chatId messageId).

(** The call [parseMuteDuration(args[0])]: without an argument [args[0]] is
    [undefined], and [durationStr.match] raises a [TypeError]. *)
Definition parseMuteDuration_of (arg : option string) : M Js.number :=
  match arg with
  | Some durationStr => ret (parseMuteDuration durationStr)
  | None => throw
  end.

(** *** Airtable helpers *)

(** [getAirtableBase()] returns a base unless the key or the base id is
    missing. *)
Definition has_base : bool :=
  Js.truthy (AIRTABLE_API_KEY cfg) && Js.truthy (AIRTABLE_BASE_ID cfg).

Definition table_id (t : option string) : string := default "" t.

Definition member_formula (aetherId : string) : string :=
  "UPPER({aetherId}) = " ++ dq ++ toUpperCase env aetherId ++ dq.

Definition event_formula (eventCode : string) : string :=
  "UPPER({EventCode}) = " ++ dq ++ toUpperCase env eventCode ++ dq.

Record Verification := { verified : bool; fullName : option string }.

Definition verifyMember (aetherId : string) : M Verification :=
  if negb has_base || negb (Js.truthy (AIRTABLE_MEMBERS_TABLE_ID cfg))
  then ret {| verified := false; fullName := None |}
  else
    r <- call (select_call (table_id (AIRTABLE_MEMBERS_TABLE_ID cfg))
                 (Some (member_formula aetherId)) None (Some 1)) ;;
    match r with
    | Records (record :: _) =>
        ret {| verified := true; fullName := get record "fullName" |}
    | _ => ret {| verified := false; fullName := None |}
    end.

Record UpcomingEvent := {
  ue_title : option string;
  ue_registrationUrl : option string;
  ue_eventCode : option string
}.

Definition getUpcomingEvents : M (list UpcomingEvent) :=
  if negb has_base || negb (Js.truthy (AIRTABLE_EVENTS_TABLE_ID cfg)) then ret []
  else
    r <- call (select_call (table_id (AIRTABLE_EVENTS_TABLE_ID cfg))
                 (Some "IS_AFTER({Date}, TODAY())") (Some ("Date", "asc")) None) ;;
    match r with
    | Records records =>
        ret (map (fun record =>
                    {| ue_title := get record "Title";
                       ue_registrationUrl := get record "Registration URL";
                       ue_eventCode := get record "EventCode" |}) records)
    | _ => ret []
    end.

Record AdminEvent := {
  ae_title : option string;
  ae_date : option string;
  ae_eventCode : option string;
  ae_status : string
}.

Definition getAllEventsAdmin : M (list AdminEvent) :=
  if negb has_base || negb (Js.truthy (AIRTABLE_EVENTS_TABLE_ID cfg)) then ret []
  else
    r <- call (select_call (table_id (AIRTABLE_EVENTS_TABLE_ID cfg))
                 None (Some ("Date", "desc")) None) ;;
    match r with
    | Records records =>
        ret (map (fun record =>
                    {| ae_title := get record "Title";
                       ae_date := get record "Date";
                       ae_eventCode := get record "EventCode";
                       ae_status :=
                         if is_upcoming env (get record "Date")
                         then "Upcoming" else "Past" |}) records)
    | _ => ret []
    end.

Record Submission := {
  sub_submission : option string;
  sub_type : option string;
  sub_submittedAt : option string;
  sub_context : string
}.

Definition getAllSubmissions : M (list Submission) :=
  if negb has_base || negb (Js.truthy (AIRTABLE_QUESTIONS_TABLE_ID cfg)) then ret []
  else
    r <- call (select_call (table_id (AIRTABLE_QUESTIONS_TABLE_ID cfg))
                 None (Some ("fldBBXne24R0iqZFL", "desc")) None) ;;
    match r with
    | Records records =>
        ret (map (fun record =>
                    {| sub_submission := get record "fldzGkktA5C06rZzq";
                       sub_type := get record "fldnHAjQMoMSu7qtd";
                       sub_submittedAt := get record "fldBBXne24R0iqZFL";
                       sub_context :=
                         if Js.truthy (get record "fldR3R8fZ6ZrHWI9e")
                         then Js.show (get record "fldR3R8fZ6ZrHWI9e")
                         else "General" |}) records)
    | _ => ret []
    end.

Definition logSubmission (telegramUserId : Z) (submissionText type context : string)
    : M bool :=
  if negb has_base || negb (Js.truthy (AIRTABLE_QUESTIONS_TABLE_ID cfg)) then ret false
  else
    r <- call (create_call (table_id (AIRTABLE_QUESTIONS_TABLE_ID cfg))
                 [("fldzGkktA5C06rZzq", FString submissionText);
                  ("fldnHAjQMoMSu7qtd", FString type);
                  ("fld75Mt7o7JJj57Oi", FString (string_of_Z telegramUserId));
                  ("fldR3R8fZ6ZrHWI9e", FString context)]) ;;
    match r with
    | Rejected => ret false
    | _ => ret true
    end.

(** *** Event management *)

Record ActionResult := { success : bool; message : string }.

Definition or_empty (o : option string) : string :=
  if Js.truthy o then Js.show o else "".

Definition missing_fields_message : string :=
  "Missing required fields. Please provide at least `title`, `date` (YYYY-MM-DD), and `code`.".

Definition createEvent (args : gmap string string) : M ActionResult :=
  if negb has_base || negb (Js.truthy (AIRTABLE_EVENTS_TABLE_ID cfg))
  then ret {| success := false; message := "Airtable for events not configured." |}
  else
    let title := args !! "title" in
    let date := args !! "date" in
    let description := args !! "description" in
    let link := args !! "link" in
    let code := args !! "code" in
    if negb (Js.truthy title) || negb (Js.truthy date) || negb (Js.truthy code)
    then ret {| success := false; message := missing_fields_message |}
    else
      r <- call (create_call (table_id (AIRTABLE_EVENTS_TABLE_ID cfg))
                   [("Title", FString (Js.show title));
                    ("Date", FString (Js.show date));
                    ("Description", FString (or_empty description));
                    ("Registration URL", FString (or_empty link));
                    ("EventCode", FString (toUpperCase env (Js.show code)));
                    ("Published", FBool true)]) ;;
      match r with
      | Rejected =>
          ret {| success := false; message := "Failed to create event in Airtable." |}
      | _ =>
          ret {| success := true;
                 message := "✅ Event " ++ dq ++ Js.show title ++ dq
                   ++ " created successfully with code `"
                   ++ toUpperCase env (Js.show code) ++ "`." |}
      end.

(** The fields that [updateEvent] writes, in the order of its tests. *)
Definition fieldsToUpdate (args : gmap string string) : list (string * FieldValue) :=
  ((if Js.truthy (args !! "title")
    then [("Title", FString (Js.show (args !! "title")))] else []) ++
   (if Js.truthy (args !! "date")
    then [("Date", FString (Js.show (args !! "date")))] else []) ++
   (if Js.truthy (args !! "description")
    then [("Description", FString (Js.show (args !! "description")))] else []) ++
   (if Js.truthy (args !! "link")
    then [("Registration URL", FString (Js.show (args !! "link")))] else []) ++
   (if Js.truthy (args !! "status")
       && String.eqb (Js.toLowerCase (Js.show (args !! "status"))) "closed"
    then [("Published", FBool false)] else []))%list.

Definition updateEvent (eventCode : string) (args : gmap string string)
    : M ActionResult :=
  if negb has_base || negb (Js.truthy (AIRTABLE_EVENTS_TABLE_ID cfg))
  then ret {| success := false; message := "Airtable for events not configured." |}
  else if (size args =? 0)%nat
  then ret {| success := false; message := "No fields provided to update." |}
  else
    r <- call (select_call (table_id (AIRTABLE_EVENTS_TABLE_ID cfg))
                 (Some (event_formula eventCode)) None (Some 1)) ;;
    match r with
    | Records [] =>
        ret {| success := false;
               message := "Event with code `" ++ toUpperCase env eventCode
                            ++ "` not found." |}
    | Records (record :: _) =>
        r' <- call (update_call (table_id (AIRTABLE_EVENTS_TABLE_ID cfg))
                      (record_id record) (fieldsToUpdate args)) ;;
        match r' with
        | Rejected => ret {| success := false; message := "Failed to update event." |}
        | _ =>
            ret {| success := true;
                   message := "✅ Event `" ++ toUpperCase env eventCode
                                ++ "` updated successfully." |}
        end
    | _ => ret {| success := false; message := "Failed to update event." |}
    end.

(** *** User-facing handlers *)

Definition nl : string := String "010"%char EmptyString.

Definition eqb_i (c : ascii) (letter : ascii) : bool :=
  Ascii.eqb (Js.upper_char c) letter.

(** At least four characters of the class at the start of [s]: the greedy
    repetition of four or more succeeds exactly then. *)
Definition four_alnum (s : string) : bool :=
  match s with
  | String a (String b (String c (String d _))) =>
      Js.is_alnum_i a && Js.is_alnum_i b && Js.is_alnum_i c && Js.is_alnum_i d
  | _ => false
  end.

(** The optional hyphen, tried first with the hyphen and then without,
    followed by the four or more letters or digits. *)
Definition after_optional_hyphen (r : string) : bool :=
  match r with
  | String c r' => (Ascii.eqb c "-" && four_alnum r') || four_alnum r
  | EmptyString => four_alnum r
  end.

(** One attempt of the identity-code pattern at the start of [s]: the four
    letters AETH in either case, an optional hyphen, four or more letters or
    digits. *)
Definition match_aeth_at (s : string) : option unit :=
  match s with
  | String a (String e (String t (String h r))) =>
      if eqb_i a "A" && eqb_i e "E" && eqb_i t "T" && eqb_i h "H"
         && after_optional_hyphen r
      then Some tt else None
  | _ => None
  end.

(** The test of the identity-code pattern anywhere in the text. *)
Definition test_aeth (s : string) : bool :=
  match Js.search match_aeth_at s with Some _ => true | None => false end.

Definition welcome_message (name : string) : string :=
  "✅ Verification successful! Welcome, " ++ name ++ "." ++ nl ++ nl
  ++ "*Here's what you can do:*" ++ nl ++ nl
  ++ "/events - View upcoming events." ++ nl
  ++ "/ask [your question] - Ask a general question to the community." ++ nl
  ++ "/asklive [event_code] [your question] - Ask a question during a live event." ++ nl
  ++ "/suggest [your idea] - Submit a suggestion.".

(** The reply of [handleVerification] to the result of the lookup. *)
Definition verification_reply (chatId : Z) (result : Verification) : M unit :=
  if verified result && Js.truthy (fullName result) then
    replyMarkup <-
      (if Js.truthy (TELEGRAM_GROUP_CHAT_ID cfg) then
         inviteLink <- createInviteLink (Js.show (TELEGRAM_GROUP_CHAT_ID cfg)) ;;
         if Js.truthy inviteLink
         then ret (Some {| button_text := "Join the Community Group";
                           button_url := Js.show inviteLink |})
         else ret None
       else ret None) ;;
    sendMessage chatId (welcome_message (Js.show (fullName result))) None replyMarkup
  else
    sendMessage chatId
      "❌ Verification failed. Please check your Aether ID and try again. You can get your ID by joining at aether.build/join."
      None None.

Definition handleVerification (chatId : Z) (aetherId : option string) : M unit :=
  if negb (Js.truthy aetherId)
  then sendMessage chatId "Please provide your Aether ID." None None
  else
    let aetherId := Js.show aetherId in
    if negb (test_aeth aetherId)
    then sendMessage chatId
           "Please provide your Aether ID in the format `AETH-XX12` or `AETHADM-XXXXXX`."
           None None
    else
      result <- verifyMember aetherId ;;
      verification_reply chatId result.

(** *** Main handler *)

Inductive HttpResponse := status_ok | status_500.

Definition moderation_commands : list string := ["/ban"; "/mute"; "/unmute"; "/del"].
Definition private_only_commands : list string :=
  ["/events"; "/ask"; "/asklive"; "/suggest"].
Definition adminEventCommands : list string :=
  ["/createevent"; "/updateevent"; "/closeevent"; "/listevents"; "/registrations"].

(** [const [command, ...args] = text.split(' ')] *)
Definition command_of (body : string) : string := hd "" (Js.split_space body).
Definition args_of (body : string) : list string := tl (Js.split_space body).

(** What the first block of [POST] does for a sender who is an administrator
    of the chat.  [Some r] stands for [return r], [None] for falling out of
    the block. *)
Definition moderate (msg : Message) : M (option HttpResponse) :=
  let body := default "" (text msg) in
  let chatId := chat_id (chat msg) in
  let command := command_of body in
  let args := args_of body in
  let repliedToUser := from <$> reply_to_message msg in
  let repliedToMessageId := message_id <$> reply_to_message msg in
  if Js.undefined repliedToUser && Js.includes moderation_commands command
  then
    sendMessage chatId "This command must be used as a reply to a user's message."
      (Some (message_id msg)) None ;;;
    ret (Some status_ok)
  else
    (if String.eqb command "/ban" || String.eqb command "/mute" then
       match repliedToUser with
       | Some target =>
           isTargetAdmin <- isUserAdmin chatId (user_id target) ;;
           if isTargetAdmin then
             sendMessage chatId "This command cannot be used on an administrator."
               (Some (message_id msg)) None
           else if String.eqb command "/ban" then
             banUser chatId (user_id target) (Js.join_space args)
           else
             duration <- parseMuteDuration_of (nth_error args 0) ;;
             if Js.positive duration then
               muteUser chatId (user_id target) duration (Js.join_space (tl args))
             else
               sendMessage chatId "Invalid duration. Use format like `1h`, `2d`."
                 (Some (message_id msg)) None
       | None => ret tt
       end
     else if String.eqb command "/unmute" then
       match repliedToUser with
       | Some target => unmuteUser chatId (user_id target)
       | None => ret tt
       end
     else if String.eqb command "/del" then
       (match repliedToMessageId with
        | Some i => if i =? 0 then ret tt else deleteMessage chatId i
        | None => ret tt
        end) ;;;
       deleteMessage chatId (message_id msg)
     else ret tt) ;;;
    ret None.

(** The first block of [POST]: in a chat that is not private, a text that
    starts with a slash has the role of its sender resolved, and the
    moderation commands are for administrators only. *)
Definition moderation (msg : Message) : M (option HttpResponse) :=
  let body := default "" (text msg) in
  if negb (is_private (chat_type (chat msg))) && Js.startsWith "/" body then
    isAdmin <- isUserAdmin (chat_id (chat msg)) (user_id (from msg)) ;;
    if isAdmin then moderate msg else ret None
  else ret None.

(** The admin-only event commands; [Some r] stands for [return r], [None]
    for [break] or for a command that is none of the cases. *)
Definition admin_event_switch (msg : Message) (command : string)
    (args : list string) : M (option HttpResponse) :=
  let chatId := chat_id (chat msg) in
  let reply_id := Some (message_id msg) in
  if String.eqb command "/createevent" then
    let createArgs := parseCommandArgs (Js.join_space args) in
    createResult <- createEvent createArgs ;;
    sendMessage chatId (message createResult) reply_id None ;;;
    ret (Some status_ok)
  else if String.eqb command "/updateevent" then
    if negb (Js.truthy (nth_error args 0)) then
      sendMessage chatId
        ("Usage: `/updateevent <event_code> key=" ++ dq ++ "value" ++ dq ++ " ...`")
        None None ;;;
      ret None
    else
      let updateArgs := parseCommandArgs (Js.join_space (tl args)) in
      updateResult <- updateEvent (Js.show (nth_error args 0)) updateArgs ;;
      sendMessage chatId (message updateResult) reply_id None ;;;
      ret (Some status_ok)
  else if String.eqb command "/closeevent" then
    if negb (Js.truthy (nth_error args 0)) then
      sendMessage chatId "Usage: `/closeevent <event_code>`" None None ;;;
      ret None
    else
      closeResult <- updateEvent (Js.show (nth_error args 0)) {[ "status" := "closed" ]} ;;
      sendMessage chatId (message closeResult) reply_id None ;;;
      ret (Some status_ok)
  else if String.eqb command "/listevents" then
    adminEvents <- getAllEventsAdmin ;;
    let adminEventList :=
      match adminEvents with
      | [] => "No events found."
      | _ =>
          fold_left (fun acc event =>
            acc ++ "*" ++ Js.show (ae_title event) ++ "*" ++ nl
                ++ "Code: `" ++ Js.show (ae_eventCode event) ++ "` | Status: *"
                ++ ae_status event ++ "*" ++ nl
                ++ "Date: " ++ toLocaleDateString env (ae_date event) ++ nl ++ nl)
            adminEvents ("📋 *All Events:*" ++ nl ++ nl)
      end in
    sendMessage chatId adminEventList reply_id None ;;;
    ret (Some status_ok)
  else if String.eqb command "/registrations" then
    if negb (Js.truthy (nth_error args 0))
       || negb (Js.truthy (AIRTABLE_BASE_ID cfg))
       || negb (Js.truthy (AIRTABLE_EVENTS_TABLE_ID cfg))
    then
      sendMessage chatId "Usage: `/registrations <event_code>`" None None ;;;
      ret None
    else
      let code := toUpperCase env (Js.show (nth_error args 0)) in
      let airtableLink :=
        "https://airtable.com/" ++ Js.show (AIRTABLE_BASE_ID cfg) ++ "/"
          ++ Js.show (AIRTABLE_EVENTS_TABLE_ID cfg) ++ "?filter_EventCode=" ++ code in
      sendMessage chatId
        ("View registrations for `" ++ code ++ "` in Airtable:" ++ nl ++ nl ++ airtableLink)
        reply_id None ;;;
      ret (Some status_ok)
  else ret None.

(** The commands open to every sender. *)
Definition general_switch (msg : Message) (command : string) (args : list string)
    : M unit :=
  let chatId := chat_id (chat msg) in
  let userId := user_id (from msg) in
  if String.eqb command "/start" then
    sendMessage chatId
      "Welcome to the Aether Bot! Please verify your identity by sending your Aether ID (e.g., `AETH-XX12`)."
      None None
  else if String.eqb command "/verify" then
    handleVerification chatId (nth_error args 0)
  else if String.eqb command "/events" then
    events <- getUpcomingEvents ;;
    let eventList :=
      match events with
      | [] => "No upcoming events right now. Check back soon!"
      | _ =>
          fold_left (fun acc event =>
            acc ++ "*" ++ Js.show (ue_title event) ++ "* (Code: `"
                ++ Js.show (ue_eventCode event) ++ "`)" ++ nl
                ++ "[Register Here](" ++ Js.show (ue_registrationUrl event) ++ ")"
                ++ nl ++ nl)
            events ("📅 *Upcoming Events:*" ++ nl ++ nl)
      end in
    sendMessage chatId eventList None None
  else if String.eqb command "/ask" then
    let question := Js.join_space args in
    if negb (Js.truthy (Some question)) then
      sendMessage chatId "Usage: `/ask How do I join Horizon Studio?`" None None
    else
      logSubmission userId question "Questions" "General" ;;;
      sendMessage chatId "Thanks! Your question has been submitted." None None
  else if String.eqb command "/asklive" then
    let eventCode := nth_error args 0 in
    let liveQuestion := Js.join_space (tl args) in
    if negb (Js.truthy eventCode) || negb (Js.truthy (Some liveQuestion)) then
      sendMessage chatId
        "Usage: `/asklive WAD25 How do you see AI impacting architecture?`" None None
    else
      logSubmission userId liveQuestion "Questions" (toUpperCase env (Js.show eventCode)) ;;;
      sendMessage chatId
        ("Thanks! Your question for event *" ++ toUpperCase env (Js.show eventCode)
           ++ "* has been submitted.") None None
  else if String.eqb command "/suggest" then
    let suggestion := Js.join_space args in
    if negb (Js.truthy (Some suggestion)) then
      sendMessage chatId
        "Usage: `/suggest We should have a portfolio review session.`" None None
    else
      logSubmission userId suggestion "Suggestions" "General" ;;;
      sendMessage chatId "Great idea! Your suggestion has been recorded." None None
  else if is_private (chat_type (chat msg))
          && negb (Js.includes moderation_commands command)
  then
    if negb (Js.includes adminEventCommands command)
    then sendMessage chatId "Sorry, I don't recognize that command." None None
    else ret tt
  else ret tt.

(** The reply with the link to the private chat with the bot. *)
Definition redirect_text : string :=
  "To keep our chat clean, please use this command in a private message with me.".

Definition redirect_button (botUsername : option string) : Button :=
  {| button_text := "Chat with Aether Bot";
     button_url := "https://t.me/" ++ Js.show botUsername |}.

(** The second block of [POST], for a text that starts with a slash. *)
Definition commands (msg : Message) : M HttpResponse :=
  let body := default "" (text msg) in
  let chatId := chat_id (chat msg) in
  let command := command_of body in
  let args := args_of body in
  if negb (is_private (chat_type (chat msg)))
     && Js.includes private_only_commands command
  then
    botInfo <- call getMe_call ;;
    match botInfo with
    | Telegram _ (Some result) =>
        sendMessage chatId redirect_text (Some (message_id msg))
          (Some (redirect_button (result "username"))) ;;;
        ret status_ok
    | _ => throw
    end
  else
    isSenderAdmin <-
      (if chatId <? 0 then isUserAdmin chatId (user_id (from msg))
       else ret (bool_decide (admin_id_number env = Some (user_id (from msg))))) ;;
    returned <-
      (if isSenderAdmin then admin_event_switch msg command args else ret None) ;;
    match returned with
    | Some r => ret r
    | None => general_switch msg command args ;;; ret status_ok
    end.

(** The branches of [POST] for a text that does not start with a slash. *)
Definition free_text (msg : Message) : M HttpResponse :=
  let body := default "" (text msg) in
  let chatId := chat_id (chat msg) in
  (if Js.truthy (TELEGRAM_ADMIN_ID cfg)
      && String.eqb (toUpperCase env body)
           (toUpperCase env (Js.show (TELEGRAM_ADMIN_ID cfg)))
   then
     sendMessage chatId
       "🔑 Admin authentication successful. Fetching all submissions..." None None ;;;
     submissions <- getAllSubmissions ;;
     match submissions with
     | [] => sendMessage chatId "No submissions found." None None
     | _ =>
         let report :=
           fold_left (fun acc sub =>
             acc ++ "*" ++ Js.show (sub_type sub) ++ "* | Context: *"
                 ++ sub_context sub ++ "* " ++ nl ++ "> "
                 ++ Js.show (sub_submission sub) ++ nl ++ nl)
             submissions ("📝 *All Community Submissions:*" ++ nl ++ nl) in
         if (4000 <? Js.length report)%nat then
           sendMessage chatId
             "Report is too long for one message. Sending recent entries:" None None ;;;
           sendMessage chatId (Js.substring0 4000 report) None None
         else sendMessage chatId report None None
     end
   else if test_aeth body then handleVerification chatId (Some body)
   else if is_private (chat_type (chat msg)) then
     sendMessage chatId
       "Hi there! I can only respond to commands right now. Try `/start` to see your options."
       None None
   else ret tt) ;;;
  ret status_ok.

(** The body of the [try] of [POST] for a delivery that carries a message. *)
Definition handle (msg : Message) : M HttpResponse :=
  let body := default "" (text msg) in
  returned <- moderation msg ;;
  match returned with
  | Some r => ret r
  | None => if Js.startsWith "/" body then commands msg else free_text msg
  end.

(** [POST]: the answer to the webhook and the trace of collaborator calls. *)
Definition POST (body_message : option Message) (w : World)
    : HttpResponse * list Call :=
  if negb (Js.truthy (TELEGRAM_BOT_TOKEN cfg)) then (status_500, [])
  else
    match body_message with
    | None => (status_ok, [])
    | Some msg =>
        match handle msg w [] with
        | (Ret r, trace) => (r, trace)
        | (Throw, trace) => (status_500, trace)
        end
    end.

End Handlers.

(** * Notions of the specification and of the proofs

    The predicates in which the properties are stated, the sample
    configuration, messages and worlds on which they are tried, and the
    auxiliary functions of the proofs. *)

(** ** The parsers *)

(** Every character of a string is of a class. *)
Fixpoint all_chars (p : ascii -> bool) (s : string) : bool :=
  match s with
  | EmptyString => true
  | String c s' => p c && all_chars p s'
  end.

(** The seconds of one unit, as the specification lists them. *)
Definition unit_seconds (u : ascii) : option Z :=
  if Ascii.eqb u "h" then Some 3600
  else if Ascii.eqb u "d" then Some 86400
  else if Ascii.eqb u "m" then Some 60
  else None.

(** The continuation of the digits in [match_duration]. *)
Definition duration_tail (digits rest : string) : option (string * ascii) :=
  match rest with
  | String u EmptyString =>
      if Ascii.eqb u "h" || Ascii.eqb u "d" || Ascii.eqb u "m"
      then Some (digits, u) else None
  | _ => None
  end.

(** The continuations of the two repetitions in [match_arg_at]. *)
Definition value_tail (key value r3 : string) : option (string * string * string) :=
  match after_quote r3 with
  | Some r4 => Some (key, value, r4)
  | None => None
  end.

Definition key_tail (key r1 : string) : option (string * string * string) :=
  match after_equals_quote r1 with
  | Some r2 => Js.plus_greedy Js.not_quote r2 (value_tail key)
  | None => None
  end.

(** The assignments of the loop, performed on a list of tokens. *)
Definition assign_all (toks : list (string * string)) (args : gmap string string)
    : gmap string string :=
  fold_left (fun m kv => obj_set kv.1 kv.2 m) toks args.

(** ** Roles *)

(** The answers to a membership query that do not report a creator or an
    administrator: a failed request, an answer that is not ok, a status
    outside the two roles. *)
Definition unprivileged_reply (r : Reply) : Prop :=
  r = Rejected \/
  (exists result, r = Telegram false result) \/
  (exists ok result,
      r = Telegram ok (Some result) /\
      result "status" <> Some "creator" /\
      result "status" <> Some "administrator").

(** ** Configuration and the calls of the handlers *)

(** The events table can be reached. *)
Definition events_ready (env : Env) : bool :=
  has_base env && Js.truthy (AIRTABLE_EVENTS_TABLE_ID (config env)).

(** The identifier of the events table. *)
Definition events_table (env : Env) : string :=
  table_id (AIRTABLE_EVENTS_TABLE_ID (config env)).

(** The record that [createEvent] writes. *)
Definition created_fields (env : Env) (args : gmap string string)
    : list (string * FieldValue) :=
  [("Title", FString (Js.show (args !! "title")));
   ("Date", FString (Js.show (args !! "date")));
   ("Description", FString (or_empty (args !! "description")));
   ("Registration URL", FString (or_empty (args !! "link")));
   ("EventCode", FString (toUpperCase env (Js.show (args !! "code"))));
   ("Published", FBool true)].

(** ** Sample configuration, messages and worlds *)

(** Everything is configured; the super admin is user 42. *)
Definition demo_config : Config :=
  {| TELEGRAM_BOT_TOKEN := Some "token";
     AIRTABLE_API_KEY := Some "key";
     AIRTABLE_BASE_ID := Some "base";
     TELEGRAM_ADMIN_ID := Some "42";
     AIRTABLE_MEMBERS_TABLE_ID := Some "members";
     AIRTABLE_EVENTS_TABLE_ID := Some "events";
     AIRTABLE_QUESTIONS_TABLE_ID := Some "questions";
     TELEGRAM_GROUP_CHAT_ID := Some "-100" |}.

(** The ASCII letters in upper case satisfy what the environment says of
    [toUpperCase]. *)
Definition upper_char_twice (c : ascii)
    : Js.upper_char (Js.upper_char c) = Js.upper_char c :=
  ltac:(destruct c as [[] [] [] [] [] [] [] []]; reflexivity).

Fixpoint upper_ascii_twice (s : string)
    : Js.upper_ascii (Js.upper_ascii s) = Js.upper_ascii s :=
  match s with
  | EmptyString => eq_refl
  | String c s' => f_equal2 String (upper_char_twice c) (upper_ascii_twice s')
  end.

Definition demo_env : Env :=
  {| config := demo_config;
     admin_id_number := Some 42;
     now_seconds := 1700000000;
     is_upcoming := fun _ => true;
     toLocaleDateString := Js.show;
     toUpperCase := Js.upper_ascii;
     toUpperCase_of_ascii := fun _ _ => eq_refl;
     toUpperCase_twice := upper_ascii_twice |}.

(** A world where every write succeeds and every selection is empty. *)
Definition quiet_world : World :=
  fun _ c =>
    match c with
    | select_call _ _ _ _ => Records []
    | create_call _ _ | update_call _ _ _ => Written
    | _ => Telegram true None
    end.

(** The arguments of a well-formed [/createevent]. *)
Definition demo_event_args : gmap string string :=
  <["code" := "wad25"]> (<["date" := "2025-10-06"]> (<["title" := "World Architecture Day"]> ∅)).

(** The same arguments without the title, and without the code. *)
Definition demo_args_without_title : gmap string string :=
  <["code" := "wad25"]> (<["date" := "2025-10-06"]> ∅).

Definition demo_args_without_code : gmap string string :=
  <["date" := "2025-10-06"]> (<["title" := "World Architecture Day"]> ∅).

(** The message of [createEvent] when a required field is missing or the
    events table is not configured. *)
Definition createEvent_failure (env : Env) : string :=
  if events_ready env then missing_fields_message
  else "Airtable for events not configured.".

(** The selection by which [updateEvent] looks an event up: the comparison
    is between upper-cased codes. *)
Definition lookup_event (env : Env) (eventCode : string) : Call :=
  select_call (events_table env) (Some (event_formula env eventCode)) None (Some 1%Z).

(** A world with one event, whatever the code asked for. *)
Definition one_event_world : World :=
  fun _ c =>
    match c with
    | select_call _ _ _ _ =>
        Records [ {| record_id := "rec1"; get := fun _ => None |} ]
    | create_call _ _ | update_call _ _ _ => Written
    | _ => Telegram true None
    end.

(** The bot token is configured. *)
Definition token_set (env : Env) : bool := Js.truthy (TELEGRAM_BOT_TOKEN (config env)).

(** ** Traces

    [count_calls P t] counts the calls of the kind [P] in a trace, and
    [at_most P n m] says that, whatever the world answers, [m] extends the
    trace by at most [n] calls of the kind [P]. *)
Definition count_calls (P : Call -> bool) (t : list Call) : nat :=
  List.length (List.filter P t).

Definition at_most {A} (P : Call -> bool) (n : nat) (m : M A) : Prop :=
  forall w h, exists t, snd (m w h) = (h ++ t)%list /\ (count_calls P t <= n)%nat.

(** [silent P m]: [m] makes no call of the kind [P]. *)
Definition silent {A} (P : Call -> bool) (m : M A) : Prop := at_most P 0 m.

Definition is_restrict (c : Call) : bool :=
  match c with restrictChatMember_call _ _ _ _ => true | _ => false end.

Definition is_reply (c : Call) : bool :=
  match c with sendMessage_call _ _ _ _ => true | _ => false end.

Definition is_moderation_call (c : Call) : bool :=
  match c with
  | banChatMember_call _ _ | unbanChatMember_call _ _
  | restrictChatMember_call _ _ _ _ | deleteMessage_call _ _ => true
  | _ => false
  end.

Definition is_datastore (c : Call) : bool :=
  match c with
  | select_call _ _ _ _ | create_call _ _ | update_call _ _ _ => true
  | _ => false
  end.

(** A kind of calls to which no reply and no Airtable call belongs. *)
Definition telegram_action_kind (P : Call -> bool) : Prop :=
  forall c, P c = true -> is_reply c = false /\ is_datastore c = false /\
                          c <> getMe_call /\
                          (forall a b d, c <> createChatInviteLink_call a b d).

(** The membership query for user [userId] in chat [chatId]. *)
Definition is_query_of (chatId userId : Z) (c : Call) : bool :=
  match c with
  | getChatMember_call a b => (a =? chatId) && (b =? userId)
  | _ => false
  end.

(** The kind of no call at all: a computation is silent for it when it only
    extends the trace. *)
Definition no_call (c : Call) : bool := false.

(** Kinds to which no moderation call belongs. *)
Definition spares_moderation (P : Call -> bool) : Prop :=
  forall c, is_moderation_call c = true -> P c = false.

(** The message replies to a message of its own sender. *)
Definition self_reply (msg : Message) : bool :=
  match reply_to_message msg with
  | Some replied => user_id (from replied) =? user_id (from msg)
  | None => false
  end.

(** A group and the messages sent to it. *)
Definition demo_group : Chat := {| chat_id := -1001; chat_type := group |}.

Definition group_message (sender : Z) (body : string) (replied : option Message)
    : Message :=
  {| message_id := 77; from := {| user_id := sender |}; chat := demo_group;
     text := Some body; reply_to_message := replied |}.

Definition status_of (role : string) : string -> option string :=
  fun field => if String.eqb field "status" then Some role else None.

(** Users 6 and 7 administer the group, everybody else is a member; the bot
    is called [aether_bot]; Airtable is empty. *)
Definition group_world : World :=
  fun _ c =>
    match c with
    | getChatMember_call _ userId =>
        Telegram true
          (Some (status_of (if (userId =? 6) || (userId =? 7)
                            then "administrator" else "member")))
    | getMe_call =>
        Telegram true
          (Some (fun field => if String.eqb field "username" then Some "aether_bot" else None))
    | select_call _ _ _ _ => Records []
    | create_call _ _ | update_call _ _ _ => Written
    | _ => Telegram true None
    end.

(** The same group when the identity of the bot cannot be fetched. *)
Definition unreachable_bot_world : World :=
  fun h c =>
    match c with
    | getMe_call => Rejected
    | _ => group_world h c
    end.

(** ** Commands *)

(** The text starts like one of the moderation commands. *)
Definition moderation_prefix (s : string) : bool :=
  Js.startsWith "/ban" s || Js.startsWith "/mute" s
  || Js.startsWith "/unmute" s || Js.startsWith "/del" s.

(** The cases of the last [switch] of [POST]. *)
Definition general_commands : list string :=
  ["/start"; "/verify"; "/events"; "/ask"; "/asklive"; "/suggest"].

Definition invalid_duration_text : string :=
  "Invalid duration. Use format like `1h`, `2d`.".

(** What an administrator's [/mute], sent as a reply, does once the target
    is known not to be an administrator. *)
Definition mute_target (env : Env) (msg : Message) (target : TelegramUser) : M unit :=
  duration <- parseMuteDuration_of (nth_error (args_of (default "" (text msg))) 0) ;;
  if Js.positive duration then
    muteUser env (chat_id (chat msg)) (user_id target) duration
      (Js.join_space (tl (args_of (default "" (text msg)))))
  else
    sendMessage env (chat_id (chat msg)) invalid_duration_text
      (Some (message_id msg)) None.

(** The membership query that the moderation block makes for a command that
    is no moderation command. *)
Definition first_resolution (msg : Message) : list Call :=
  if chat_id (chat msg) >? 0 then []
  else [getChatMember_call (chat_id (chat msg)) (user_id (from msg))].

(** The redirect of a private-only command, as [sendMessage] posts it. *)
Definition redirect_reply (msg : Message) (botUsername : option string) : Call :=
  sendMessage_call (chat_id (chat msg)) redirect_text
    (reply_to_field (Some (message_id msg))) (Some (redirect_button botUsername)).

(** ** Identity codes *)

(** An identity code, as the specification describes the pattern: the letters
    AETH in either case, an optional hyphen, four or more letters or
    digits. *)
Definition is_code (m : string) : Prop :=
  exists a e t h hyphen suffix,
    m = String a (String e (String t (String h (hyphen ++ suffix)))) /\
    eqb_i a "A" = true /\ eqb_i e "E" = true /\
    eqb_i t "T" = true /\ eqb_i h "H" = true /\
    (hyphen = "" \/ hyphen = "-") /\
    (4 <= String.length suffix)%nat /\
    all_chars Js.is_alnum_i suffix = true.

(** The text holds an identity code somewhere. *)
Definition contains_code (s : string) : Prop :=
  exists before m after, s = before ++ m ++ after /\ is_code m.

(** [text.toUpperCase() === TELEGRAM_ADMIN_ID.toUpperCase()] for a
    configured admin identifier. *)
Definition is_admin_phrase (env : Env) (body : string) : bool :=
  Js.truthy (TELEGRAM_ADMIN_ID (config env))
  && String.eqb (toUpperCase env body)
       (toUpperCase env (Js.show (TELEGRAM_ADMIN_ID (config env)))).

(** The members table can be reached. *)
Definition members_ready (env : Env) : bool :=
  has_base env && Js.truthy (AIRTABLE_MEMBERS_TABLE_ID (config env)).

(** The lookup of a member: the stored codes, upper-cased, are compared with
    the upper-cased code. *)
Definition lookup_member (env : Env) (aetherId : string) : Call :=
  select_call (table_id (AIRTABLE_MEMBERS_TABLE_ID (config env)))
    (Some ("UPPER({aetherId}) = " ++ dq ++ toUpperCase env aetherId ++ dq))
    None (Some 1%Z).

(** [returns m]: whatever the world answers, [m] raises no exception. *)
Definition returns {A} (m : M A) : Prop := forall w h, exists a, fst (m w h) = Ret a.

(** ** Notions of the further properties *)

(** A key and a value as the argument parser can store them. *)
Definition stored_pair (k v : string) : Prop :=
  k <> "" /\ all_chars Js.is_word k = true /\ k <> "__proto__" /\
  v <> "" /\ all_chars Js.not_quote v = true.

(** The fields that an update of an event may carry. *)
Definition updatable_field (name : string) (value : FieldValue) : Prop :=
  (name = "Published" /\ value = FBool false) \/
  ((name = "Title" \/ name = "Date" \/ name = "Description"
    \/ name = "Registration URL") /\
   exists s, value = FString s /\ s <> "").

(** No space occurs in the string. *)
Definition no_space (s : string) : bool :=
  all_chars (fun c => negb (Ascii.eqb c " ")) s.

(** The request failed. *)
Definition rejected (r : Reply) : bool :=
  match r with Rejected => true | _ => false end.

(** The confirmations that [muteUser] and [banUser] send. *)
Definition mute_confirmation (durationSeconds : Z) (reason : string) : string :=
  "User has been muted for "
  ++ (if durationSeconds >=? 86400
      then string_of_Z (durationSeconds / 86400) ++ " days"
      else string_of_Z (durationSeconds / 3600) ++ " hours")
  ++ ". " ++ reason_text reason.

Definition ban_confirmation (reason : string) : string :=
  "User has been banned. " ++ reason_text reason.

(** The second resolution of the role of the sender, by the check that
    guards the event commands. *)
Definition second_resolution (msg : Message) : list Call :=
  if chat_id (chat msg) <? 0
  then [getChatMember_call (chat_id (chat msg)) (user_id (from msg))]
  else [].

(** The four vocabularies of commands together. *)
Definition known_commands : list string :=
  (moderation_commands ++ private_only_commands ++ adminEventCommands
   ++ general_commands)%list.

(** The submissions table can be reached. *)
Definition questions_ready (env : Env) : bool :=
  has_base env && Js.truthy (AIRTABLE_QUESTIONS_TABLE_ID (config env)).

(** The record of a submission, as [logSubmission] writes it. *)
Definition submission_record (env : Env) (telegramUserId : Z)
    (submissionText type context : string) : Call :=
  create_call (table_id (AIRTABLE_QUESTIONS_TABLE_ID (config env)))
    [("fldzGkktA5C06rZzq", FString submissionText);
     ("fldnHAjQMoMSu7qtd", FString type);
     ("fld75Mt7o7JJj57Oi", FString (string_of_Z telegramUserId));
     ("fldR3R8fZ6ZrHWI9e", FString context)].

(** A message sent to the bot in private. *)
Definition private_message (sender : Z) (body : string) : Message :=
  {| message_id := 12; from := {| user_id := sender |};
     chat := {| chat_id := sender; chat_type := private |};
     text := Some body; reply_to_message := None |}.

(** The request to lift a ban. *)
Definition is_unban (c : Call) : bool :=
  match c with unbanChatMember_call _ _ => true | _ => false end.

(** [yields Q m]: whatever the world answers, [m] raises no exception and
    its result satisfies [Q]. *)
Definition yields {A} (Q : A -> Prop) (m : M A) : Prop :=
  forall w h, exists a, fst (m w h) = Ret a /\ Q a.

(** A block of [POST] that returns ok or falls through. *)
Definition ok_or_none (o : option HttpResponse) : Prop :=
  o = None \/ o = Some status_ok.

(** The request for an invite link. *)
Definition is_invite (c : Call) : bool :=
  match c with createChatInviteLink_call _ _ _ => true | _ => false end.


(** A call to Telegram that names another chat than [chatId]; the request
    for an invite link, which names the configured community group, is not
    counted. *)
Definition in_other_chat (chatId : Z) (c : Call) : bool :=
  match c with
  | sendMessage_call a _ _ _ | getChatMember_call a _ | banChatMember_call a _
  | unbanChatMember_call a _ | restrictChatMember_call a _ _ _
  | deleteMessage_call a _ => negb (a =? chatId)
  | _ => false
  end.

(** A write to Airtable other than an update that sets [Published] to false
    and nothing else. *)
Definition other_write (c : Call) : bool :=
  match c with
  | create_call _ _ => true
  | update_call _ _ [(name, FBool false)] => negb (String.eqb name "Published")
  | update_call _ _ _ => true
  | _ => false
  end.

(** The request that gives a member all permissions back, without a date. *)
Definition permissions_restored (chatId userId : Z) : Call :=
  restrictChatMember_call chatId userId all_allowed None.

(** An earlier message of the group, to which a command replies. *)
Definition earlier_message (sender : Z) (body : string) : Message :=
  {| message_id := 70; from := {| user_id := sender |}; chat := demo_group;
     text := Some body; reply_to_message := None |}.

(** * Properties *)

(** ** Strings and the matcher *)

Lemma append_nil_r (s : string) : s ++ "" = s.
Proof. induction s as [|c s IH]; simpl; [reflexivity | now rewrite IH]. Qed.

Lemma append_assoc (a b c : string) : (a ++ b) ++ c = a ++ (b ++ c).
Proof. induction a as [|x a IH]; simpl; [reflexivity | now rewrite IH]. Qed.

Lemma append_length (a b : string) :
  String.length (a ++ b) = (String.length a + String.length b)%nat.
Proof. induction a as [|x a IH]; simpl; [reflexivity | now rewrite IH]. Qed.

Lemma span_append p s : fst (Js.span p s) ++ snd (Js.span p s) = s.
Proof.
  induction s as [|c s IH]; simpl; [reflexivity|].
  destruct (p c); [|reflexivity].
  destruct (Js.span p s) as [a b]; simpl in *. now rewrite IH.
Qed.

Lemma span_all p s : all_chars p (fst (Js.span p s)) = true.
Proof.
  induction s as [|c s IH]; simpl; [reflexivity|].
  destruct (p c) eqn:E; [|reflexivity].
  destruct (Js.span p s) as [a b]; simpl in *. now rewrite E.
Qed.

(** What follows the longest prefix does not start with a character of the
    class. *)
Lemma span_stop p s c r : snd (Js.span p s) = String c r -> p c = false.
Proof.
  induction s as [|x s IH]; simpl; [discriminate|].
  destruct (p x) eqn:E.
  - destruct (Js.span p s) as [a b]; simpl in *. exact IH.
  - intros [= -> _]. exact E.
Qed.

Lemma span_of_append p a b :
  all_chars p a = true ->
  match b with String c _ => p c = false | EmptyString => True end ->
  Js.span p (a ++ b) = (a, b).
Proof.
  intros Ha Hb. induction a as [|x a IH]; simpl in *.
  - destruct b as [|c r]; simpl; [reflexivity | now rewrite Hb].
  - apply andb_prop in Ha as [Hx Ha]. rewrite Hx, (IH Ha). reflexivity.
Qed.

Section Greedy.

Context {R : Type} (p : ascii -> bool) (k : string -> string -> option R).

(** The continuation cannot succeed when a character of the class comes
    next: then giving characters back never helps, and the greedy repetition
    stops exactly at the end of the longest run. *)
Hypothesis k_stops : forall acc c r, p c = true -> k acc (String c r) = None.

Lemma star_greedy_span s : forall acc,
  Js.star_greedy p acc s k = k (acc ++ fst (Js.span p s)) (snd (Js.span p s)).
Proof.
  induction s as [|c s IH]; intros acc; simpl.
  - now rewrite append_nil_r.
  - destruct (p c) eqn:E.
    + rewrite IH. destruct (Js.span p s) as [a b]; simpl.
      rewrite append_assoc; simpl.
      destruct (k (acc ++ String c a) b); [reflexivity|].
      now apply k_stops.
    + simpl. now rewrite append_nil_r.
Qed.

Lemma plus_greedy_span s :
  Js.plus_greedy p s k =
  match fst (Js.span p s) with
  | EmptyString => None
  | run => k run (snd (Js.span p s))
  end.
Proof.
  destruct s as [|c s]; simpl; [reflexivity|].
  destruct (p c) eqn:E; [|reflexivity].
  rewrite star_greedy_span. now destruct (Js.span p s).
Qed.

End Greedy.

Lemma search_none {R} (m : string -> option R) s :
  m s = None ->
  Js.search m s = match s with String _ s' => Js.search m s' | EmptyString => None end.
Proof. intros H. destruct s; simpl; now rewrite H. Qed.

Lemma search_some {R} (m : string -> option R) s r :
  m s = Some r -> Js.search m s = Some r.
Proof. intros H. destruct s; simpl; now rewrite H. Qed.

(** ** Numbers

    Below 2^53 the arithmetic on doubles is the arithmetic on integers. *)

Lemma parseInt_acc_nonneg s : forall acc, 0 <= acc -> 0 <= Js.parseInt_acc acc s.
Proof.
  induction s as [|c s IH]; intros acc Hacc; cbn [Js.parseInt_acc]; [exact Hacc|].
  apply IH. unfold Js.digit_val. lia.
Qed.

Lemma decimal_nonneg digits : 0 <= Js.decimal digits.
Proof. apply parseInt_acc_nonneg. lia. Qed.

Lemma pow53_lt_pow1024 : 2 ^ 53 < 2 ^ 1024.
Proof. apply Z.pow_lt_mono_r; lia. Qed.

Lemma nearest_one n : Js.nearest n 1 = n.
Proof.
  unfold Js.nearest. rewrite Z.div_1_r, Z.mod_1_r. reflexivity.
Qed.

Lemma of_Z_small n : n < 2 ^ 53 -> Js.of_Z n = Js.Finite n.
Proof.
  intros Hn. unfold Js.of_Z.
  assert (Hlog : Z.log2 n <= 52).
  { destruct (Z.le_gt_cases n 0) as [H0|H0].
    - rewrite Z.log2_nonpos by exact H0. lia.
    - apply Z.lt_succ_r. apply Z.log2_lt_pow2; [exact H0|exact Hn]. }
  rewrite Z.max_l by lia. change (2 ^ 0) with 1.
  rewrite nearest_one, Z.mul_1_r.
  pose proof pow53_lt_pow1024 as Hbig.
  destruct (Z.leb_spec (2 ^ 1024) n); [lia|reflexivity].
Qed.

Lemma magnitude_below num den :
  0 < num -> 0 < den -> Js.pow2_le (Js.magnitude num den) num den = true.
Proof.
  intros Hn Hd. unfold Js.magnitude.
  destruct (Js.pow2_le (Z.log2 num - Z.log2 den) num den) eqn:E; [exact E|].
  destruct (Z.log2_spec num Hn) as [Ha _].
  destruct (Z.log2_spec den Hd) as [_ Hc].
  pose proof (Z.log2_nonneg num) as Ha0. pose proof (Z.log2_nonneg den) as Hc0.
  set (a := Z.log2 num) in *. set (c := Z.log2 den) in *.
  unfold Js.pow2_le.
  destruct (Z.leb_spec 0 (a - c - 1)) as [Hk|Hk].
  - apply Z.leb_le.
    assert (Hsplit : 2 ^ a = 2 ^ (c + 1) * 2 ^ (a - c - 1)).
    { rewrite <- Z.pow_add_r by lia. f_equal. lia. }
    assert (0 < 2 ^ (a - c - 1)) by (apply Z.pow_pos_nonneg; lia).
    nia.
  - apply Z.leb_le.
    assert (Hsplit : 2 ^ (Z.succ c) = 2 ^ a * 2 ^ (- (a - c - 1))).
    { rewrite <- Z.pow_add_r by lia. f_equal. lia. }
    assert (0 < 2 ^ (- (a - c - 1))) by (apply Z.pow_pos_nonneg; lia).
    nia.
Qed.

Lemma nearest_floor x b P t :
  0 < b -> 0 < P -> b < 2 * P -> 0 <= x -> t = x / b ->
  t * P <= Js.nearest (x * P) b < (t + 1) * P.
Proof.
  intros Hb HP HbP Hx Ht.
  pose proof (Z.div_mod x b ltac:(lia)) as Hx'.
  pose proof (Z.mod_pos_bound x b Hb) as Hr0.
  pose proof (Z.div_mod (x * P) b ltac:(lia)) as Hq.
  pose proof (Z.mod_pos_bound (x * P) b Hb) as Hr.
  rewrite <- Ht in Hx'.
  set (r0 := x mod b) in *. set (q := x * P / b) in *. set (r := (x * P) mod b) in *.
  assert (Hlow : t * P <= q) by nia.
  assert (Hup : q < (t + 1) * P) by nia.
  unfold Js.nearest. fold q r.
  assert (Hround : 2 * r >= b -> q + 1 < (t + 1) * P).
  { intros H2r. 
    assert (Hs : P <= (b - r0) * P) by nia.
    nia. }
  destruct (Z.ltb_spec (2 * r) b); [lia|].
  destruct (Z.ltb_spec b (2 * r)); [lia|].
  destruct (Z.even q); lia.
Qed.

Lemma floor_div_small x b :
  0 <= x < 2 ^ 53 -> 0 < b -> Js.floor_div (Js.Finite x) b = Js.Finite (x / b).
Proof.
  intros [Hx0 Hx] Hb. unfold Js.floor_div.
  destruct (Z.eqb_spec x 0) as [->|Hne]; [now rewrite Z.div_0_l by lia|].
  unfold Js.round_ratio.
  pose proof (magnitude_below x b ltac:(lia) Hb) as Hk.
  set (k := Js.magnitude x b) in *.
  unfold Js.pow2_le in Hk.
  assert (Hk52 : k <= 52).
  { destruct (Z.le_gt_cases k 52) as [H|H]; [exact H|exfalso].
    destruct (Z.leb_spec 0 k); [|lia]. apply Z.leb_le in Hk.
    assert (2 ^ 53 <= 2 ^ k) by (apply Z.pow_le_mono_r; lia). nia. }
  f_equal.
  destruct (Z.leb_spec 0 (k - 52)) as [He|He].
  - assert (k = 52) by lia. subst k. rewrite H in *. 
    change (52 - 52) with 0. change (2 ^ 0) with 1. rewrite Z.mul_1_r, Z.shiftl_0_r.
    cbn [Z.leb] in Hk. apply Z.leb_le in Hk.
    assert (b = 1) by (change (2 ^ 53) with (2 * 2 ^ 52) in Hx; nia). subst b.
    now rewrite nearest_one, Z.div_1_r.
  - set (P := 2 ^ (- (k - 52))).
    assert (HP : 0 < P) by (apply Z.pow_pos_nonneg; lia).
    assert (H2P : 2 * P = 2 ^ (53 - k)).
    { unfold P. replace (53 - k) with (1 + - (k - 52)) by lia.
      rewrite Z.pow_add_r by lia. reflexivity. }
    assert (HbP : b < 2 * P).
    { rewrite H2P.
      destruct (Z.leb_spec 0 k) as [Hk0|Hk0]; apply Z.leb_le in Hk.
      - assert (2 ^ 53 = 2 ^ k * 2 ^ (53 - k)).
        { rewrite <- Z.pow_add_r by lia. f_equal. lia. }
        assert (0 < 2 ^ k) by (apply Z.pow_pos_nonneg; lia). nia.
      - assert (2 ^ (53 - k) = 2 ^ 53 * 2 ^ (- k)).
        { rewrite <- Z.pow_add_r by lia. f_equal. }
        assert (0 < 2 ^ (- k)) by (apply Z.pow_pos_nonneg; lia). nia. }
    pose proof (nearest_floor x b P (x / b) Hb HP HbP Hx0 eq_refl) as [Hlo Hhi].
    set (m := Js.nearest (x * P) b) in *.
    replace (k - 52) with (- (- (k - 52))) by lia.
    rewrite Z.shiftl_opp_r, Z.shiftr_div_pow2 by lia. fold P.
    symmetry. apply (Z.div_unique_pos m P (x / b) (m - x / b * P)); nia.
Qed.

Lemma nearest_lower n P : 0 < P -> n / P <= Js.nearest n P.
Proof.
  intros HP. unfold Js.nearest.
  destruct (_ <? _); [lia|]. destruct (_ <? _); [lia|]. destruct (Z.even _); lia.
Qed.

Lemma of_Z_large n y : 2 ^ 53 <= n -> Js.of_Z n = Js.Finite y -> 2 ^ 53 <= y.
Proof.
  intros Hn. unfold Js.of_Z.
  assert (H0 : 0 < n) by (pose proof (Z.pow_pos_nonneg 2 53); lia).
  assert (Hlog : 53 <= Z.log2 n) by (apply Z.log2_le_pow2; lia).
  destruct (Z.log2_spec n H0) as [Hlo _].
  rewrite Z.max_r by lia.
  set (e := Z.log2 n - 52) in *.
  assert (HP : 0 < 2 ^ e) by (apply Z.pow_pos_nonneg; lia).
  assert (Hsplit : 2 ^ Z.log2 n = 2 ^ 52 * 2 ^ e).
  { rewrite <- Z.pow_add_r by lia. f_equal. lia. }
  pose proof (nearest_lower n (2 ^ e) HP) as Hnear.
  assert (H52 : 2 ^ 52 <= n / 2 ^ e).
  { apply Z.div_le_lower_bound; lia. }
  assert (He2 : 2 <= 2 ^ e).
  { change 2 with (2 ^ 1) at 1. apply Z.pow_le_mono_r; lia. }
  destruct (_ <=? _); [discriminate|]. intros [= <-].
  change (2 ^ 53) with (2 ^ 52 * 2). nia.
Qed.

Lemma reads_as_small x v : x < 2 ^ 53 -> Js.reads_as x v = true -> v = x.
Proof.
  intros Hx. unfold Js.reads_as.
  destruct (Z.lt_ge_cases v (2 ^ 53)) as [Hv|Hv].
  - rewrite of_Z_small by exact Hv. intros H. now apply Z.eqb_eq in H.
  - destruct (Js.of_Z v) as [y|] eqn:E; [|discriminate].
    apply of_Z_large in E; [|exact Hv]. intros H. apply Z.eqb_eq in H. lia.
Qed.

Lemma shortest_at_small x k v : x < 2 ^ 53 -> Js.shortest_at x k = Some v -> v = x.
Proof.
  intros Hx. unfold Js.shortest_at.
  set (p := 10 ^ _). set (lo := x / p * p).
  destruct (Js.reads_as x lo) eqn:Elo, (Js.reads_as x (lo + p)) eqn:Ehi;
    intros [= <-].
  - apply reads_as_small in Elo, Ehi; try exact Hx.
    destruct (_ <? _); [exact Elo|]. destruct (_ <? _); [exact Ehi|].
    destruct (Z.even _); assumption.
  - now apply reads_as_small in Elo.
  - now apply reads_as_small in Ehi.
Qed.

Lemma shortest_small x : x < 2 ^ 53 -> Js.shortest x = x.
Proof.
  intros Hx. unfold Js.shortest. generalize 1. generalize 17%nat.
  induction n as [|n IH]; intros k; cbn [Js.shortest_from]; [reflexivity|].
  destruct (Js.shortest_at x k) as [v|] eqn:E; [|apply IH].
  now apply shortest_at_small in E.
Qed.

Lemma to_string_small x : x < 2 ^ 53 -> Js.to_string (Js.Finite x) = string_of_Z x.
Proof.
  intros Hx. unfold Js.to_string. rewrite shortest_small by exact Hx.
  assert (2 ^ 53 < 10 ^ 21) by reflexivity.
  destruct (Z.ltb_spec x (10 ^ 21)); [reflexivity|lia].
Qed.

Lemma mul_small x b :
  x * b < 2 ^ 53 -> Js.mul (Js.Finite x) b = Js.Finite (x * b).
Proof. intros H. cbn [Js.mul]. now apply of_Z_small. Qed.

Lemma add_small a x :
  a + x < 2 ^ 53 -> Js.add a (Js.Finite x) = Js.Finite (a + x).
Proof. intros H. cbn [Js.add]. now apply of_Z_small. Qed.

(** The product of a decimal number and a unit that stays below 2^53 is
    exact. *)
Lemma parseInt_mul_small digits mult :
  0 < mult -> Js.decimal digits * mult < 2 ^ 53 ->
  Js.mul (Js.parseInt digits) mult = Js.Finite (Js.decimal digits * mult).
Proof.
  intros Hm Hsmall. pose proof (decimal_nonneg digits) as H0.
  unfold Js.parseInt. rewrite of_Z_small by nia. now apply mul_small.
Qed.

(** ** Duration parser *)

Lemma unit_not_digit u mult : unit_seconds u = Some mult -> Js.is_digit u = false.
Proof.
  unfold unit_seconds. intros H.
  destruct (Ascii.eqb_spec u "h") as [->|_]; [reflexivity|].
  destruct (Ascii.eqb_spec u "d") as [->|_]; [reflexivity|].
  destruct (Ascii.eqb_spec u "m") as [->|_]; [reflexivity|discriminate].
Qed.

Lemma duration_tail_stops acc c r :
  Js.is_digit c = true -> duration_tail acc (String c r) = None.
Proof.
  intros Hc. unfold duration_tail. destruct r; [|reflexivity].
  destruct (Ascii.eqb_spec c "h") as [->|_]; [discriminate|].
  destruct (Ascii.eqb_spec c "d") as [->|_]; [discriminate|].
  destruct (Ascii.eqb_spec c "m") as [->|_]; [discriminate|reflexivity].
Qed.

Lemma match_duration_span s :
  match_duration s =
  match fst (Js.span Js.is_digit s) with
  | EmptyString => None
  | run => duration_tail run (snd (Js.span Js.is_digit s))
  end.
Proof. apply (plus_greedy_span Js.is_digit duration_tail duration_tail_stops). Qed.

Lemma match_duration_shape s digits u :
  match_duration s = Some (digits, u) ->
  s = digits ++ String u "" /\ digits <> "" /\
  all_chars Js.is_digit digits = true /\ exists mult, unit_seconds u = Some mult.
Proof.
  rewrite match_duration_span.
  pose proof (span_append Js.is_digit s) as Happ.
  pose proof (span_all Js.is_digit s) as Hall.
  destruct (Js.span Js.is_digit s) as [run rest]; simpl in *.
  destruct run as [|c run]; [discriminate|].
  unfold duration_tail. destruct rest as [|v [|? ?]]; try discriminate.
  unfold unit_seconds.
  destruct (Ascii.eqb v "h") eqn:Eh; simpl.
  { intros [= <- <-]. rewrite Eh. repeat split; eauto; discriminate. }
  destruct (Ascii.eqb v "d") eqn:Ed; simpl.
  { intros [= <- <-]. rewrite Eh, Ed. repeat split; eauto; discriminate. }
  destruct (Ascii.eqb v "m") eqn:Em; simpl; [|discriminate].
  intros [= <- <-]. rewrite Eh, Ed, Em. repeat split; eauto; discriminate.
Qed.

Lemma unit_seconds_positive u mult : unit_seconds u = Some mult -> 0 < mult.
Proof.
  unfold unit_seconds.
  destruct (Ascii.eqb u "h"); [intros [= <-]; lia|].
  destruct (Ascii.eqb u "d"); [intros [= <-]; lia|].
  destruct (Ascii.eqb u "m"); [intros [= <-]; lia|discriminate].
Qed.

Lemma parseMuteDuration_digits digits u mult :
  digits <> "" -> all_chars Js.is_digit digits = true ->
  unit_seconds u = Some mult ->
  parseMuteDuration (digits ++ String u "") = Js.mul (Js.parseInt digits) mult.
Proof.
  intros Hne Hall Hu. unfold parseMuteDuration.
  rewrite match_duration_span, span_of_append;
    [| assumption | now apply unit_not_digit with mult].
  simpl. destruct digits as [|c ds]; [congruence|].
  unfold duration_tail. revert Hu. unfold unit_seconds.
  destruct (Ascii.eqb u "h") eqn:Eh;
    [intros [= <-]; cbn [orb]; now rewrite Eh|].
  destruct (Ascii.eqb u "d") eqn:Ed;
    [intros [= <-]; cbn [orb]; now rewrite Eh, Ed|].
  destruct (Ascii.eqb u "m") eqn:Em;
    [intros [= <-]; cbn [orb]; now rewrite Eh, Ed, Em|discriminate].
Qed.

Lemma parseMuteDuration_other s :
  (forall digits u mult,
      digits <> "" -> all_chars Js.is_digit digits = true ->
      unit_seconds u = Some mult -> s <> digits ++ String u "") ->
  parseMuteDuration s = 0.
Proof.
  intros Hshape. unfold parseMuteDuration.
  destruct (match_duration s) as [[digits u]|] eqn:E; [|reflexivity].
  apply match_duration_shape in E as (Hs & Hne & Hall & mult & Hu).
  now destruct (Hshape digits u mult).
Qed.

(** The source multiplies doubles: from 2^53 on the result is not the
    product of the value of the digits and the unit.  The digits
    9007199254740993 are read as 2^53, and the minutes give
    540431955284459520 seconds, where the product is 540431955284459580. *)
Lemma parseMuteDuration_rounds_beyond_2_53 :
  parseMuteDuration "9007199254740993m" = Js.Finite 540431955284459520 /\
  Js.decimal "9007199254740993" * 60 = 540431955284459580 /\
  parseMuteDuration "9007199254740993m"
  <> Js.Finite (Js.decimal "9007199254740993" * 60).
Proof.
  split; [vm_compute; reflexivity|].
  split; [vm_compute; reflexivity|].
  vm_compute. discriminate.
Qed.

(** C6. [parseMuteDuration] maps one or more digits followed by exactly one
    unit character to the value of the digits times 3600 for [h], 86400 for
    [d] and 60 for [m], in the arithmetic of doubles: the result is that
    product whenever the product is below 2^53, and in general the double
    nearest to the value of the digits, multiplied by the unit and rounded
    to a double again.  Every text of another shape is mapped to 0, and the
    table of the specification holds. *)
Theorem parseMuteDuration_contract :
  (forall digits u mult,
      digits <> "" -> all_chars Js.is_digit digits = true ->
      unit_seconds u = Some mult ->
      parseMuteDuration (digits ++ String u "") = Js.mul (Js.parseInt digits) mult /\
      (Js.decimal digits * mult < 2 ^ 53 ->
       parseMuteDuration (digits ++ String u "")
       = Js.Finite (Js.decimal digits * mult))) /\
  (forall s,
      (forall digits u mult,
          digits <> "" -> all_chars Js.is_digit digits = true ->
          unit_seconds u = Some mult -> s <> digits ++ String u "") ->
      parseMuteDuration s = 0) /\
  parseMuteDuration "1h" = 3600 /\
  parseMuteDuration "7d" = 604800 /\
  parseMuteDuration "30m" = 1800 /\
  parseMuteDuration "abc" = 0 /\
  parseMuteDuration "" = 0 /\
  parseMuteDuration "5x" = 0.
Proof.
  split.
  { intros digits u mult Hne Hall Hu.
    rewrite (parseMuteDuration_digits digits u mult Hne Hall Hu).
    split; [reflexivity|]. intros Hsmall.
    apply parseInt_mul_small; [now apply unit_seconds_positive with u|exact Hsmall]. }
  split; [exact parseMuteDuration_other|].
  repeat split; reflexivity.
Qed.

Lemma parseMuteDuration_contract_witness :
  parseMuteDuration ("45" ++ String "m" "") = Js.Finite 2700 /\
  parseMuteDuration "h" = 0.
Proof.
  split.
  - apply (proj2 (proj1 parseMuteDuration_contract "45" "m"%char 60
                    ltac:(discriminate) eq_refl eq_refl)).
    reflexivity.
  - apply (proj1 (proj2 parseMuteDuration_contract) "h").
    intros digits u mult Hne _ _ Heq.
    destruct digits as [|a [|b ?]]; [congruence | discriminate Heq | discriminate Heq].
Defined.

(** ** Argument parser *)

Lemma value_tail_stops key acc c r :
  Js.not_quote c = true -> value_tail key acc (String c r) = None.
Proof.
  unfold value_tail, after_quote, Js.not_quote. intros H.
  destruct (Ascii.eqb_spec c "034") as [->|_]; [discriminate H|reflexivity].
Qed.

Lemma key_tail_stops acc c r :
  Js.is_word c = true -> key_tail acc (String c r) = None.
Proof.
  unfold key_tail, after_equals_quote. intros H. destruct r as [|b r]; [reflexivity|].
  destruct (Ascii.eqb_spec c "=") as [->|_]; [discriminate H|reflexivity].
Qed.

(** Backtracking never finds a match that the longest runs miss: the
    matcher of the source and the scanner of the specification agree on one
    attempt. *)
Lemma match_arg_at_token s : match_arg_at s = token_at s.
Proof.
  change (match_arg_at s) with (Js.plus_greedy Js.is_word s key_tail).
  unfold token_at.
  rewrite (plus_greedy_span Js.is_word key_tail key_tail_stops).
  destruct (Js.span Js.is_word s) as [key r1]; simpl.
  destruct key as [|c key]; [reflexivity|].
  unfold key_tail. destruct (after_equals_quote r1) as [r2|]; [|reflexivity].
  rewrite (plus_greedy_span Js.not_quote (value_tail _) (value_tail_stops _)).
  destruct (Js.span Js.not_quote r2) as [value r3]; simpl.
  destruct value as [|d value]; [reflexivity|].
  unfold value_tail. now destruct (after_quote r3).
Qed.

(** A token is a non-empty key of word characters, a non-empty value
    without quotes, and it consumes at least one character. *)
Lemma token_at_shape s key value rest :
  token_at s = Some (key, value, rest) ->
  s = key ++ "=" ++ dq ++ value ++ dq ++ rest /\
  key <> "" /\ value <> "" /\
  all_chars Js.is_word key = true /\ all_chars Js.not_quote value = true.
Proof.
  unfold token_at.
  pose proof (span_append Js.is_word s) as Hs.
  pose proof (span_all Js.is_word s) as Hk.
  destruct (Js.span Js.is_word s) as [k r1]; simpl in *.
  destruct k as [|c k]; [discriminate|].
  unfold after_equals_quote. destruct r1 as [|a [|b r2]]; try discriminate.
  destruct (Ascii.eqb_spec a "=") as [->|]; [|discriminate].
  destruct (Ascii.eqb_spec b "034") as [->|]; [|discriminate]. simpl.
  pose proof (span_append Js.not_quote r2) as Hr.
  pose proof (span_all Js.not_quote r2) as Hv.
  destruct (Js.span Js.not_quote r2) as [v r3]; simpl in *.
  destruct v as [|d v]; [discriminate|].
  unfold after_quote. destruct r3 as [|e r4]; [discriminate|].
  destruct (Ascii.eqb_spec e "034") as [->|]; [|discriminate].
  intros [= <- <- <-]. repeat split; try assumption; try discriminate.
  rewrite <- Hs, <- Hr. reflexivity.
Qed.

Lemma token_at_shorter s key value rest :
  token_at s = Some (key, value, rest) ->
  (String.length rest < String.length s)%nat.
Proof.
  intros H. apply token_at_shape in H as (-> & _).
  rewrite !append_length. simpl. lia.
Qed.

(** The loop of the source ends, and it performs the assignments of the
    tokens of the scan, in their order. *)
Lemma parse_loop_scan n : forall s f1 f2 args,
  (String.length s < n)%nat ->
  (String.length s < f1)%nat -> (String.length s < f2)%nat ->
  parse_loop f1 s args = Some (assign_all (scan_tokens f2 s) args).
Proof.
  induction n as [|n IH]; intros s f1 f2 args Hn H1 H2; [lia|].
  destruct f1 as [|f1]; [lia|]. destruct f2 as [|f2]; [lia|].
  cbn [parse_loop scan_tokens]. unfold exec_arg.
  destruct (token_at s) as [[[key value] rest]|] eqn:E.
  - rewrite (search_some _ _ _ (eq_trans (match_arg_at_token s) E)).
    apply token_at_shorter in E. cbn [assign_all fold_left fst snd].
    apply IH; lia.
  - rewrite (search_none _ _ (eq_trans (match_arg_at_token s) E)).
    destruct s as [|c s]; [reflexivity|]. simpl in Hn, H1, H2.
    specialize (IH s (S f1) f2 args ltac:(lia) ltac:(lia) ltac:(lia)).
    cbn [parse_loop] in IH. exact IH.
Qed.

Lemma parseCommandArgs_tokens text :
  parseCommandArgs text = assign_all (tokens text) ∅.
Proof.
  unfold parseCommandArgs, tokens.
  now rewrite (parse_loop_scan (S (String.length text)) text _
                 (S (String.length text)) ∅) by lia.
Qed.

Lemma assign_all_insert toks : forall args,
  Forall (fun kv => kv.1 <> "__proto__") toks ->
  assign_all toks args = fold_left (fun m kv => <[kv.1 := kv.2]> m) toks args.
Proof.
  induction toks as [|[k v] toks IH]; intros args H; [reflexivity|].
  inversion H as [|? ? Hk Htl]; subst. simpl in Hk.
  cbn [assign_all fold_left fst snd]. unfold obj_set at 2.
  destruct (String.eqb_spec k "__proto__"); [contradiction|].
  apply IH, Htl.
Qed.

(** On every text with no token whose key is [__proto__], the source
    computes the mapping of the specification. *)
Lemma parseCommandArgs_refines text :
  Forall (fun kv => kv.1 <> "__proto__") (tokens text) ->
  parseCommandArgs text = parseArgs_spec text.
Proof.
  intros H. rewrite parseCommandArgs_tokens. now apply assign_all_insert.
Qed.

Example parseCommandArgs_two_fields :
  parseCommandArgs ("title=" ++ dq ++ "A" ++ dq ++ " date=" ++ dq ++ "2025-01-01" ++ dq)
  = <["date" := "2025-01-01"]> (<["title" := "A"]> ∅).
Proof. rewrite parseCommandArgs_tokens. reflexivity. Qed.

Example parseCommandArgs_repeated_key :
  parseCommandArgs ("a=" ++ dq ++ "1" ++ dq ++ " a=" ++ dq ++ "2" ++ dq)
  = <["a" := "2"]> ∅.
Proof.
  rewrite parseCommandArgs_tokens. cbn. unfold obj_set; cbn.
  apply insert_insert_eq.
Qed.

Example parseCommandArgs_unquoted : parseCommandArgs "title=A" !! "title" = None.
Proof. rewrite parseCommandArgs_tokens. reflexivity. Qed.

(** C7. The text made of the key [__proto__], the equals sign and the quoted
    value [x] holds one token, which the scan of the specification maps to
    its value; the source returns the empty mapping, because the assignment
    to that key of a plain object creates no property. *)
Theorem parseCommandArgs_drops_proto_key :
  tokens ("__proto__=" ++ dq ++ "x" ++ dq) = [("__proto__", "x")] /\
  parseArgs_spec ("__proto__=" ++ dq ++ "x" ++ dq) !! "__proto__" = Some "x" /\
  parseCommandArgs ("__proto__=" ++ dq ++ "x" ++ dq) = ∅.
Proof.
  split; [reflexivity|]. split.
  - unfold parseArgs_spec.
    change (tokens ("__proto__=" ++ dq ++ "x" ++ dq)) with [("__proto__", "x")].
    apply lookup_insert_eq.
  - rewrite parseCommandArgs_tokens. reflexivity.
Qed.

(** ** Privilege resolver *)

Lemma unprivileged_not_admin r : unprivileged_reply r -> member_is_admin r = false.
Proof.
  intros [-> | [[result ->] | (ok & result & -> & Hc & Ha)]]; try reflexivity.
  destruct ok; [|reflexivity]. simpl.
  destruct (result "status") as [status|]; [|reflexivity].
  unfold Js.includes; simpl.
  destruct (String.eqb_spec status "creator") as [->|_]; [congruence|].
  destruct (String.eqb_spec status "administrator") as [->|_]; [congruence|].
  reflexivity.
Qed.

Lemma isUserAdmin_run chatId userId w h :
  isUserAdmin chatId userId w h =
  if chatId >? 0 then (Ret false, h)
  else (Ret (member_is_admin (w h (getChatMember_call chatId userId))),
        (h ++ [getChatMember_call chatId userId])%list).
Proof. unfold isUserAdmin. now destruct (chatId >? 0). Qed.

(** C9. A membership query that fails, is answered not ok, or reports a
    status other than creator and administrator resolves to no privilege;
    so does a positive chat identifier, without any query. *)
Theorem isUserAdmin_fail_closed chatId userId w h :
  unprivileged_reply (w h (getChatMember_call chatId userId)) ->
  fst (isUserAdmin chatId userId w h) = Ret false.
Proof.
  intros H. rewrite isUserAdmin_run.
  destruct (chatId >? 0); [reflexivity|]. simpl.
  now rewrite (unprivileged_not_admin _ H).
Qed.

Lemma isUserAdmin_fail_closed_witness :
  fst (isUserAdmin (-100) 9 (fun _ _ => Rejected) []) = Ret false.
Proof.
  apply (isUserAdmin_fail_closed (-100) 9 (fun _ _ => Rejected) []).
  left; reflexivity.
Defined.

(** ** Event management *)

Lemma not_ready_guard env :
  negb (has_base env) || negb (Js.truthy (AIRTABLE_EVENTS_TABLE_ID (config env)))
  = negb (events_ready env).
Proof. unfold events_ready. now destruct (has_base env), (Js.truthy _). Qed.

Lemma truthy_some s : s <> "" -> Js.truthy (Some s) = true.
Proof. intros H. simpl. now destruct (String.eqb_spec s ""). Qed.

(** C8, as stated, fails: the message of a failure does not tell which field
    is missing.  Without the title and without the code the message is the
    same one, which names all three fields. *)
Lemma createEvent_message_not_field_specific :
  createEvent demo_env demo_args_without_title quiet_world []
  = (Ret {| success := false; message := missing_fields_message |}, []) /\
  createEvent demo_env demo_args_without_code quiet_world []
  = (Ret {| success := false; message := missing_fields_message |}, []) /\
  demo_args_without_title !! "code" = Some "wad25" /\
  demo_args_without_code !! "title" = Some "World Architecture Day".
Proof. repeat split; reflexivity. Qed.

(** C8. With any of title, date and code missing (or empty), [createEvent]
    fails without calling a collaborator, and its message does not depend on
    the field that is missing: it is the one that names the three required
    fields when the events table is configured, and the one about the
    configuration otherwise.  With the table configured and the three fields
    present and not empty, it issues exactly one create call, whose record
    holds the upper-cased code and [Published = true], and it succeeds
    unless that call fails. *)
Theorem createEvent_contract env args w h :
  (Js.truthy (args !! "title") = false \/ Js.truthy (args !! "date") = false \/
   Js.truthy (args !! "code") = false ->
   createEvent env args w h
   = (Ret {| success := false; message := createEvent_failure env |}, h)) /\
  (forall title date code,
      events_ready env = true ->
      args !! "title" = Some title -> args !! "date" = Some date ->
      args !! "code" = Some code ->
      title <> "" -> date <> "" -> code <> "" ->
      let c := create_call (events_table env) (created_fields env args) in
      exists r, createEvent env args w h = (Ret r, (h ++ [c])%list) /\
                In ("EventCode", FString (toUpperCase env code)) (created_fields env args) /\
                In ("Published", FBool true) (created_fields env args) /\
                success r = negb (match w h c with Rejected => true | _ => false end)).
Proof.
  split.
  - intros Hmiss. unfold createEvent, createEvent_failure. rewrite not_ready_guard.
    destruct (events_ready env); simpl; [|reflexivity].
    assert (negb (Js.truthy (args !! "title")) || negb (Js.truthy (args !! "date"))
            || negb (Js.truthy (args !! "code")) = true) as ->.
    { destruct Hmiss as [-> | [-> | ->]]; cbn [negb];
        now rewrite ?orb_true_r, ?orb_true_l. }
    reflexivity.
  - intros title date code Hready Ht Hd Hc Hte Hde Hce c.
    assert (Js.truthy (args !! "title") = true) as Tt
      by (rewrite Ht; now apply truthy_some).
    assert (Js.truthy (args !! "date") = true) as Td
      by (rewrite Hd; now apply truthy_some).
    assert (Js.truthy (args !! "code") = true) as Tc
      by (rewrite Hc; now apply truthy_some).
    unfold createEvent. rewrite not_ready_guard, Hready. cbn [negb].
    rewrite Tt, Td, Tc. cbn [negb orb].
    unfold bind, call. fold (events_table env). fold (created_fields env args). fold c.
    assert (In ("EventCode", FString (toUpperCase env code)) (created_fields env args))
      by (unfold created_fields; rewrite Hc; simpl; tauto).
    assert (In ("Published", FBool true) (created_fields env args))
      by (unfold created_fields; simpl; tauto).
    destruct (w h c); eexists; repeat split; try reflexivity; assumption.
Qed.

Lemma createEvent_contract_witness :
  createEvent demo_env (<["title" := "A"]> ∅) quiet_world []
  = (Ret {| success := false; message := missing_fields_message |}, []) /\
  (exists r, createEvent demo_env demo_event_args quiet_world []
             = (Ret r, [create_call "events" (created_fields demo_env demo_event_args)]) /\
             In ("EventCode", FString "WAD25") (created_fields demo_env demo_event_args) /\
             In ("Published", FBool true) (created_fields demo_env demo_event_args) /\
             success r = true).
Proof.
  split.
  - apply (proj1 (createEvent_contract demo_env (<["title" := "A"]> ∅) quiet_world [])).
    right; left; reflexivity.
  - apply (proj2 (createEvent_contract demo_env demo_event_args quiet_world [])
             "World Architecture Day" "2025-10-06" "wad25");
      solve [reflexivity | discriminate].
Defined.

Lemma size_zero_empty (args : gmap string string) :
  (size args =? 0)%nat = true <-> args = ∅.
Proof. rewrite Nat.eqb_eq. apply map_size_empty_iff. Qed.

Lemma updateEvent_run env eventCode args w h :
  updateEvent env eventCode args w h =
  if negb (events_ready env)
  then (Ret {| success := false; message := "Airtable for events not configured." |}, h)
  else if (size args =? 0)%nat
  then (Ret {| success := false; message := "No fields provided to update." |}, h)
  else
    let sel := lookup_event env eventCode in
    let h1 := (h ++ [sel])%list in
    match w h sel with
    | Records [] =>
        (Ret {| success := false;
                message := "Event with code `" ++ toUpperCase env eventCode
                             ++ "` not found." |}, h1)
    | Records (record :: _) =>
        let upd := update_call (events_table env) (record_id record)
                     (fieldsToUpdate args) in
        (Ret (match w h1 upd with
              | Rejected => {| success := false; message := "Failed to update event." |}
              | _ => {| success := true;
                        message := "✅ Event `" ++ toUpperCase env eventCode
                                     ++ "` updated successfully." |}
              end), (h1 ++ [upd])%list)
    | _ => (Ret {| success := false; message := "Failed to update event." |}, h1)
    end.
Proof.
  unfold updateEvent. rewrite not_ready_guard.
  destruct (events_ready env); [|reflexivity]. cbn [negb].
  destruct (size args =? 0)%nat; [reflexivity|].
  unfold bind, call, ret, lookup_event, events_table.
  destruct (w h _) as [| | [|record records] |]; try reflexivity.
  now destruct (w _ _).
Qed.

(** C3, as stated, fails: with the single unrecognized field [location], no
    recognized field is matched, and yet [updateEvent] on an existing event
    issues an update call, with no field, and reports success. *)
Lemma updateEvent_unrecognized_field_succeeds :
  let args : gmap string string := {[ "location" := "Lagos" ]} in
  fieldsToUpdate args = [] /\
  exists msg,
    updateEvent demo_env "wad25" args one_event_world []
    = (Ret {| success := true; message := msg |},
       [lookup_event demo_env "wad25"; update_call "events" "rec1" []]).
Proof. split; [reflexivity|]. eexists. reflexivity. Qed.

(** C3, amended. [updateEvent] fails without an update call whenever the
    lookup (by upper-cased code) finds no event or the argument mapping has
    no key at all, recognized or not.  It succeeds only if the events table
    is configured, the mapping is not empty and the lookup found a record,
    and then the update call carries the recognized fields, which may be
    none; with a record found and a non-empty mapping it succeeds unless the
    update call fails. *)
Theorem updateEvent_contract env eventCode args w h :
  let sel := lookup_event env eventCode in
  (args = ∅ ->
   exists r, updateEvent env eventCode args w h = (Ret r, h) /\ success r = false) /\
  (w h sel = Records [] ->
   exists r h', updateEvent env eventCode args w h = (Ret r, h') /\
                success r = false /\ (h' = h \/ h' = (h ++ [sel])%list)) /\
  (forall r h', updateEvent env eventCode args w h = (Ret r, h') ->
                success r = true ->
                events_ready env = true /\ args <> ∅ /\
                exists record records,
                  w h sel = Records (record :: records) /\
                  h' = (h ++ [sel; update_call (events_table env) (record_id record)
                                     (fieldsToUpdate args)])%list) /\
  (forall record records,
      events_ready env = true -> args <> ∅ ->
      w h sel = Records (record :: records) ->
      let upd := update_call (events_table env) (record_id record) (fieldsToUpdate args) in
      w (h ++ [sel])%list upd <> Rejected ->
      exists r, updateEvent env eventCode args w h = (Ret r, (h ++ [sel; upd])%list) /\
                success r = true).
Proof.
  intros sel. rewrite updateEvent_run. fold sel.
  destruct (events_ready env) eqn:Hready; cbn [negb].
  2:{ split; [|split; [|split]].
      - intros _. eexists; split; reflexivity.
      - intros _. eexists _, _; repeat split; auto.
      - intros r h' [= <- <-]; discriminate.
      - discriminate. }
  destruct (size args =? 0)%nat eqn:Hsize.
  { apply size_zero_empty in Hsize. split; [|split; [|split]].
    - intros _. eexists; split; reflexivity.
    - intros _. eexists _, _; repeat split; auto.
    - intros r h' [= <- <-]; discriminate.
    - congruence. }
  assert (args <> ∅) as Hne
    by (intros Hempty; apply size_zero_empty in Hempty; congruence).
  cbv zeta. split; [|split; [|split]].
  - congruence.
  - intros ->. eexists _, _; repeat split; auto.
  - intros r h' Hrun Hsucc. split; [reflexivity|]. split; [assumption|].
    destruct (w h sel) as [| | [|record records] |];
      injection Hrun as <- <-; cbn in Hsucc; try discriminate Hsucc.
    rewrite <- app_assoc. eauto.
  - intros record records _ _ -> Hupd.
    eexists; split; [rewrite <- app_assoc; reflexivity|].
    destruct (w _ _); [contradiction | reflexivity..].
Qed.

Lemma updateEvent_contract_witness :
  (exists r, updateEvent demo_env "wad25" ∅ one_event_world [] = (Ret r, []) /\
             success r = false) /\
  (exists r h', updateEvent demo_env "nope" {[ "title" := "T" ]} quiet_world []
                = (Ret r, h') /\
                success r = false /\
                (h' = [] \/ h' = ([] ++ [lookup_event demo_env "nope"])%list)).
Proof.
  split.
  - apply (proj1 (updateEvent_contract demo_env "wad25" ∅ one_event_world [])).
    reflexivity.
  - apply (proj1 (proj2 (updateEvent_contract demo_env "nope" {[ "title" := "T" ]}
                           quiet_world []))).
    reflexivity.
Defined.

(** ** Running the handlers *)

Lemma bind_ret_l {A B} (a : A) (f : A -> M B) : bind (ret a) f = f a.
Proof. reflexivity. Qed.

Lemma bind_throw_l {A B} (f : A -> M B) : bind throw f = throw.
Proof. reflexivity. Qed.

Lemma bind_run {A B} (m : M A) (f : A -> M B) w h :
  bind m f w h =
  match m w h with
  | (Ret a, h') => f a w h'
  | (Throw, h') => (Throw, h')
  end.
Proof. reflexivity. Qed.

Lemma sendMessage_run env chatId body replyTo markup w h :
  sendMessage env chatId body replyTo markup w h =
  (Ret tt,
   if token_set env
   then (h ++ [sendMessage_call chatId body (reply_to_field replyTo) markup])%list
   else h).
Proof. unfold sendMessage, token_set. now destruct (Js.truthy _). Qed.

Lemma count_calls_app P t1 t2 :
  count_calls P (t1 ++ t2)%list = (count_calls P t1 + count_calls P t2)%nat.
Proof. unfold count_calls. now rewrite List.filter_app, List.length_app. Qed.

Section Counting.

Context (P : Call -> bool).

Lemma at_most_ret {A} (a : A) n : at_most P n (ret a).
Proof. intros w h. exists []. rewrite app_nil_r. split; [reflexivity | cbn; lia]. Qed.

Lemma at_most_throw {A} n : at_most P n (@throw A).
Proof. intros w h. exists []. rewrite app_nil_r. split; [reflexivity | cbn; lia]. Qed.

Lemma at_most_call c : at_most P 1 (call c).
Proof. intros w h. exists [c]. split; [reflexivity|]. cbn. destruct (P c); cbn; lia. Qed.

Lemma at_most_bind {A B} n k (m : M A) (f : A -> M B) :
  at_most P n m -> (forall a, at_most P k (f a)) -> at_most P (n + k) (bind m f).
Proof.
  intros Hm Hf w h. rewrite bind_run.
  destruct (Hm w h) as (t1 & E1 & F1).
  destruct (m w h) as [[a|] h1]; simpl in E1; subst h1.
  - destruct (Hf a w (h ++ t1)%list) as (t2 & E2 & F2).
    exists (t1 ++ t2)%list. rewrite E2, app_assoc. split; [reflexivity|].
    rewrite count_calls_app. lia.
  - exists t1. split; [reflexivity | lia].
Qed.

Lemma at_most_weaken {A} n k (m : M A) : (n <= k)%nat -> at_most P n m -> at_most P k m.
Proof.
  intros Hle Hm w h. destruct (Hm w h) as (t & E & F). exists t. split; [exact E | lia].
Qed.

Lemma silent_ret {A} (a : A) : silent P (ret a).
Proof. apply at_most_ret. Qed.

Lemma silent_throw {A} : silent P (@throw A).
Proof. apply at_most_throw. Qed.

Lemma silent_call c : P c = false -> silent P (call c).
Proof.
  intros Hc w h. exists [c]. split; [reflexivity|]. cbn. now rewrite Hc.
Qed.

Lemma silent_bind {A B} (m : M A) (f : A -> M B) :
  silent P m -> (forall a, silent P (f a)) -> silent P (bind m f).
Proof. intros Hm Hf. apply (at_most_bind 0 0); assumption. Qed.

Lemma silent_fetch c : P c = false -> silent P (fetch_ c).
Proof.
  intros Hc. apply silent_bind; [now apply silent_call|].
  intros []; first [apply silent_throw | apply silent_ret].
Qed.

Lemma silent_at_most {A} n (m : M A) : silent P m -> at_most P n m.
Proof. apply at_most_weaken. lia. Qed.

Lemma at_most_bind_l {A B} n (m : M A) (f : A -> M B) :
  at_most P n m -> (forall a, silent P (f a)) -> at_most P n (bind m f).
Proof.
  intros Hm Hf. apply at_most_weaken with (n + 0)%nat; [lia|].
  now apply at_most_bind.
Qed.

Lemma at_most_bind_r {A B} n (m : M A) (f : A -> M B) :
  silent P m -> (forall a, at_most P n (f a)) -> at_most P n (bind m f).
Proof. intros Hm Hf. now apply (at_most_bind 0 n). Qed.

End Counting.

Create HintDb silent.

(** Structural steps of a proof that a computation is silent. *)
Ltac silent_step :=
  match goal with
  | |- silent _ (ret _) => apply silent_ret
  | |- silent _ throw => apply silent_throw
  | |- silent _ (call _) => apply silent_call; reflexivity
  | |- silent _ (fetch_ _) => apply silent_fetch; reflexivity
  | |- silent _ (bind _ _) => apply silent_bind; [|intros ?]
  | |- silent _ (if ?b then _ else _) => destruct b
  | |- silent _ (match ?x with _ => _ end) => destruct x
  end.

Ltac silent_auto := repeat (first [solve [auto with silent] | silent_step]).

(** *** The helpers make no membership query and no moderation call *)

Section HelpersSilent.

Context (P : Call -> bool) (HP : telegram_action_kind P) (env : Env).

Lemma kind_false c :
  is_reply c = true \/ is_datastore c = true \/ c = getMe_call \/
  (exists a b d, c = createChatInviteLink_call a b d) ->
  P c = false.
Proof.
  intros H. destruct (P c) eqn:E; [|reflexivity].
  destruct (HP c E) as (Hr & Hd & Hm & Hi).
  destruct H as [H | [H | [H | (a & b & d & H)]]]; try congruence.
Qed.

Ltac kind_call :=
  apply silent_call, kind_false;
  first [ left; reflexivity
        | right; left; reflexivity
        | right; right; left; reflexivity
        | right; right; right; do 3 eexists; reflexivity ].

Lemma sendMessage_silent chatId body replyTo markup :
  silent P (sendMessage env chatId body replyTo markup).
Proof.
  unfold sendMessage. destruct (negb _); [apply silent_ret|].
  apply silent_bind; [kind_call | intros; apply silent_ret].
Qed.

Lemma createInviteLink_silent chatId : silent P (createInviteLink env chatId).
Proof.
  unfold createInviteLink. apply silent_bind; [kind_call|].
  intros r. silent_auto.
Qed.

Lemma verifyMember_silent aetherId : silent P (verifyMember env aetherId).
Proof.
  unfold verifyMember. destruct (_ || _); [apply silent_ret|].
  apply silent_bind; [kind_call|]. intros r. silent_auto.
Qed.

Lemma getUpcomingEvents_silent : silent P (getUpcomingEvents env).
Proof.
  unfold getUpcomingEvents. destruct (_ || _); [apply silent_ret|].
  apply silent_bind; [kind_call|]. intros r. silent_auto.
Qed.

Lemma getAllEventsAdmin_silent : silent P (getAllEventsAdmin env).
Proof.
  unfold getAllEventsAdmin. destruct (_ || _); [apply silent_ret|].
  apply silent_bind; [kind_call|]. intros r. silent_auto.
Qed.

Lemma getAllSubmissions_silent : silent P (getAllSubmissions env).
Proof.
  unfold getAllSubmissions. destruct (_ || _); [apply silent_ret|].
  apply silent_bind; [kind_call|]. intros r. silent_auto.
Qed.

Lemma logSubmission_silent u s t c : silent P (logSubmission env u s t c).
Proof.
  unfold logSubmission. destruct (_ || _); [apply silent_ret|].
  apply silent_bind; [kind_call|]. intros r. silent_auto.
Qed.

Lemma createEvent_silent args : silent P (createEvent env args).
Proof.
  unfold createEvent. destruct (_ || _); [apply silent_ret|].
  cbv zeta. destruct (_ || _); [apply silent_ret|].
  apply silent_bind; [kind_call|]. intros r. silent_auto.
Qed.

Lemma updateEvent_silent eventCode args : silent P (updateEvent env eventCode args).
Proof.
  unfold updateEvent. destruct (_ || _); [apply silent_ret|].
  destruct (_ =? _)%nat; [apply silent_ret|].
  apply silent_bind; [kind_call|]. intros [| | [|record records] |]; try apply silent_ret.
  apply silent_bind; [kind_call|]. intros r. silent_auto.
Qed.

Hint Resolve sendMessage_silent createInviteLink_silent verifyMember_silent
  getUpcomingEvents_silent getAllEventsAdmin_silent getAllSubmissions_silent
  logSubmission_silent createEvent_silent updateEvent_silent : silent.

Lemma verification_reply_silent chatId result :
  silent P (verification_reply env chatId result).
Proof. unfold verification_reply. silent_auto. Qed.

Hint Resolve verification_reply_silent : silent.

Lemma handleVerification_silent chatId aetherId :
  silent P (handleVerification env chatId aetherId).
Proof. unfold handleVerification. silent_auto. Qed.

Hint Resolve handleVerification_silent : silent.

Lemma admin_event_switch_silent msg command args :
  silent P (admin_event_switch env msg command args).
Proof. unfold admin_event_switch. silent_auto. Qed.

Lemma general_switch_silent msg command args :
  silent P (general_switch env msg command args).
Proof. unfold general_switch. silent_auto. Qed.

Lemma free_text_silent msg : silent P (free_text env msg).
Proof. unfold free_text. silent_auto. Qed.

End HelpersSilent.

#[export] Hint Resolve sendMessage_silent createInviteLink_silent verifyMember_silent
  getUpcomingEvents_silent getAllEventsAdmin_silent getAllSubmissions_silent
  logSubmission_silent createEvent_silent updateEvent_silent
  verification_reply_silent handleVerification_silent admin_event_switch_silent general_switch_silent
  free_text_silent : silent.

(** ** The queries for the role of the sender *)

Lemma query_kind chatId userId : telegram_action_kind (is_query_of chatId userId).
Proof. intros [] H; try discriminate H. repeat split; discriminate. Qed.

Lemma moderation_kind : telegram_action_kind is_moderation_call.
Proof. intros [] H; try discriminate H; repeat split; discriminate. Qed.

Lemma restrict_kind : telegram_action_kind is_restrict.
Proof. intros [] H; try discriminate H; repeat split; discriminate. Qed.

#[export] Hint Resolve query_kind moderation_kind restrict_kind : silent.

Lemma no_call_kind : telegram_action_kind no_call.
Proof. intros c H. discriminate H. Qed.

Lemma query_spares chatId userId : spares_moderation (is_query_of chatId userId).
Proof. now intros []. Qed.

Lemma no_call_spares : spares_moderation no_call.
Proof. now intros c. Qed.

#[export] Hint Resolve no_call_kind query_spares no_call_spares : silent.

Section ModerationActions.

Context (P : Call -> bool) (HP : telegram_action_kind P) (HM : spares_moderation P)
  (env : Env).

Lemma banUser_silent a b r : silent P (banUser env a b r).
Proof.
  unfold banUser. apply silent_bind; [now apply silent_fetch, HM|].
  intros; auto with silent.
Qed.

Lemma muteUser_silent a b d r : silent P (muteUser env a b d r).
Proof.
  unfold muteUser. cbv zeta. apply silent_bind; [now apply silent_fetch, HM|].
  intros; auto with silent.
Qed.

Lemma unmuteUser_silent a b : silent P (unmuteUser env a b).
Proof.
  unfold unmuteUser. apply silent_bind; [now apply silent_fetch, HM|].
  intros; auto with silent.
Qed.

Lemma deleteMessage_silent a b : silent P (deleteMessage a b).
Proof. unfold deleteMessage. now apply silent_fetch, HM. Qed.

Lemma parseMuteDuration_of_silent arg : silent P (parseMuteDuration_of arg).
Proof. unfold parseMuteDuration_of. silent_auto. Qed.

End ModerationActions.

#[export] Hint Resolve banUser_silent muteUser_silent unmuteUser_silent
  deleteMessage_silent parseMuteDuration_of_silent : silent.

Section SenderQueries.

Context (env : Env) (msg : Message).

Local Abbreviation P := (is_query_of (chat_id (chat msg)) (user_id (from msg))).

Lemma isUserAdmin_at_most_one chatId userId : at_most P 1 (isUserAdmin chatId userId).
Proof.
  unfold isUserAdmin. destruct (chatId >? 0); [apply at_most_ret|].
  apply at_most_bind_l; [apply at_most_call | intros; apply silent_ret].
Qed.

Lemma isUserAdmin_other userId :
  (userId =? user_id (from msg)) = false ->
  silent P (isUserAdmin (chat_id (chat msg)) userId).
Proof.
  intros Hne. unfold isUserAdmin. destruct (_ >? 0); [apply silent_ret|].
  apply silent_bind; [|intros; apply silent_ret].
  apply silent_call. cbn. rewrite Hne. apply andb_false_r.
Qed.

(** The moderation block asks for the role of the sender once, and once more
    only when the target of the reply is the sender. *)
Lemma moderate_queries :
  at_most P (if self_reply msg then 1 else 0) (moderate env msg).
Proof.
  unfold moderate. cbv zeta.
  destruct (_ && _); [apply silent_at_most; silent_auto|].
  apply at_most_bind_l; [|intros; apply silent_ret].
  unfold self_reply.
  destruct (reply_to_message msg) as [replied|]; cbn [fmap option_fmap option_map].
  - destruct (_ || _).
    + destruct (user_id (from replied) =? user_id (from msg)) eqn:E.
      * apply at_most_bind_l; [apply isUserAdmin_at_most_one|].
        intros a. silent_auto.
      * apply silent_bind; [now apply isUserAdmin_other|].
        intros a. silent_auto.
    + apply silent_at_most. silent_auto.
  - apply silent_at_most. silent_auto.
Qed.

Lemma moderation_queries :
  at_most P (1 + (if self_reply msg then 1 else 0)) (moderation env msg).
Proof.
  unfold moderation. cbv zeta.
  destruct (_ && _); [|apply at_most_ret].
  apply at_most_bind; [apply isUserAdmin_at_most_one|].
  intros [|]; [apply moderate_queries | apply at_most_ret].
Qed.

Lemma moderation_skipped :
  is_private (chat_type (chat msg)) = true \/
  Js.startsWith "/" (default "" (text msg)) = false ->
  moderation env msg = ret None.
Proof.
  intros H. unfold moderation. cbv zeta.
  destruct H as [-> | ->]; [reflexivity | now rewrite andb_false_r].
Qed.

(** The command block asks for the role of the sender at most once. *)
Lemma commands_queries : at_most P 1 (commands env msg).
Proof.
  unfold commands. cbv zeta. destruct (_ && _).
  - apply silent_at_most. apply silent_bind; [now apply silent_call|].
    intros r. silent_auto.
  - apply at_most_bind_l.
    + destruct (_ <? 0); [apply isUserAdmin_at_most_one | apply at_most_ret].
    + intros isSenderAdmin. silent_auto.
Qed.

Lemma handle_queries :
  at_most P (2 + (if self_reply msg then 1 else 0)) (handle env msg).
Proof.
  unfold handle. cbv zeta.
  replace (2 + (if self_reply msg then 1 else 0))%nat
    with ((1 + (if self_reply msg then 1 else 0)) + 1)%nat by lia.
  apply at_most_bind; [apply moderation_queries|].
  intros [r|]; [apply at_most_ret|].
  destruct (Js.startsWith _ _); [apply commands_queries|].
  apply silent_at_most. auto with silent.
Qed.

Lemma handle_queries_private :
  is_private (chat_type (chat msg)) = true -> at_most P 1 (handle env msg).
Proof.
  intros Hp. unfold handle. cbv zeta. rewrite moderation_skipped by auto.
  rewrite bind_ret_l.
  destruct (Js.startsWith _ _); [apply commands_queries|].
  apply silent_at_most. auto with silent.
Qed.

Lemma handle_queries_free_text :
  Js.startsWith "/" (default "" (text msg)) = false -> silent P (handle env msg).
Proof.
  intros Hs. unfold handle. cbv zeta. rewrite moderation_skipped by auto.
  rewrite bind_ret_l, Hs. auto with silent.
Qed.

End SenderQueries.

Lemma POST_trace env msg w :
  snd (POST env (Some msg) w) =
  if token_set env then snd (handle env msg w []) else [].
Proof.
  unfold POST, token_set. destruct (Js.truthy _); [|reflexivity]. cbn [negb].
  now destruct (handle env msg w []) as [[r|] t].
Qed.

Lemma at_most_POST env msg w P n :
  at_most P n (handle env msg) -> (count_calls P (snd (POST env (Some msg) w)) <= n)%nat.
Proof.
  intros H. rewrite POST_trace. destruct (token_set env); [|cbn; lia].
  destruct (H w []) as (t & -> & Ht). exact Ht.
Qed.

(** *** Every handler only extends the trace *)

Lemma isUserAdmin_extends chatId userId : silent no_call (isUserAdmin chatId userId).
Proof. unfold isUserAdmin. silent_auto. Qed.

#[export] Hint Resolve isUserAdmin_extends : silent.

Lemma moderate_extends env msg : silent no_call (moderate env msg).
Proof. unfold moderate. silent_auto. Qed.

Lemma commands_extends env msg : silent no_call (commands env msg).
Proof. unfold commands. silent_auto. Qed.

#[export] Hint Resolve moderate_extends commands_extends : silent.

Lemma silent_extends {A} P (m : M A) w h :
  silent P m -> exists t, snd (m w h) = (h ++ t)%list /\ count_calls P t = 0%nat.
Proof. intros H. destruct (H w h) as (t & E & Ht). exists t. split; [exact E | lia]. Qed.

Lemma count_zero_not_in P t c : count_calls P t = 0%nat -> In c t -> P c = false.
Proof.
  unfold count_calls. intros Hz Hin. destruct (P c) eqn:E; [|reflexivity].
  assert (In c (List.filter P t)) as Hf by (apply List.filter_In; auto).
  destruct (List.filter P t); [destruct Hf | discriminate Hz].
Qed.

(** *** No moderation call without the privilege of the sender *)

Lemma commands_silent_moderation env msg : silent is_moderation_call (commands env msg).
Proof.
  unfold commands, isUserAdmin. cbv zeta. silent_auto.
Qed.

Lemma after_moderation_silent env msg :
  silent is_moderation_call
    (if Js.startsWith "/" (default "" (text msg)) then commands env msg
     else free_text env msg).
Proof.
  destruct (Js.startsWith _ _); [apply commands_silent_moderation | auto with silent].
Qed.

Lemma handle_run env msg w h :
  handle env msg w h =
  match moderation env msg w h with
  | (Ret (Some r), h') => (Ret r, h')
  | (Ret None, h') =>
      (if Js.startsWith "/" (default "" (text msg)) then commands env msg
       else free_text env msg) w h'
  | (Throw, h') => (Throw, h')
  end.
Proof.
  unfold handle. cbv zeta. rewrite bind_run.
  now destruct (moderation env msg w h) as [[[r|]|] h'].
Qed.

Lemma moderation_run env msg w h :
  moderation env msg w h =
  if negb (is_private (chat_type (chat msg)))
     && Js.startsWith "/" (default "" (text msg))
  then
    if chat_id (chat msg) >? 0 then (Ret None, h)
    else
      let q := getChatMember_call (chat_id (chat msg)) (user_id (from msg)) in
      if member_is_admin (w h q) then moderate env msg w (h ++ [q])%list
      else (Ret None, (h ++ [q])%list)
  else (Ret None, h).
Proof.
  unfold moderation. cbv zeta. destruct (_ && _); [|reflexivity].
  rewrite bind_run, isUserAdmin_run. destruct (_ >? 0); [reflexivity|].
  cbv zeta. now destruct (member_is_admin _).
Qed.

(** A moderation call is only made after the membership query for the
    sender, asked first, has reported a creator or an administrator. *)
Lemma moderation_call_gated env msg w c :
  let q := getChatMember_call (chat_id (chat msg)) (user_id (from msg)) in
  In c (snd (handle env msg w [])) -> is_moderation_call c = true ->
  member_is_admin (w [] q) = true /\ exists t, snd (handle env msg w []) = q :: t.
Proof.
  intros q Hin Hc. rewrite handle_run, moderation_run in *. fold q in Hin |- *.
  pose proof (after_moderation_silent env msg) as Hrest.
  assert (forall h, (forall x, In x h -> is_moderation_call x = false) ->
            ~ In c (snd ((if Js.startsWith "/" (default "" (text msg))
                          then commands env msg else free_text env msg) w h)))
    as Hquiet.
  { intros h Hh Hin'. destruct (silent_extends _ _ w h Hrest) as (t & E & Ht).
    rewrite E in Hin'. apply in_app_or in Hin' as [Hin' | Hin'].
    - rewrite (Hh _ Hin') in Hc. discriminate.
    - rewrite (count_zero_not_in _ _ _ Ht Hin') in Hc. discriminate. }
  destruct (_ && _).
  2:{ exfalso. apply (Hquiet []); [intros x []|exact Hin]. }
  destruct (_ >? 0).
  { exfalso. apply (Hquiet []); [intros x []|exact Hin]. }
  cbv zeta in *. destruct (member_is_admin (w [] q)).
  2:{ exfalso. apply (Hquiet ([] ++ [q])%list); [|exact Hin].
      intros x [<-|[]]. reflexivity. }
  split; [reflexivity|]. clear Hin Hquiet.
  destruct (silent_extends _ _ w ([] ++ [q])%list (moderate_extends env msg))
    as (t1 & E1 & _).
  destruct (moderate env msg w ([] ++ [q])%list) as [[[r|]|] h1];
    cbn [snd] in E1; subst h1; cbn [snd]; eauto.
  assert (silent no_call (if Js.startsWith "/" (default "" (text msg))
                          then commands env msg else free_text env msg)) as Hext
    by (destruct (Js.startsWith _ _); auto with silent).
  destruct (silent_extends _ _ w (([] ++ [q]) ++ t1)%list Hext) as (t2 & E2 & _).
  rewrite E2. cbn. eauto.
Qed.

(** C4, as stated, fails: for [/start] sent to a group, the membership of the
    sender is queried twice, by the moderation block and by the check that
    guards the event commands. *)
Lemma sender_role_resolved_twice :
  POST demo_env (Some (group_message 8 "/start" None)) group_world
  = (status_ok,
     [getChatMember_call (-1001) 8; getChatMember_call (-1001) 8;
      sendMessage_call (-1001)
        "Welcome to the Aether Bot! Please verify your identity by sending your Aether ID (e.g., `AETH-XX12`)."
        None None]) /\
  count_calls (is_query_of (-1001) 8)
    (snd (POST demo_env (Some (group_message 8 "/start" None)) group_world)) = 2%nat.
Proof. split; reflexivity. Qed.

(** C4, amended. The role of the sender is not resolved once per message: the
    membership query for the sender is made at most twice as a resolution of
    the sender (by the moderation block, then by the check that guards the
    event commands) and once more when the sender replies to a message of their
    own; at most once in a private chat; never for a text that does not
    start with a slash.  The first resolution comes before any moderation
    branch: a moderation call is only made when the first call of the
    handling is that query and its answer reports a creator or an
    administrator. *)
Theorem sender_role_resolutions env msg w :
  let q := getChatMember_call (chat_id (chat msg)) (user_id (from msg)) in
  let asked :=
    count_calls (is_query_of (chat_id (chat msg)) (user_id (from msg)))
      (snd (POST env (Some msg) w)) in
  (asked <= 3)%nat /\
  (self_reply msg = false -> (asked <= 2)%nat) /\
  (is_private (chat_type (chat msg)) = true -> (asked <= 1)%nat) /\
  (Js.startsWith "/" (default "" (text msg)) = false -> asked = 0%nat) /\
  (forall c, In c (snd (POST env (Some msg) w)) -> is_moderation_call c = true ->
             member_is_admin (w [] q) = true /\
             exists t, snd (POST env (Some msg) w) = q :: t).
Proof.
  intros q asked. unfold asked.
  pose proof (handle_queries env msg) as H3.
  repeat apply conj.
  - apply at_most_POST. eapply at_most_weaken; [|exact H3].
    destruct (self_reply msg); lia.
  - intros Hs. apply at_most_POST. now rewrite Hs in H3.
  - intros Hp. apply at_most_POST. now apply handle_queries_private.
  - intros Ht. apply Nat.le_0_r, at_most_POST. now apply handle_queries_free_text.
  - intros c. rewrite POST_trace. destruct (token_set env); [|intros []].
    apply moderation_call_gated.
Qed.

Lemma sender_role_resolutions_witness :
  (count_calls (is_query_of (-1001) 8)
     (snd (POST demo_env (Some (group_message 8 "/start" None)) group_world)) <= 2)%nat /\
  count_calls (is_query_of (-1001) 8)
    (snd (POST demo_env (Some (group_message 8 "hello" None)) group_world)) = 0%nat.
Proof.
  pose proof (sender_role_resolutions demo_env (group_message 8 "/start" None) group_world)
    as (_ & H2 & _).
  pose proof (sender_role_resolutions demo_env (group_message 8 "hello" None) group_world)
    as (_ & _ & _ & H0 & _).
  split; [apply H2 | apply H0]; reflexivity.
Defined.

(** ** Commands and their first token *)

Lemma command_of_cons c s :
  command_of (String c s) =
  if Ascii.eqb c " " then "" else String c (command_of s).
Proof.
  unfold command_of. cbn [Js.split_space].
  destruct (Ascii.eqb c " "); [reflexivity|].
  now destruct (Js.split_space s).
Qed.

(** A prefix without a space is a prefix of the first token. *)
Lemma command_of_prefix p : forall body,
  all_chars (fun c => negb (Ascii.eqb c " ")) p = true ->
  Js.startsWith p body = true -> Js.startsWith p (command_of body) = true.
Proof.
  induction p as [|a p IH]; intros body Hp Hs; [reflexivity|].
  destruct body as [|b body]; [discriminate Hs|].
  cbn [all_chars Js.startsWith] in Hp, Hs.
  apply andb_prop in Hp as [Ha Hp]. apply andb_prop in Hs as [Hab Hs].
  apply Ascii.eqb_eq in Hab as <-. rewrite command_of_cons.
  destruct (Ascii.eqb a " "); [discriminate Ha|].
  cbn [Js.startsWith]. rewrite Ascii.eqb_refl. now apply IH.
Qed.

Lemma moderation_prefix_command body :
  moderation_prefix body = true -> moderation_prefix (command_of body) = true.
Proof.
  unfold moderation_prefix. intros H.
  repeat (apply orb_prop in H as [H | H]);
    apply command_of_prefix in H; try reflexivity; rewrite H;
    now rewrite ?orb_true_r.
Qed.

Lemma moderation_prefix_slash body :
  moderation_prefix body = true -> Js.startsWith "/" body = true.
Proof.
  unfold moderation_prefix. destruct body as [|c body]; [discriminate|].
  cbn [Js.startsWith].
  destruct (Ascii.eqb "/" c); [reflexivity | discriminate].
Qed.

(** A token that starts like a moderation command is none of the other
    commands. *)
Lemma moderation_prefix_unknown command :
  moderation_prefix command = true ->
  Js.includes (private_only_commands ++ adminEventCommands ++ general_commands)%list
    command = false.
Proof.
  intros Hpre. apply not_true_is_false. unfold Js.includes. intros H.
  apply existsb_exists in H as (lit & Hin & Heq).
  apply String.eqb_eq in Heq. subst lit.
  cbn in Hin. repeat (destruct Hin as [<- | Hin]; [discriminate Hpre|]).
  destruct Hin.
Qed.

Lemma includes_app l1 l2 x :
  Js.includes (l1 ++ l2)%list x = Js.includes l1 x || Js.includes l2 x.
Proof. unfold Js.includes. apply existsb_app. Qed.

Lemma includes_cons y l x :
  Js.includes (y :: l) x = String.eqb x y || Js.includes l x.
Proof. reflexivity. Qed.

Lemma admin_event_switch_unknown env msg command args :
  Js.includes adminEventCommands command = false ->
  admin_event_switch env msg command args = ret None.
Proof.
  unfold adminEventCommands. rewrite !includes_cons. intros H.
  repeat (apply orb_false_elim in H as [? H]).
  unfold admin_event_switch. cbv zeta.
  repeat match goal with E : String.eqb command _ = false |- _ => rewrite E; clear E end.
  reflexivity.
Qed.

Lemma general_switch_unknown env msg command args :
  Js.includes general_commands command = false ->
  is_private (chat_type (chat msg)) = false ->
  general_switch env msg command args = ret tt.
Proof.
  unfold general_commands. rewrite !includes_cons. intros H Hp.
  repeat (apply orb_false_elim in H as [? H]).
  unfold general_switch. cbv zeta.
  repeat match goal with E : String.eqb command _ = false |- _ => rewrite E; clear E end.
  now rewrite Hp.
Qed.

(** In a chat that is not private, a command that is none of the private-
    only, event and general commands only has the role of its sender
    resolved. *)
Lemma commands_unknown env msg w h :
  let command := command_of (default "" (text msg)) in
  is_private (chat_type (chat msg)) = false ->
  Js.includes (private_only_commands ++ adminEventCommands ++ general_commands)%list
    command = false ->
  commands env msg w h =
  (Ret status_ok,
   if (chat_id (chat msg) <? 0) && negb (chat_id (chat msg) >? 0)
   then (h ++ [getChatMember_call (chat_id (chat msg)) (user_id (from msg))])%list
   else h).
Proof.
  intros command Hp H. rewrite !includes_app in H.
  apply orb_false_elim in H as [H1 H]. apply orb_false_elim in H as [H2 H3].
  unfold commands. cbv zeta. fold command.
  rewrite H1, andb_false_r, bind_run.
  rewrite (admin_event_switch_unknown _ _ _ _ H2).
  rewrite (general_switch_unknown _ _ _ _ H3 Hp).
  destruct (_ <? 0).
  - rewrite isUserAdmin_run. destruct (_ >? 0); cbn [negb andb];
      [reflexivity | now destruct (member_is_admin _)].
  - cbn. now destruct (bool_decide _).
Qed.

(** ** Moderation commands of senders who are no administrators *)

(** C1. In a chat that is not private, for a sender whose membership query
    never reports a creator or an administrator, a text that starts with
    [/ban], [/mute], [/unmute] or [/del] makes the handler call nothing but
    that query: no reply is sent and no ban, restriction or deletion is
    requested. *)
Theorem moderation_invisible_to_members env msg body w :
  let q := getChatMember_call (chat_id (chat msg)) (user_id (from msg)) in
  is_private (chat_type (chat msg)) = false ->
  text msg = Some body ->
  moderation_prefix body = true ->
  (forall h, unprivileged_reply (w h q)) ->
  forall c, In c (snd (POST env (Some msg) w)) ->
            c = q /\ is_reply c = false /\ is_moderation_call c = false.
Proof.
  intros q Hp Ht Hpre Hrole c Hin.
  assert (c = q) as ->; [|now repeat split].
  assert (default "" (text msg) = body) as Hbody by now rewrite Ht.
  rewrite POST_trace in Hin. destruct (token_set env); [|destruct Hin].
  rewrite handle_run, moderation_run, Hbody in Hin.
  rewrite Hp, (moderation_prefix_slash _ Hpre) in Hin. cbn [negb andb] in Hin.
  assert (forall h, (forall x, In x h -> x = q) ->
            In c (snd (commands env msg w h)) -> c = q) as Hrest.
  { intros h Hh. rewrite commands_unknown; [|exact Hp|].
    - destruct (_ && _); cbn [snd]; [|apply Hh].
      intros Hc. apply in_app_or in Hc as [Hc | [<- | []]]; [now apply Hh | reflexivity].
    - rewrite Hbody.
      now apply moderation_prefix_unknown, moderation_prefix_command. }
  destruct (_ >? 0).
  - apply (Hrest []); [intros x []|exact Hin].
  - cbv zeta in Hin. fold q in Hin.
    rewrite (unprivileged_not_admin _ (Hrole [])) in Hin.
    apply (Hrest ([] ++ [q])%list); [|exact Hin].
    now intros x [<- | []].
Qed.

Lemma moderation_invisible_to_members_witness :
  List.Forall
    (fun c => c = getChatMember_call (-1001) 8 /\ is_reply c = false /\
              is_moderation_call c = false)
    (snd (POST demo_env
            (Some (group_message 8 "/ban spammer"
                     (Some (group_message 9 "buy now" None)))) group_world)).
Proof.
  apply List.Forall_forall.
  apply (moderation_invisible_to_members demo_env
           (group_message 8 "/ban spammer" (Some (group_message 9 "buy now" None)))
           "/ban spammer" group_world); try reflexivity.
  intros h. right; right. exists true, (status_of "member").
  repeat split; discriminate.
Defined.

(** ** Muting without a valid duration *)

Lemma moderate_mute env msg replied :
  command_of (default "" (text msg)) = "/mute" ->
  reply_to_message msg = Some replied ->
  moderate env msg =
  ((isTargetAdmin <- isUserAdmin (chat_id (chat msg)) (user_id (from replied)) ;;
    if isTargetAdmin then
      sendMessage env (chat_id (chat msg))
        "This command cannot be used on an administrator." (Some (message_id msg)) None
    else mute_target env msg (from replied)) ;;;
   ret None).
Proof.
  intros Hc Hr. unfold moderate. cbv zeta. rewrite Hc, Hr. reflexivity.
Qed.

(** An administrator of a group sends [/mute] without any argument as a
    reply to a user who is no administrator: the handler resolves the two
    roles and then fails, because the duration parser is given an undefined
    argument; the webhook answers 500, no reply is sent and no restriction
    is requested. *)
Lemma mute_without_argument_fails env msg replied w :
  let qs := getChatMember_call (chat_id (chat msg)) (user_id (from msg)) in
  let qt := getChatMember_call (chat_id (chat msg)) (user_id (from replied)) in
  token_set env = true ->
  is_private (chat_type (chat msg)) = false ->
  (chat_id (chat msg) >? 0) = false ->
  text msg = Some "/mute" ->
  reply_to_message msg = Some replied ->
  member_is_admin (w [] qs) = true ->
  member_is_admin (w [qs] qt) = false ->
  POST env (Some msg) w = (status_500, [qs; qt]).
Proof.
  intros qs qt Htok Hp Hchat Ht Hr Hs Htarget.
  assert (default "" (text msg) = "/mute") as Hbody by now rewrite Ht.
  unfold POST. fold (token_set env). rewrite Htok. cbn [negb].
  rewrite handle_run, moderation_run, Hbody, Hp, Hchat. cbn [negb andb Js.startsWith].
  cbv zeta. fold qs. rewrite Hs.
  assert (command_of (default "" (text msg)) = "/mute") as Hcmd by now rewrite Hbody.
  rewrite (moderate_mute env msg replied Hcmd Hr).
  rewrite !bind_run, isUserAdmin_run, Hchat. fold qt. cbn [app].
  rewrite Htarget. unfold mute_target. rewrite Hbody. reflexivity.
Qed.

Example mute_without_argument_run :
  POST demo_env
    (Some (group_message 7 "/mute" (Some (group_message 9 "buy now" None))))
    group_world
  = (status_500, [getChatMember_call (-1001) 7; getChatMember_call (-1001) 9]).
Proof.
  apply (mute_without_argument_fails demo_env
           (group_message 7 "/mute" (Some (group_message 9 "buy now" None)))
           (group_message 9 "buy now" None) group_world); reflexivity.
Qed.

(** With an argument for which the parser returns 0, the message of an
    administrator that replies to a user who is no administrator is answered
    by the invalid-duration reply, and nothing else is done but the
    resolutions of the roles. *)
Lemma mute_invalid_duration_rejected env msg body arg replied w :
  let qs := getChatMember_call (chat_id (chat msg)) (user_id (from msg)) in
  let qt := getChatMember_call (chat_id (chat msg)) (user_id (from replied)) in
  token_set env = true ->
  is_private (chat_type (chat msg)) = false ->
  (chat_id (chat msg) >? 0) = false ->
  text msg = Some body ->
  command_of body = "/mute" ->
  nth_error (args_of body) 0 = Some arg ->
  parseMuteDuration arg = 0 ->
  reply_to_message msg = Some replied ->
  member_is_admin (w [] qs) = true ->
  member_is_admin (w [qs] qt) = false ->
  POST env (Some msg) w =
  (status_ok,
   ([qs; qt;
     sendMessage_call (chat_id (chat msg)) invalid_duration_text
       (reply_to_field (Some (message_id msg))) None]
    ++ (if chat_id (chat msg) <? 0 then [qs] else []))%list).
Proof.
  intros qs qt Htok Hp Hchat Ht Hcmd Harg Hzero Hr Hs Htarget.
  assert (default "" (text msg) = body) as Hbody by now rewrite Ht.
  assert (Js.startsWith "/" body = true) as Hslash.
  { destruct body as [|c body]; [discriminate Hcmd|].
    rewrite command_of_cons in Hcmd. cbn [Js.startsWith].
    destruct (Ascii.eqb c " "); [discriminate Hcmd|].
    injection Hcmd as -> _. reflexivity. }
  unfold POST. fold (token_set env). rewrite Htok. cbn [negb].
  rewrite handle_run, moderation_run, Hbody, Hp, Hchat, Hslash. cbn [negb andb].
  cbv zeta. fold qs. rewrite Hs.
  assert (command_of (default "" (text msg)) = "/mute") as Hcmd' by now rewrite Hbody.
  rewrite (moderate_mute env msg replied Hcmd' Hr).
  rewrite !bind_run, isUserAdmin_run, Hchat. fold qt. cbn [app].
  rewrite Htarget. unfold mute_target. rewrite Hbody, Harg.
  rewrite !bind_run. cbn [parseMuteDuration_of ret]. rewrite Hzero.
  cbn [Js.positive Z.ltb Z.compare]. rewrite sendMessage_run, Htok. cbn [ret].
  rewrite commands_unknown; [|exact Hp|now rewrite Hbody, Hcmd].
  rewrite Hchat, andb_true_r. fold qs.
  now destruct (_ <? 0).
Qed.

Lemma at_most_mono {A} (P Q : Call -> bool) n (m : M A) :
  (forall c, P c = true -> Q c = true) -> at_most Q n m -> at_most P n m.
Proof.
  intros HPQ Hm w h. destruct (Hm w h) as (t & E & Ht). exists t. split; [exact E|].
  apply Nat.le_trans with (count_calls Q t); [|exact Ht].
  clear E Ht. unfold count_calls. induction t as [|c t IH]; [reflexivity|].
  cbn. destruct (P c) eqn:Ep.
  - rewrite (HPQ c Ep). cbn. lia.
  - destruct (Q c); cbn; lia.
Qed.

(** No restriction is requested for a [/mute] whose duration argument is
    absent or parses to 0, whoever sends it and whatever the world answers:
    the restriction never comes before a valid duration. *)
Lemma mute_never_restricts_without_duration env msg w :
  command_of (default "" (text msg)) = "/mute" ->
  (forall arg, nth_error (args_of (default "" (text msg))) 0 = Some arg ->
               parseMuteDuration arg = 0) ->
  count_calls is_restrict (snd (POST env (Some msg) w)) = 0%nat.
Proof.
  intros Hcmd Hdur. apply Nat.le_0_r, at_most_POST.
  unfold handle. cbv zeta. apply silent_bind.
  - unfold moderation. cbv zeta. destruct (_ && _); [|apply silent_ret].
    apply silent_bind; [unfold isUserAdmin; silent_auto|].
    intros [|]; [|apply silent_ret].
    destruct (reply_to_message msg) as [replied|] eqn:Hr.
    + rewrite (moderate_mute env msg replied Hcmd Hr).
      apply silent_bind; [|intros; apply silent_ret].
      apply silent_bind; [unfold isUserAdmin; silent_auto|].
      intros [|]; [auto with silent|].
      unfold mute_target.
      destruct (nth_error _ 0) as [arg|] eqn:Harg.
      * cbn [parseMuteDuration_of]. rewrite bind_ret_l, (Hdur arg eq_refl).
        cbn [Js.positive Z.ltb Z.compare]. auto with silent.
      * cbn [parseMuteDuration_of]. rewrite bind_throw_l. apply silent_throw.
    + unfold moderate, deleteMessage. cbv zeta. rewrite Hcmd, Hr.
      cbn [fmap option_fmap option_map Js.undefined]. silent_auto.
  - intros [r|]; [apply silent_ret|].
    apply at_most_mono with is_moderation_call; [now intros []|].
    apply after_moderation_silent.
Qed.

(** C2, as stated, fails on two inputs.  An administrator who mutes another
    administrator with an invalid duration is told that the command cannot
    be used on an administrator, not that the duration is invalid.  And for
    [/mute] without any argument the handler raises before any reply: the
    webhook answers 500 after the two membership queries. *)
Lemma mute_reply_is_not_invalid_duration :
  POST demo_env
    (Some (group_message 7 "/mute soon" (Some (group_message 6 "hello" None))))
    group_world
  = (status_ok,
     [getChatMember_call (-1001) 7; getChatMember_call (-1001) 6;
      sendMessage_call (-1001) "This command cannot be used on an administrator."
        (Some 77) None;
      getChatMember_call (-1001) 7]) /\
  parseMuteDuration "soon" = 0 /\
  POST demo_env
    (Some (group_message 7 "/mute" (Some (group_message 9 "buy now" None))))
    group_world
  = (status_500, [getChatMember_call (-1001) 7; getChatMember_call (-1001) 9]).
Proof. repeat split; reflexivity. Qed.

(** C2, amended. When an administrator of a group sends [/mute] as a reply
    to a user who is no administrator of it, with a duration argument for
    which [parseMuteDuration] returns 0, the handler sends the reply
    [Invalid duration. Use format like `1h`, `2d`.] and nothing else but the
    resolutions of the roles.  And whoever sends a [/mute] whose duration
    argument is absent or parses to 0, no restriction is requested. *)
Theorem mute_invalid_duration_contract env msg w :
  let qs := getChatMember_call (chat_id (chat msg)) (user_id (from msg)) in
  (forall body arg replied,
      let qt := getChatMember_call (chat_id (chat msg)) (user_id (from replied)) in
      token_set env = true ->
      is_private (chat_type (chat msg)) = false ->
      (chat_id (chat msg) >? 0) = false ->
      text msg = Some body ->
      command_of body = "/mute" ->
      nth_error (args_of body) 0 = Some arg ->
      parseMuteDuration arg = 0 ->
      reply_to_message msg = Some replied ->
      member_is_admin (w [] qs) = true ->
      member_is_admin (w [qs] qt) = false ->
      POST env (Some msg) w =
      (status_ok,
       ([qs; qt;
         sendMessage_call (chat_id (chat msg)) invalid_duration_text
           (reply_to_field (Some (message_id msg))) None]
        ++ (if chat_id (chat msg) <? 0 then [qs] else []))%list)) /\
  (command_of (default "" (text msg)) = "/mute" ->
   (forall arg, nth_error (args_of (default "" (text msg))) 0 = Some arg ->
                parseMuteDuration arg = 0) ->
   count_calls is_restrict (snd (POST env (Some msg) w)) = 0%nat).
Proof.
  intros qs. split.
  - intros body arg replied. apply mute_invalid_duration_rejected.
  - apply mute_never_restricts_without_duration.
Qed.

Lemma mute_invalid_duration_contract_witness :
  POST demo_env
    (Some (group_message 7 "/mute soon" (Some (group_message 9 "buy now" None))))
    group_world
  = (status_ok,
     [getChatMember_call (-1001) 7; getChatMember_call (-1001) 9;
      sendMessage_call (-1001) invalid_duration_text (Some 77) None;
      getChatMember_call (-1001) 7]) /\
  count_calls is_restrict
    (snd (POST demo_env
            (Some (group_message 7 "/mute" (Some (group_message 9 "buy now" None))))
            group_world)) = 0%nat.
Proof.
  split.
  - apply (proj1 (mute_invalid_duration_contract demo_env
                    (group_message 7 "/mute soon" (Some (group_message 9 "buy now" None)))
                    group_world)
             "/mute soon" "soon" (group_message 9 "buy now" None)); reflexivity.
  - apply (proj2 (mute_invalid_duration_contract demo_env
                    (group_message 7 "/mute" (Some (group_message 9 "buy now" None)))
                    group_world)); [reflexivity|].
    intros arg Harg. discriminate Harg.
Defined.

(** ** Private-only commands in a chat that is not private *)

Lemma moderate_other env msg :
  Js.includes moderation_commands (command_of (default "" (text msg))) = false ->
  moderate env msg = ret None.
Proof.
  intros H. unfold moderate. cbv zeta. rewrite H, andb_false_r.
  unfold moderation_commands in H. rewrite !includes_cons in H.
  repeat (apply orb_false_elim in H as [? H]).
  repeat match goal with E : String.eqb _ _ = false |- _ => rewrite E; clear E end.
  reflexivity.
Qed.

Lemma private_only_not_moderation command :
  Js.includes private_only_commands command = true ->
  Js.includes moderation_commands command = false.
Proof.
  unfold Js.includes at 1. intros H.
  apply existsb_exists in H as (lit & Hin & Heq).
  apply String.eqb_eq in Heq. subst lit.
  cbn in Hin. repeat (destruct Hin as [<- | Hin]; [reflexivity|]). destruct Hin.
Qed.

(** The whole handling of a private-only command outside a private chat. *)
Lemma private_only_run env msg body w :
  token_set env = true ->
  is_private (chat_type (chat msg)) = false ->
  text msg = Some body ->
  Js.includes private_only_commands (command_of body) = true ->
  POST env (Some msg) w =
  match w (first_resolution msg) getMe_call with
  | Telegram _ (Some result) =>
      (status_ok,
       (first_resolution msg ++ [getMe_call; redirect_reply msg (result "username")])%list)
  | _ => (status_500, (first_resolution msg ++ [getMe_call])%list)
  end.
Proof.
  intros Htok Hp Ht Hcmd.
  assert (default "" (text msg) = body) as Hbody by now rewrite Ht.
  assert (Js.startsWith "/" body = true) as Hslash.
  { unfold Js.includes in Hcmd. apply existsb_exists in Hcmd as (lit & Hin & Heq).
    apply String.eqb_eq in Heq.
    destruct body as [|c body].
    { cbn in Heq. subst lit. cbn in Hin.
      repeat (destruct Hin as [Hin' | Hin]; [discriminate Hin'|]). destruct Hin. }
    rewrite command_of_cons in Heq. cbn [Js.startsWith].
    destruct (Ascii.eqb c " ").
    - subst lit. cbn in Hin.
      repeat (destruct Hin as [Hin' | Hin]; [discriminate Hin'|]). destruct Hin.
    - subst lit. cbn in Hin.
      repeat (destruct Hin as [Hin' | Hin]; [now injection Hin' as <- _|]).
      destruct Hin. }
  unfold POST. fold (token_set env). rewrite Htok. cbn [negb].
  rewrite handle_run, moderation_run, Hbody, Hp, Hslash. cbn [negb andb].
  rewrite moderate_other
    by (rewrite Hbody; now apply private_only_not_moderation).
  assert (forall h, commands env msg w h =
            match w h getMe_call with
            | Telegram _ (Some result) =>
                (Ret status_ok, (h ++ [getMe_call; redirect_reply msg (result "username")])%list)
            | _ => (Throw, (h ++ [getMe_call])%list)
            end) as Hcommands.
  { intros h. unfold commands. cbv zeta. rewrite Hbody, Hp, Hcmd. cbn [negb andb].
    rewrite bind_run. unfold call at 1. cbn [fst snd].
    destruct (w h getMe_call) as [|ok [result|]| |]; try reflexivity.
    rewrite bind_run, sendMessage_run, Htok. cbn [ret].
    now rewrite <- app_assoc. }
  unfold first_resolution. destruct (_ >? 0).
  - rewrite Hcommands. now destruct (w [] getMe_call) as [|ok [result|]| |].
  - cbv zeta.
    assert (forall b : bool,
              (if b then ret None w ([] ++ [getChatMember_call (chat_id (chat msg))
                                              (user_id (from msg))])%list
               else (Ret None, ([] ++ [getChatMember_call (chat_id (chat msg))
                                         (user_id (from msg))])%list))
              = (Ret (@None HttpResponse),
                 [getChatMember_call (chat_id (chat msg)) (user_id (from msg))]))
      as -> by now intros [|].
    rewrite Hcommands.
    now destruct (w _ getMe_call) as [|ok [result|]| |].
Qed.

(** C5, as stated, fails when the identity of the bot cannot be fetched: the
    request for it is not guarded, so the handling ends there, no reply is
    sent and the webhook answers 500. *)
Lemma private_only_no_reply_without_identity :
  POST demo_env (Some (group_message 8 "/events" None)) unreachable_bot_world
  = (status_500, [getChatMember_call (-1001) 8; getMe_call]) /\
  count_calls is_reply
    (snd (POST demo_env (Some (group_message 8 "/events" None)) unreachable_bot_world))
  = 0%nat.
Proof. split; reflexivity. Qed.

(** C5. With the bot token configured, a private-only command ([/events],
    [/ask], [/asklive], [/suggest]) sent to a chat that is not private never
    reaches its handler: no Airtable call is made, whatever the world
    answers, and at most one reply is sent.  When the identity of the bot is
    fetched, exactly one reply is sent, the redirect, whose button links to
    the private chat with the bot; when it is not, no reply is sent and the
    webhook answers 500. *)
Theorem private_only_redirected env msg body w :
  token_set env = true ->
  is_private (chat_type (chat msg)) = false ->
  text msg = Some body ->
  Js.includes private_only_commands (command_of body) = true ->
  count_calls is_datastore (snd (POST env (Some msg) w)) = 0%nat /\
  (count_calls is_reply (snd (POST env (Some msg) w)) <= 1)%nat /\
  (forall ok result,
      w (first_resolution msg) getMe_call = Telegram ok (Some result) ->
      fst (POST env (Some msg) w) = status_ok /\
      List.filter is_reply (snd (POST env (Some msg) w))
      = [redirect_reply msg (result "username")] /\
      button_url (redirect_button (result "username"))
      = "https://t.me/" ++ Js.show (result "username")) /\
  ((forall ok result,
       w (first_resolution msg) getMe_call <> Telegram ok (Some result)) ->
   fst (POST env (Some msg) w) = status_500 /\
   count_calls is_reply (snd (POST env (Some msg) w)) = 0%nat).
Proof.
  intros Htok Hp Ht Hcmd. rewrite (private_only_run env msg body w Htok Hp Ht Hcmd).
  assert (List.filter is_reply (first_resolution msg) = []) as Hr
    by (unfold first_resolution; now destruct (_ >? 0)).
  assert (List.filter is_datastore (first_resolution msg) = []) as Hd
    by (unfold first_resolution; now destruct (_ >? 0)).
  unfold count_calls.
  split; [|split; [|split]].
  - destruct (w _ getMe_call) as [|ok [result|]| |]; cbn [snd];
      now rewrite List.filter_app, Hd.
  - destruct (w _ getMe_call) as [|ok [result|]| |]; cbn [snd];
      rewrite List.filter_app, Hr; cbn; lia.
  - intros ok result ->. cbn [fst snd].
    now rewrite List.filter_app, Hr.
  - intros Hnone.
    destruct (w _ getMe_call) as [|ok [result|]| |]; cbn [fst snd];
      try (now rewrite List.filter_app, Hr).
    now destruct (Hnone ok result).
Qed.

Lemma private_only_redirected_witness :
  count_calls is_datastore
    (snd (POST demo_env (Some (group_message 8 "/events" None)) group_world)) = 0%nat /\
  List.filter is_reply
    (snd (POST demo_env (Some (group_message 8 "/events" None)) group_world))
  = [redirect_reply (group_message 8 "/events" None) (Some "aether_bot")] /\
  fst (POST demo_env (Some (group_message 8 "/ask why" None)) unreachable_bot_world)
  = status_500.
Proof.
  pose proof (private_only_redirected demo_env (group_message 8 "/events" None)
                "/events" group_world eq_refl eq_refl eq_refl eq_refl)
    as (Hd & _ & Hr & _).
  split; [exact Hd|]. split.
  - destruct (Hr true
                (fun field => if String.eqb field "username" then Some "aether_bot" else None)
                eq_refl) as (_ & Hone & _).
    exact Hone.
  - apply (private_only_redirected demo_env (group_message 8 "/ask why" None)
             "/ask why" unreachable_bot_world eq_refl eq_refl eq_refl eq_refl).
    intros ok result. discriminate.
Defined.

(** ** Identity codes in free text *)

Lemma four_alnum_prefix suffix after :
  (4 <= String.length suffix)%nat -> all_chars Js.is_alnum_i suffix = true ->
  four_alnum (suffix ++ after) = true.
Proof.
  intros Hlen Hall.
  destruct suffix as [|a [|b [|c [|d suffix]]]]; cbn in Hlen; try lia.
  cbn [all_chars] in Hall.
  apply andb_prop in Hall as [Ha Hall]. apply andb_prop in Hall as [Hb Hall].
  apply andb_prop in Hall as [Hc Hall]. apply andb_prop in Hall as [Hd _].
  cbn [String.append four_alnum]. now rewrite Ha, Hb, Hc, Hd.
Qed.

Lemma match_aeth_at_code m after : is_code m -> match_aeth_at (m ++ after) = Some tt.
Proof.
  intros (a & e & t & h & hyphen & suffix & -> & Ha & He & Ht & Hh & Hhy & Hlen & Hall).
  cbn [String.append match_aeth_at]. rewrite Ha, He, Ht, Hh. cbn [andb].
  rewrite append_assoc.
  pose proof (four_alnum_prefix suffix after Hlen Hall) as H4.
  destruct Hhy as [-> | ->]; cbn [String.append].
  - destruct (suffix ++ after) as [|c r] eqn:E; [discriminate H4|].
    cbn [after_optional_hyphen]. now rewrite H4, orb_true_r.
  - cbn [after_optional_hyphen]. now rewrite Ascii.eqb_refl, H4.
Qed.

Lemma search_skip (m : string -> option unit) c s :
  Js.search m s = Some tt -> Js.search m (String c s) = Some tt.
Proof. intros H. cbn [Js.search]. now destruct (m (String c s)) as [[]|]. Qed.

(** The test of the source finds every identity code, wherever it is. *)
Lemma test_aeth_contains s : contains_code s -> test_aeth s = true.
Proof.
  intros (before & m & after & -> & Hm). unfold test_aeth.
  assert (Js.search match_aeth_at (before ++ m ++ after) = Some tt) as ->; [|reflexivity].
  induction before as [|c before IH]; cbn [String.append].
  - apply search_some. now apply match_aeth_at_code.
  - now apply search_skip.
Qed.

Lemma test_aeth_not_empty s : test_aeth s = true -> Js.truthy (Some s) = true.
Proof. now destruct s. Qed.

Lemma returns_ret {A} (a : A) : returns (ret a).
Proof. intros w h. now exists a. Qed.

Lemma returns_call c : returns (call c).
Proof. intros w h. now eexists. Qed.

Lemma returns_bind {A B} (m : M A) (f : A -> M B) :
  returns m -> (forall a, returns (f a)) -> returns (bind m f).
Proof.
  intros Hm Hf w h. rewrite bind_run. destruct (Hm w h) as (a & Ha).
  destruct (m w h) as [[a'|] h']; cbn [fst] in Ha; [|discriminate Ha].
  apply Hf.
Qed.

Ltac returns_auto :=
  repeat match goal with
         | |- returns (ret _) => apply returns_ret
         | |- returns (call _) => apply returns_call
         | |- returns (bind _ _) => apply returns_bind; [|intros ?]
         | |- returns (if ?b then _ else _) => destruct b
         | |- returns (match ?x with _ => _ end) => destruct x
         end.

Lemma handleVerification_returns env chatId aetherId w h :
  fst (handleVerification env chatId aetherId w h) = Ret tt.
Proof.
  assert (returns (handleVerification env chatId aetherId)) as H.
  { unfold handleVerification, verification_reply, verifyMember, createInviteLink,
      sendMessage. returns_auto. }
  destruct (H w h) as ([] & ->). reflexivity.
Qed.

(** With the members table configured, the verification of a well-shaped
    code starts by looking the code up as it was given. *)
Lemma handleVerification_lookup env chatId aetherId w h :
  members_ready env = true -> test_aeth aetherId = true ->
  exists t,
    snd (handleVerification env chatId (Some aetherId) w h)
    = (h ++ lookup_member env aetherId :: t)%list.
Proof.
  intros Hready Htest. unfold handleVerification.
  rewrite (test_aeth_not_empty _ Htest). cbn [negb Js.show]. cbv zeta.
  rewrite Htest. cbn [negb]. rewrite bind_run.
  unfold verifyMember. fold (members_ready env).
  assert (negb (has_base env)
          || negb (Js.truthy (AIRTABLE_MEMBERS_TABLE_ID (config env))) = false) as ->.
  { unfold members_ready in Hready. apply andb_prop in Hready as [-> ->]. reflexivity. }
  rewrite bind_run. unfold call at 1. cbn [fst snd].
  fold (lookup_member env aetherId).
  assert (forall v, exists t,
            snd (verification_reply env chatId v w (h ++ [lookup_member env aetherId])%list)
            = (h ++ lookup_member env aetherId :: t)%list) as Hreply.
  { intros v.
    destruct (silent_extends no_call (verification_reply env chatId v) w
                (h ++ [lookup_member env aetherId])%list) as (t & E & _);
      [auto with silent|].
    exists t. now rewrite E, <- app_assoc. }
  destruct (w h _) as [| | [|record records] |]; cbn [ret]; apply Hreply.
Qed.

Lemma search_found {R} (m : string -> option R) : forall s r,
  Js.search m s = Some r ->
  exists before rest, s = before ++ rest /\ m rest = Some r.
Proof.
  induction s as [|c s IH]; intros r; cbn [Js.search].
  - destruct (m "") eqn:E; [|discriminate]. intros [= <-]. now exists "", "".
  - destruct (m (String c s)) eqn:E.
    + intros [= <-]. now exists "", (String c s).
    + intros H. apply IH in H as (before & rest & -> & H).
      now exists (String c before), rest.
Qed.

Lemma four_alnum_split r :
  four_alnum r = true ->
  exists suffix after,
    r = suffix ++ after /\ (4 <= String.length suffix)%nat /\
    all_chars Js.is_alnum_i suffix = true.
Proof.
  destruct r as [|a [|b [|c [|d after]]]]; try discriminate. cbn [four_alnum].
  intros H. exists (String a (String b (String c (String d "")))), after.
  split; [reflexivity|]. split; [cbn; lia|].
  apply andb_prop in H as [H Hd]. apply andb_prop in H as [H Hc].
  apply andb_prop in H as [Ha Hb].
  cbn [all_chars]. now rewrite Ha, Hb, Hc, Hd.
Qed.

Lemma match_aeth_at_found s :
  match_aeth_at s = Some tt -> exists m after, s = m ++ after /\ is_code m.
Proof.
  destruct s as [|a [|e [|t [|h r]]]]; try discriminate. cbn [match_aeth_at].
  destruct (eqb_i a "A") eqn:Ha; [|discriminate].
  destruct (eqb_i e "E") eqn:He; [|discriminate].
  destruct (eqb_i t "T") eqn:Ht; [|discriminate].
  destruct (eqb_i h "H") eqn:Hh; [|discriminate]. cbn [andb].
  destruct (after_optional_hyphen r) eqn:Hr; [|discriminate]. intros _.
  assert ((exists r', r = String "-" r' /\ four_alnum r' = true) \/ four_alnum r = true)
    as [(r' & -> & H4) | H4].
  { destruct r as [|c r']; cbn [after_optional_hyphen] in Hr; [now right|].
    apply orb_prop in Hr as [Hr | Hr]; [|now right].
    apply andb_prop in Hr as [Hc H4]. apply Ascii.eqb_eq in Hc. subst c.
    left. now exists r'. }
  - apply four_alnum_split in H4 as (suffix & after & -> & Hlen & Hall).
    exists (String a (String e (String t (String h ("-" ++ suffix))))), after.
    split; [reflexivity|].
    exists a, e, t, h, "-", suffix. repeat split; try assumption. now right.
  - apply four_alnum_split in H4 as (suffix & after & -> & Hlen & Hall).
    exists (String a (String e (String t (String h ("" ++ suffix))))), after.
    split; [reflexivity|].
    exists a, e, t, h, "", suffix. repeat split; try assumption. now left.
Qed.

(** The test of the source succeeds only on a text that holds an identity
    code. *)
Lemma test_aeth_found s : test_aeth s = true -> contains_code s.
Proof.
  unfold test_aeth. destruct (Js.search match_aeth_at s) as [[]|] eqn:E; [|discriminate].
  intros _. apply search_found in E as (before & rest & -> & H).
  apply match_aeth_at_found in H as (m & after & -> & Hm).
  now exists before, m, after.
Qed.

(** C10. The identity-code check of free text is a containment test: it
    succeeds exactly on the texts that hold an identity code somewhere.  A
    text that does not start with a slash, is not the admin phrase and holds
    an identity code anywhere is verified as a whole: the handler does what
    [handleVerification] does for the entire text, and with the members
    table configured its first call looks up the members whose upper-cased
    code equals the entire text, upper-cased.  A text of that kind without
    an identity code is not verified: nothing is looked up. *)
Theorem free_text_code_verified_whole env msg body w :
  token_set env = true ->
  text msg = Some body ->
  Js.startsWith "/" body = false ->
  is_admin_phrase env body = false ->
  (test_aeth body = true <-> contains_code body) /\
  (contains_code body ->
   POST env (Some msg) w
   = (status_ok, snd (handleVerification env (chat_id (chat msg)) (Some body) w [])) /\
   (members_ready env = true ->
    exists t, snd (POST env (Some msg) w) = lookup_member env body :: t)) /\
  (~ contains_code body ->
   count_calls is_datastore (snd (POST env (Some msg) w)) = 0%nat).
Proof.
  intros Htok Ht Hslash Hphrase.
  assert (default "" (text msg) = body) as Hbody by now rewrite Ht.
  assert (POST env (Some msg) w
          = (if test_aeth body
             then (status_ok,
                   snd (handleVerification env (chat_id (chat msg)) (Some body) w []))
             else (status_ok,
                   if is_private (chat_type (chat msg))
                   then [sendMessage_call (chat_id (chat msg))
                           "Hi there! I can only respond to commands right now. Try `/start` to see your options."
                           None None]
                   else []))) as Hrun.
  { unfold POST. fold (token_set env). rewrite Htok. cbn [negb].
    rewrite handle_run, moderation_run, Hbody, Hslash, andb_false_r.
    unfold free_text. cbv zeta. rewrite Hbody.
    fold (is_admin_phrase env body). rewrite Hphrase.
    rewrite bind_run. destruct (test_aeth body).
    - pose proof (handleVerification_returns env (chat_id (chat msg)) (Some body) w [])
        as Hret.
      destruct (handleVerification _ _ _ _ _) as [[[]|] t];
        [reflexivity|discriminate Hret].
    - destruct (is_private _); [|reflexivity].
      now rewrite sendMessage_run, Htok. }
  split; [split; [apply test_aeth_found | apply test_aeth_contains]|].
  split.
  - intros Hcode. pose proof (test_aeth_contains _ Hcode) as Htest.
    rewrite Hrun, Htest. split; [reflexivity|].
    intros Hready. cbn [snd].
    destruct (handleVerification_lookup env (chat_id (chat msg)) body w [] Hready Htest)
      as (t & ->).
    now exists t.
  - intros Hnone. rewrite Hrun.
    destruct (test_aeth body) eqn:Htest; [now apply test_aeth_found in Htest|].
    now destruct (is_private _).
Qed.

Lemma free_text_code_verified_whole_witness :
  contains_code "my id is aeth-12ab, thanks" /\
  (exists t,
      snd (POST demo_env (Some (group_message 8 "my id is aeth-12ab, thanks" None))
             group_world)
      = select_call "members"
          (Some ("UPPER({aetherId}) = " ++ dq ++ "MY ID IS AETH-12AB, THANKS" ++ dq))
          None (Some 1%Z) :: t) /\
  ~ contains_code "AETH-12" /\
  count_calls is_datastore
    (snd (POST demo_env (Some (group_message 8 "AETH-12" None)) group_world)) = 0%nat.
Proof.
  pose proof (free_text_code_verified_whole demo_env
                (group_message 8 "my id is aeth-12ab, thanks" None)
                "my id is aeth-12ab, thanks" group_world
                eq_refl eq_refl eq_refl eq_refl) as (Hiff & Hcode & _).
  pose proof (free_text_code_verified_whole demo_env
                (group_message 8 "AETH-12" None) "AETH-12" group_world
                eq_refl eq_refl eq_refl eq_refl) as (Hiff' & _ & Hnone).
  assert (contains_code "my id is aeth-12ab, thanks") as Hc
    by (apply Hiff; reflexivity).
  assert (~ contains_code "AETH-12") as Hn
    by (intros H; apply Hiff' in H; discriminate H).
  split; [exact Hc|]. split; [|split; [exact Hn|exact (Hnone Hn)]].
  apply (proj2 (Hcode Hc)). reflexivity.
Defined.

(** * Further properties of the handlers *)

(** ** The duration parser *)





(** ** The argument parser *)

Lemma tokens_stored fuel : forall s,
  Forall (fun kv => stored_pair kv.1 kv.2 \/ kv.1 = "__proto__") (scan_tokens fuel s).
Proof.
  induction fuel as [|fuel IH]; intros s; cbn [scan_tokens]; [constructor|].
  destruct (token_at s) as [[[key value] rest]|] eqn:E.
  - constructor; [|apply IH].
    apply token_at_shape in E as (_ & Hk & Hv & Hkw & Hvq). cbn [fst snd].
    destruct (String.eqb_spec key "__proto__"); [now right|].
    left. repeat split; assumption.
  - destruct s; [constructor | apply IH].
Qed.

Lemma assign_all_stored toks : forall args,
  Forall (fun kv => stored_pair kv.1 kv.2 \/ kv.1 = "__proto__") toks ->
  (forall k v, args !! k = Some v -> stored_pair k v) ->
  forall k v, assign_all toks args !! k = Some v -> stored_pair k v.
Proof.
  induction toks as [|[key value] toks IH]; intros args Htoks Hargs k v;
    [apply Hargs|].
  inversion Htoks as [|? ? Hhd Htl]; subst. cbn [fst snd] in Hhd.
  cbn [assign_all fold_left fst snd]. apply (IH _ Htl). clear k v.
  intros k v. unfold obj_set.
  destruct (String.eqb_spec key "__proto__") as [->|Hne]; [apply Hargs|].
  destruct Hhd as [Hst | ->]; [|contradiction].
  destruct (decide (key = k)) as [->|Hk].
  - rewrite lookup_insert_eq. now intros [= <-].
  - rewrite lookup_insert_ne by exact Hk. apply Hargs.
Qed.

(** X2. Whatever the text, every entry of the mapping that [parseCommandArgs]
    returns has a non-empty key of word characters other than [__proto__]
    and a non-empty value without a double quote. *)
Theorem parseCommandArgs_entries text k v :
  parseCommandArgs text !! k = Some v -> stored_pair k v.
Proof.
  rewrite parseCommandArgs_tokens. apply assign_all_stored.
  - apply tokens_stored.
  - intros k' v' H. rewrite lookup_empty in H. discriminate H.
Qed.

Lemma parseCommandArgs_entries_witness :
  stored_pair "code" "wad25".
Proof.
  apply (parseCommandArgs_entries
           ("title=" ++ dq ++ dq ++ " code=" ++ dq ++ "wad25" ++ dq) "code" "wad25").
  rewrite parseCommandArgs_tokens. reflexivity.
Defined.

(** ** The command and its arguments *)

Lemma split_space_cons c s :
  Js.split_space (String c s) =
  if Ascii.eqb c " " then EmptyString :: Js.split_space s
  else String c (command_of s) :: args_of s.
Proof.
  unfold command_of, args_of. cbn [Js.split_space].
  destruct (Ascii.eqb c " "); [reflexivity|].
  now destruct (Js.split_space s).
Qed.

Lemma split_space_parts s : Js.split_space s = command_of s :: args_of s.
Proof.
  destruct s as [|c s]; [reflexivity|]. rewrite split_space_cons.
  unfold command_of, args_of. rewrite split_space_cons.
  now destruct (Ascii.eqb c " ").
Qed.

Lemma join_space_cons w ws :
  Js.join_space (w :: ws) =
  match ws with [] => w | _ => w ++ " " ++ Js.join_space ws end.
Proof. now destruct ws. Qed.

Lemma join_split s : Js.join_space (Js.split_space s) = s.
Proof.
  induction s as [|c s IH]; [reflexivity|].
  rewrite split_space_cons. rewrite split_space_parts in IH.
  destruct (Ascii.eqb_spec c " ") as [->|Hc].
  - rewrite split_space_parts, join_space_cons, IH. reflexivity.
  - rewrite join_space_cons. rewrite join_space_cons in IH.
    destruct (args_of s); cbn [String.append] in *; now rewrite IH.
Qed.

Lemma command_of_no_space s : no_space (command_of s) = true.
Proof.
  unfold no_space. induction s as [|c s IH]; [reflexivity|].
  rewrite command_of_cons. destruct (Ascii.eqb c " ") eqn:E; [reflexivity|].
  cbn [all_chars]. now rewrite E, IH.
Qed.

(** X3. The split of a text into the command and its arguments loses
    nothing: the command holds no space, and the text is the command alone
    when there is no argument, and otherwise the command, one space and the
    arguments joined by spaces (the argument string that [/createevent]
    parses). *)
Theorem command_and_arguments body :
  no_space (command_of body) = true /\
  body = match args_of body with
         | [] => command_of body
         | args => command_of body ++ " " ++ Js.join_space args
         end.
Proof.
  split; [apply command_of_no_space|].
  pose proof (join_split body) as H. rewrite split_space_parts, join_space_cons in H.
  now destruct (args_of body).
Qed.

(** ** The fields of an update *)

Lemma truthy_show o : Js.truthy o = true -> Js.show o <> "".
Proof.
  destruct o as [s|]; [|discriminate]. cbn.
  destruct (String.eqb_spec s ""); [discriminate | auto].
Qed.

(** X4. An update of an event never touches the event code and never
    publishes: every field that [updateEvent] writes is a non-empty title,
    date, description or registration link, or [Published] set to false. *)
Theorem fieldsToUpdate_fields args name value :
  In (name, value) (fieldsToUpdate args) ->
  updatable_field name value /\ name <> "EventCode".
Proof.
  unfold fieldsToUpdate. intros H.
  assert (updatable_field name value) as Hu.
  { repeat (apply in_app_or in H as [H | H]);
      match type of H with
      | In _ (if ?b then _ else _) => destruct b eqn:E; [|destruct H]
      end;
      destruct H as [[= <- <-] | []].
    - right. split; [tauto|]. eexists; split; [reflexivity|]. now apply truthy_show.
    - right. split; [tauto|]. eexists; split; [reflexivity|]. now apply truthy_show.
    - right. split; [tauto|]. eexists; split; [reflexivity|]. now apply truthy_show.
    - right. split; [tauto|]. eexists; split; [reflexivity|]. now apply truthy_show.
    - left. now split. }
  split; [exact Hu|].
  destruct Hu as [[-> _] | [[-> | [-> | [-> | ->]]] _]]; discriminate.
Qed.

Lemma fieldsToUpdate_fields_witness :
  updatable_field "Published" (FBool false) /\ "Published" <> "EventCode".
Proof.
  apply (fieldsToUpdate_fields
           (<["status" := "Closed"]> (<["code" := "new"]> ∅)) "Published" (FBool false)).
  left. reflexivity.
Defined.

(** ** Letter case of codes *)

(** X5. Member codes and event codes are handled without regard to letter
    case: two spellings with the same upper-case form make [verifyMember]
    and [updateEvent] issue the same calls and give the same results, and a
    code behaves as its upper-case form. *)
Theorem codes_ignore_case env a b :
  toUpperCase env a = toUpperCase env b ->
  verifyMember env a = verifyMember env b /\
  (forall args, updateEvent env a args = updateEvent env b args) /\
  verifyMember env (toUpperCase env a) = verifyMember env a.
Proof.
  intros H. unfold verifyMember, updateEvent, member_formula, event_formula.
  rewrite toUpperCase_twice, H. repeat split.
Qed.

Lemma codes_ignore_case_witness :
  verifyMember demo_env "aeth-12ab" = verifyMember demo_env "AETH-12Ab".
Proof.
  apply (codes_ignore_case demo_env "aeth-12ab" "AETH-12Ab"). reflexivity.
Defined.

(** ** Moderation by administrators *)

Lemma POST_run env msg w :
  token_set env = true ->
  POST env (Some msg) w =
  match handle env msg w [] with
  | (Ret r, t) => (r, t)
  | (Throw, t) => (status_500, t)
  end.
Proof. intros H. unfold POST. fold (token_set env). now rewrite H. Qed.

Lemma fetch_run c w h :
  fetch_ c w h = (if rejected (w h c) then Throw else Ret tt, (h ++ [c])%list).
Proof. unfold fetch_. rewrite bind_run. unfold call. now destruct (w h c). Qed.

Lemma command_slash body :
  Js.startsWith "/" (command_of body) = true -> Js.startsWith "/" body = true.
Proof.
  destruct body as [|c body]; [discriminate|]. rewrite command_of_cons.
  now destruct (Ascii.eqb c " ").
Qed.

Lemma moderation_command_slash body :
  Js.includes moderation_commands (command_of body) = true ->
  Js.startsWith "/" body = true.
Proof.
  intros H. apply command_slash. unfold Js.includes in H.
  apply existsb_exists in H as (lit & Hin & Heq). apply String.eqb_eq in Heq.
  rewrite Heq. cbn in Hin.
  repeat (destruct Hin as [<- | Hin]; [reflexivity|]). destruct Hin.
Qed.

(** The moderation block for a sender whom the first query reports as an
    administrator. *)
Lemma moderation_admin env msg w :
  is_private (chat_type (chat msg)) = false ->
  (chat_id (chat msg) >? 0) = false ->
  Js.startsWith "/" (default "" (text msg)) = true ->
  member_is_admin
    (w [] (getChatMember_call (chat_id (chat msg)) (user_id (from msg)))) = true ->
  moderation env msg w [] =
  moderate env msg w [getChatMember_call (chat_id (chat msg)) (user_id (from msg))].
Proof.
  intros Hp Hchat Hslash Hs. rewrite moderation_run, Hp, Hslash, Hchat.
  cbn [negb andb]. cbv zeta. now rewrite Hs.
Qed.

(** X6. With the bot token configured, in a chat that is not private and has no
    positive id: a moderation command that a sender reported as
    administrator does not send as a reply is answered by the usage error alone: handling stops there, nothing is
    banned, restricted or deleted, and the role of the sender is not resolved
    a second time. *)
Theorem moderation_needs_reply env msg body w :
  let qs := getChatMember_call (chat_id (chat msg)) (user_id (from msg)) in
  token_set env = true ->
  is_private (chat_type (chat msg)) = false ->
  (chat_id (chat msg) >? 0) = false ->
  text msg = Some body ->
  Js.includes moderation_commands (command_of body) = true ->
  reply_to_message msg = None ->
  member_is_admin (w [] qs) = true ->
  POST env (Some msg) w =
  (status_ok,
   [qs; sendMessage_call (chat_id (chat msg))
          "This command must be used as a reply to a user's message."
          (reply_to_field (Some (message_id msg))) None]).
Proof.
  intros qs Htok Hp Hchat Ht Hcmd Hr Hs.
  assert (default "" (text msg) = body) as Hbody by now rewrite Ht.
  rewrite (POST_run _ _ _ Htok), handle_run.
  rewrite moderation_admin; try assumption;
    [|rewrite Hbody; now apply moderation_command_slash].
  unfold moderate. cbv zeta. rewrite Hbody, Hr, Hcmd.
  cbn [fmap option_fmap option_map Js.undefined andb].
  now rewrite bind_run, sendMessage_run, Htok.
Qed.

Lemma moderation_needs_reply_witness :
  POST demo_env (Some (group_message 7 "/del" None)) group_world
  = (status_ok,
     [getChatMember_call (-1001) 7;
      sendMessage_call (-1001)
        "This command must be used as a reply to a user's message." (Some 77) None]).
Proof.
  apply (moderation_needs_reply demo_env (group_message 7 "/del" None) "/del"
           group_world); reflexivity.
Defined.

Lemma moderate_ban env msg replied :
  command_of (default "" (text msg)) = "/ban" ->
  reply_to_message msg = Some replied ->
  moderate env msg =
  ((isTargetAdmin <- isUserAdmin (chat_id (chat msg)) (user_id (from replied)) ;;
    if isTargetAdmin then
      sendMessage env (chat_id (chat msg))
        "This command cannot be used on an administrator." (Some (message_id msg)) None
    else banUser env (chat_id (chat msg)) (user_id (from replied))
           (Js.join_space (args_of (default "" (text msg))))) ;;;
   ret None).
Proof.
  intros Hc Hr. unfold moderate. cbv zeta. rewrite Hc, Hr. reflexivity.
Qed.

Lemma commands_after_moderation env msg command w h :
  is_private (chat_type (chat msg)) = false ->
  (chat_id (chat msg) >? 0) = false ->
  command_of (default "" (text msg)) = command ->
  Js.includes (private_only_commands ++ adminEventCommands ++ general_commands)%list
    command = false ->
  commands env msg w h = (Ret status_ok, (h ++ second_resolution msg)%list).
Proof.
  intros Hp Hchat Hcmd Hinc. rewrite commands_unknown; [|exact Hp|now rewrite Hcmd].
  rewrite Hchat, andb_true_r. unfold second_resolution.
  destruct (_ <? 0); [reflexivity | now rewrite app_nil_r].
Qed.

(** X7. With the bot token configured, in a chat that is not private and has no
    positive id: an administrator is neither banned nor muted
    through the bot.  When the sender is reported as administrator and
    the target of the reply is reported as a creator or an administrator,
    [/ban] and [/mute] are answered by a refusal, and nothing else is called
    but the queries for the roles. *)
Theorem administrators_are_protected env msg body replied w :
  let qs := getChatMember_call (chat_id (chat msg)) (user_id (from msg)) in
  let qt := getChatMember_call (chat_id (chat msg)) (user_id (from replied)) in
  token_set env = true ->
  is_private (chat_type (chat msg)) = false ->
  (chat_id (chat msg) >? 0) = false ->
  text msg = Some body ->
  command_of body = "/ban" \/ command_of body = "/mute" ->
  reply_to_message msg = Some replied ->
  member_is_admin (w [] qs) = true ->
  member_is_admin (w [qs] qt) = true ->
  POST env (Some msg) w =
  (status_ok,
   ([qs; qt;
     sendMessage_call (chat_id (chat msg))
       "This command cannot be used on an administrator."
       (reply_to_field (Some (message_id msg))) None]
    ++ second_resolution msg)%list).
Proof.
  intros qs qt Htok Hp Hchat Ht Hcmd Hr Hs Htarget.
  assert (default "" (text msg) = body) as Hbody by now rewrite Ht.
  assert (Js.startsWith "/" body = true) as Hslash
    by (apply command_slash; now destruct Hcmd as [-> | ->]).
  rewrite (POST_run _ _ _ Htok), handle_run.
  rewrite moderation_admin; try assumption; [|now rewrite Hbody].
  fold qs. rewrite Hbody, Hslash.
  destruct Hcmd as [Hcmd | Hcmd].
  - rewrite (moderate_ban env msg replied) by (rewrite ?Hbody; assumption).
    rewrite !bind_run, isUserAdmin_run, Hchat. fold qt. cbn [app]. rewrite Htarget.
    rewrite sendMessage_run, Htok. cbn [ret].
    rewrite (commands_after_moderation env msg "/ban"); try assumption;
      [reflexivity | now rewrite Hbody | reflexivity].
  - rewrite (moderate_mute env msg replied) by (rewrite ?Hbody; assumption).
    rewrite !bind_run, isUserAdmin_run, Hchat. fold qt. cbn [app]. rewrite Htarget.
    rewrite sendMessage_run, Htok. cbn [ret].
    rewrite (commands_after_moderation env msg "/mute"); try assumption;
      [reflexivity | now rewrite Hbody | reflexivity].
Qed.

Lemma administrators_are_protected_witness :
  POST demo_env
    (Some (group_message 7 "/ban now" (Some (group_message 6 "hello" None))))
    group_world
  = (status_ok,
     [getChatMember_call (-1001) 7; getChatMember_call (-1001) 6;
      sendMessage_call (-1001) "This command cannot be used on an administrator."
        (Some 77) None;
      getChatMember_call (-1001) 7]).
Proof.
  apply (administrators_are_protected demo_env
           (group_message 7 "/ban now" (Some (group_message 6 "hello" None)))
           "/ban now" (group_message 6 "hello" None) group_world);
    solve [reflexivity | left; reflexivity].
Defined.

(** The text of the confirmation of a mute of less than 2^53 seconds. *)
Lemma durationText_small seconds :
  0 <= seconds < 2 ^ 53 ->
  (if Js.geb seconds 86400
   then Js.to_string (Js.floor_div seconds 86400) ++ " days"
   else Js.to_string (Js.floor_div seconds 3600) ++ " hours")
  = (if seconds >=? 86400
     then string_of_Z (seconds / 86400) ++ " days"
     else string_of_Z (seconds / 3600) ++ " hours").
Proof.
  intros Hs. cbn [Js.geb]. rewrite Z.geb_leb.
  rewrite !floor_div_small by lia.
  assert (seconds / 86400 < 2 ^ 53)
    by (apply Z.div_lt_upper_bound; lia).
  assert (seconds / 3600 < 2 ^ 53)
    by (apply Z.div_lt_upper_bound; lia).
  now rewrite !to_string_small by assumption.
Qed.

(** X8. With the bot token configured, in a chat that is not private and has no
    positive id: a [/mute] with a valid duration, sent by an administrator as a reply
    to a user who is no administrator, requests the restriction until now
    plus the parsed seconds, with the right to send messages withdrawn,
    when that date is below 2^53 (where the arithmetic of the source is
    exact); the confirmation follows only when that request did not fail,
    and a failed request makes the webhook answer 500 without any reply. *)
Theorem mute_applied env msg body arg replied seconds w :
  let chatId := chat_id (chat msg) in
  let qs := getChatMember_call chatId (user_id (from msg)) in
  let qt := getChatMember_call chatId (user_id (from replied)) in
  let restriction :=
    restrictChatMember_call chatId (user_id (from replied)) muted
      (Some (Js.Finite (now_seconds env + seconds))) in
  token_set env = true ->
  is_private (chat_type (chat msg)) = false ->
  (chatId >? 0) = false ->
  text msg = Some body ->
  command_of body = "/mute" ->
  nth_error (args_of body) 0 = Some arg ->
  parseMuteDuration arg = Js.Finite seconds ->
  0 < seconds ->
  0 <= now_seconds env ->
  now_seconds env + seconds < 2 ^ 53 ->
  reply_to_message msg = Some replied ->
  member_is_admin (w [] qs) = true ->
  member_is_admin (w [qs] qt) = false ->
  POST env (Some msg) w =
  if rejected (w [qs; qt] restriction)
  then (status_500, [qs; qt; restriction])
  else (status_ok,
        ([qs; qt; restriction;
          sendMessage_call chatId
            (mute_confirmation seconds (Js.join_space (tl (args_of body)))) None None]
         ++ second_resolution msg)%list).
Proof.
  intros chatId qs qt restriction Htok Hp Hchat Ht Hcmd Harg Hdur Hpos Hnow Hsum
    Hr Hs Htarget.
  assert (default "" (text msg) = body) as Hbody by now rewrite Ht.
  assert (Js.startsWith "/" body = true) as Hslash
    by (apply command_slash; now rewrite Hcmd).
  rewrite (POST_run _ _ _ Htok), handle_run.
  rewrite moderation_admin; try assumption; [|now rewrite Hbody].
  fold chatId qs. rewrite Hbody, Hslash.
  rewrite (moderate_mute env msg replied) by (rewrite ?Hbody; assumption).
  rewrite !bind_run, isUserAdmin_run. fold chatId. rewrite Hchat. fold qt. cbn [app].
  rewrite Htarget. unfold mute_target. rewrite Hbody, Harg.
  cbn [parseMuteDuration_of]. rewrite bind_ret_l, Hdur.
  cbn [Js.positive]. rewrite (proj2 (Z.ltb_lt 0 seconds) Hpos).
  unfold muteUser. cbv zeta.
  rewrite add_small by exact Hsum.
  rewrite durationText_small by lia.
  rewrite bind_run, fetch_run. fold chatId restriction.
  destruct (rejected (w [qs; qt] restriction)); [reflexivity|].
  rewrite sendMessage_run, Htok. cbn [ret reply_to_field].
  rewrite (commands_after_moderation env msg "/mute"); try assumption;
    [reflexivity | now rewrite Hbody | reflexivity].
Qed.

Lemma mute_applied_witness :
  POST demo_env
    (Some (group_message 7 "/mute 30m flood" (Some (group_message 9 "buy now" None))))
    group_world
  = (status_ok,
     [getChatMember_call (-1001) 7; getChatMember_call (-1001) 9;
      restrictChatMember_call (-1001) 9 muted (Some (Js.Finite 1700001800));
      sendMessage_call (-1001) "User has been muted for 0 hours. Reason: flood" None None;
      getChatMember_call (-1001) 7]).
Proof.
  apply (mute_applied demo_env
           (group_message 7 "/mute 30m flood" (Some (group_message 9 "buy now" None)))
           "/mute 30m flood" "30m" (group_message 9 "buy now" None) 1800 group_world);
    reflexivity || (cbn; lia).
Defined.

(** Beyond 2^53 the source goes on with rounded numbers: the digits
    9007199254740993 are read as 2^53, and the mute lasts the nearest
    double of seconds. *)
Lemma mute_beyond_2_53_run :
  POST demo_env
    (Some (group_message 7 "/mute 9007199254740993m" (Some (earlier_message 9 "buy now"))))
    group_world
  = (status_ok,
     [getChatMember_call (-1001) 7; getChatMember_call (-1001) 9;
      restrictChatMember_call (-1001) 9 muted (Some (Js.Finite 540431956984459520));
      sendMessage_call (-1001) "User has been muted for 6254999482459 days. " None None;
      getChatMember_call (-1001) 7]).
Proof. vm_compute. reflexivity. Qed.

(** X9. With the bot token configured, in a chat that is not private and has no
    positive id: a [/ban] sent by an administrator as a reply to a user who is no
    administrator requests the ban of that user and, when the request did
    not fail, confirms it with the rest of the text as the reason; a failed
    request makes the webhook answer 500 without any reply. *)
Theorem ban_applied env msg body replied w :
  let chatId := chat_id (chat msg) in
  let qs := getChatMember_call chatId (user_id (from msg)) in
  let qt := getChatMember_call chatId (user_id (from replied)) in
  let ban := banChatMember_call chatId (user_id (from replied)) in
  token_set env = true ->
  is_private (chat_type (chat msg)) = false ->
  (chatId >? 0) = false ->
  text msg = Some body ->
  command_of body = "/ban" ->
  reply_to_message msg = Some replied ->
  member_is_admin (w [] qs) = true ->
  member_is_admin (w [qs] qt) = false ->
  POST env (Some msg) w =
  if rejected (w [qs; qt] ban)
  then (status_500, [qs; qt; ban])
  else (status_ok,
        ([qs; qt; ban;
          sendMessage_call chatId (ban_confirmation (Js.join_space (args_of body)))
            None None]
         ++ second_resolution msg)%list).
Proof.
  intros chatId qs qt ban Htok Hp Hchat Ht Hcmd Hr Hs Htarget.
  assert (default "" (text msg) = body) as Hbody by now rewrite Ht.
  assert (Js.startsWith "/" body = true) as Hslash
    by (apply command_slash; now rewrite Hcmd).
  rewrite (POST_run _ _ _ Htok), handle_run.
  rewrite moderation_admin; try assumption; [|now rewrite Hbody].
  fold chatId qs. rewrite Hbody, Hslash.
  rewrite (moderate_ban env msg replied) by (rewrite ?Hbody; assumption).
  rewrite !bind_run, isUserAdmin_run. fold chatId. rewrite Hchat. fold qt. cbn [app].
  rewrite Htarget. unfold banUser. rewrite bind_run, fetch_run. fold chatId ban.
  destruct (rejected (w [qs; qt] ban)); [reflexivity|].
  rewrite sendMessage_run, Htok, Hbody. cbn [ret reply_to_field].
  rewrite (commands_after_moderation env msg "/ban"); try assumption;
    [reflexivity | now rewrite Hbody | reflexivity].
Qed.

Lemma ban_applied_witness :
  POST demo_env
    (Some (group_message 7 "/ban spam links" (Some (group_message 9 "buy now" None))))
    group_world
  = (status_ok,
     [getChatMember_call (-1001) 7; getChatMember_call (-1001) 9;
      banChatMember_call (-1001) 9;
      sendMessage_call (-1001) "User has been banned. Reason: spam links" None None;
      getChatMember_call (-1001) 7]).
Proof.
  apply (ban_applied demo_env
           (group_message 7 "/ban spam links" (Some (group_message 9 "buy now" None)))
           "/ban spam links" (group_message 9 "buy now" None) group_world);
    reflexivity.
Defined.

(** ** Commands outside the vocabulary, and commands of others *)

(** The check that guards the event commands yields a verdict and asks for
    the role of the sender exactly when the chat identifier is negative. *)
Lemma sender_check_run env msg w h :
  exists verdict,
    (if chat_id (chat msg) <? 0
     then isUserAdmin (chat_id (chat msg)) (user_id (from msg))
     else ret (bool_decide (admin_id_number env = Some (user_id (from msg))))) w h
    = (Ret verdict, (h ++ second_resolution msg)%list) /\
    ((forall h', member_is_admin
                   (w h' (getChatMember_call (chat_id (chat msg)) (user_id (from msg))))
                 = false) ->
     admin_id_number env <> Some (user_id (from msg)) -> verdict = false).
Proof.
  unfold second_resolution. destruct (chat_id (chat msg) <? 0) eqn:E.
  - rewrite isUserAdmin_run.
    assert ((chat_id (chat msg) >? 0) = false) as ->.
    { apply Z.ltb_lt in E. destruct (Z.gtb_spec (chat_id (chat msg)) 0); [lia|reflexivity]. }
    eexists. split; [reflexivity|]. intros Hq _. apply Hq.
  - eexists. split; [cbn; now rewrite app_nil_r|]. intros _ Hne.
    now apply bool_decide_eq_false.
Qed.

Lemma general_switch_sorry env msg command args :
  Js.includes general_commands command = false ->
  Js.includes moderation_commands command = false ->
  Js.includes adminEventCommands command = false ->
  is_private (chat_type (chat msg)) = true ->
  general_switch env msg command args =
  sendMessage env (chat_id (chat msg)) "Sorry, I don't recognize that command." None None.
Proof.
  unfold general_commands. rewrite !includes_cons. intros H Hm Ha Hp.
  repeat (apply orb_false_elim in H as [? H]).
  unfold general_switch. cbv zeta.
  repeat match goal with E : String.eqb command _ = false |- _ => rewrite E; clear E end.
  now rewrite Hp, Hm, Ha.
Qed.

Lemma general_switch_event_command env msg command args :
  Js.includes adminEventCommands command = true ->
  general_switch env msg command args = ret tt.
Proof.
  intros Ha.
  assert (Js.includes general_commands command = false) as H.
  { unfold Js.includes in Ha. apply existsb_exists in Ha as (lit & Hin & Heq).
    apply String.eqb_eq in Heq. subst lit. cbn in Hin.
    repeat (destruct Hin as [<- | Hin]; [reflexivity|]). destruct Hin. }
  unfold general_commands in H. rewrite !includes_cons in H.
  repeat (apply orb_false_elim in H as [? H]).
  unfold general_switch. cbv zeta.
  repeat match goal with E : String.eqb command _ = false |- _ => rewrite E; clear E end.
  rewrite Ha. now destruct (_ && _).
Qed.

Lemma event_command_not_private_only command :
  Js.includes adminEventCommands command = true ->
  Js.includes private_only_commands command = false.
Proof.
  unfold Js.includes at 1. intros H.
  apply existsb_exists in H as (lit & Hin & Heq).
  apply String.eqb_eq in Heq. subst lit.
  cbn in Hin. repeat (destruct Hin as [<- | Hin]; [reflexivity|]). destruct Hin.
Qed.

(** X10. A command outside the vocabulary is ignored in a chat that is not
    private, whoever sends it: nothing is called but the queries for the
    role of the sender.  In a private chat, with the bot token configured,
    it is answered by exactly one reply, that the command is not
    recognized. *)
Theorem unknown_command env msg body w :
  let qs := getChatMember_call (chat_id (chat msg)) (user_id (from msg)) in
  text msg = Some body ->
  Js.startsWith "/" body = true ->
  Js.includes known_commands (command_of body) = false ->
  (is_private (chat_type (chat msg)) = false ->
   forall c, In c (snd (POST env (Some msg) w)) -> c = qs) /\
  (is_private (chat_type (chat msg)) = true -> token_set env = true ->
   POST env (Some msg) w =
   (status_ok,
    (second_resolution msg
     ++ [sendMessage_call (chat_id (chat msg))
           "Sorry, I don't recognize that command." None None])%list)).
Proof.
  intros qs Ht Hslash Hinc.
  assert (default "" (text msg) = body) as Hbody by now rewrite Ht.
  unfold known_commands in Hinc. rewrite !includes_app in Hinc.
  apply orb_false_elim in Hinc as [Hm Hinc].
  apply orb_false_elim in Hinc as [Hpo Hinc].
  apply orb_false_elim in Hinc as [Ha Hg].
  split.
  - intros Hp c. rewrite POST_trace. destruct (token_set env); [|intros []].
    rewrite handle_run, moderation_run, Hbody, Hp, Hslash. cbn [negb andb].
    assert (forall h, (forall x, In x h -> x = qs) ->
              In c (snd (commands env msg w h)) -> c = qs) as Hrest.
    { intros h Hh. rewrite commands_unknown; [|exact Hp|].
      - destruct (_ && _); cbn [snd]; [|apply Hh].
        intros Hc. apply in_app_or in Hc as [Hc | [<- | []]];
          [now apply Hh | reflexivity].
      - rewrite Hbody, !includes_app, Hpo, Ha, Hg. reflexivity. }
    destruct (_ >? 0); [apply (Hrest []); now intros x []|].
    cbv zeta. fold qs. destruct (member_is_admin _).
    + rewrite moderate_other by now rewrite Hbody.
      apply (Hrest ([] ++ [qs])%list). now intros x [<- | []].
    + apply (Hrest ([] ++ [qs])%list). now intros x [<- | []].
  - intros Hp Htok. rewrite (POST_run _ _ _ Htok), handle_run, moderation_run.
    rewrite Hbody, Hp, Hslash. cbn [negb andb].
    unfold commands. cbv zeta. rewrite Hbody, Hp. cbn [negb andb].
    rewrite bind_run.
    destruct (sender_check_run env msg w []) as (verdict & -> & _).
    rewrite (admin_event_switch_unknown _ _ _ _ Ha).
    rewrite (general_switch_sorry _ _ _ _ Hg Hm Ha Hp).
    assert ((if verdict then ret None else ret None)
            = @ret (option HttpResponse) None) as -> by now destruct verdict.
    rewrite bind_ret_l, bind_run, sendMessage_run, Htok. reflexivity.
Qed.

Lemma unknown_command_witness :
  List.Forall (fun c => c = getChatMember_call (-1001) 7)
    (snd (POST demo_env (Some (group_message 7 "/dance" None)) group_world)) /\
  POST demo_env (Some (private_message 5 "/dance")) group_world
  = (status_ok, [sendMessage_call 5 "Sorry, I don't recognize that command." None None]).
Proof.
  split.
  - apply List.Forall_forall.
    apply (proj1 (unknown_command demo_env (group_message 7 "/dance" None) "/dance"
                    group_world eq_refl eq_refl eq_refl)).
    reflexivity.
  - apply (proj2 (unknown_command demo_env (private_message 5 "/dance") "/dance"
                    group_world eq_refl eq_refl eq_refl)); reflexivity.
Defined.

(** X11. The event commands ([/createevent], [/updateevent], [/closeevent],
    [/listevents], [/registrations]) of a sender who is neither reported as
    an administrator of the chat nor the configured super admin do nothing
    at all, in any chat: no reply is sent and Airtable is not called; the
    only calls are the queries for the role of the sender. *)
Theorem event_commands_need_privilege env msg body w :
  let qs := getChatMember_call (chat_id (chat msg)) (user_id (from msg)) in
  text msg = Some body ->
  Js.includes adminEventCommands (command_of body) = true ->
  (forall h, unprivileged_reply (w h qs)) ->
  admin_id_number env <> Some (user_id (from msg)) ->
  forall c, In c (snd (POST env (Some msg) w)) -> c = qs.
Proof.
  intros qs Ht Ha Hrole Hsuper c.
  assert (default "" (text msg) = body) as Hbody by now rewrite Ht.
  assert (Js.startsWith "/" body = true) as Hslash.
  { apply command_slash. unfold Js.includes in Ha.
    apply existsb_exists in Ha as (lit & Hin & Heq). apply String.eqb_eq in Heq.
    rewrite Heq. cbn in Hin.
    repeat (destruct Hin as [<- | Hin]; [reflexivity|]). destruct Hin. }
  rewrite POST_trace. destruct (token_set env); [|intros []].
  rewrite handle_run, moderation_run, Hbody, Hslash, andb_true_r.
  assert (forall h, (forall x, In x h -> x = qs) ->
            In c (snd (commands env msg w h)) -> c = qs) as Hrest.
  { intros h Hh. unfold commands. cbv zeta.
    rewrite Hbody, (event_command_not_private_only _ Ha), andb_false_r, bind_run.
    destruct (sender_check_run env msg w h) as (verdict & -> & Hverdict).
    rewrite Hverdict;
      [|intros h'; apply unprivileged_not_admin, Hrole|exact Hsuper].
    rewrite bind_ret_l, (general_switch_event_command _ _ _ _ Ha), bind_ret_l.
    cbn [ret snd]. intros Hc. apply in_app_or in Hc as [Hc | Hc]; [now apply Hh|].
    unfold second_resolution in Hc. destruct (_ <? 0); [|destruct Hc].
    now destruct Hc as [<- | []]. }
  destruct (negb _); [|apply (Hrest []); now intros x []].
  destruct (_ >? 0); [apply (Hrest []); now intros x []|].
  cbv zeta. fold qs. rewrite (unprivileged_not_admin _ (Hrole [])).
  apply (Hrest ([] ++ [qs])%list). now intros x [<- | []].
Qed.

Lemma event_commands_need_privilege_witness :
  List.Forall (fun c => c = getChatMember_call 5 5)
    (snd (POST demo_env
            (Some (private_message 5 ("/createevent title=" ++ dq ++ "Party" ++ dq)))
            group_world)).
Proof.
  apply List.Forall_forall.
  apply (event_commands_need_privilege demo_env
           (private_message 5 ("/createevent title=" ++ dq ++ "Party" ++ dq))
           ("/createevent title=" ++ dq ++ "Party" ++ dq) group_world);
    try reflexivity; [|discriminate].
  intros h. right; right. exists true, (status_of "member").
  repeat split; discriminate.
Defined.

(** ** Free text *)

(** X12. With the bot token configured, a text that starts with no slash, is not the admin phrase and holds
    no identity code gets the help message in a private chat, and in any
    other chat no reply and no call at all. *)
Theorem plain_text_fallback env msg w :
  let body := default "" (text msg) in
  token_set env = true ->
  Js.startsWith "/" body = false ->
  is_admin_phrase env body = false ->
  test_aeth body = false ->
  POST env (Some msg) w =
  (status_ok,
   if is_private (chat_type (chat msg))
   then [sendMessage_call (chat_id (chat msg))
           "Hi there! I can only respond to commands right now. Try `/start` to see your options."
           None None]
   else []).
Proof.
  intros body Htok Hslash Hphrase Htest.
  rewrite (POST_run _ _ _ Htok), handle_run, moderation_run.
  fold body. rewrite Hslash, andb_false_r.
  unfold free_text. cbv zeta. fold body. fold (is_admin_phrase env body).
  rewrite Hphrase, Htest, bind_run.
  destruct (is_private _); [|reflexivity].
  now rewrite sendMessage_run, Htok.
Qed.

Lemma plain_text_fallback_witness :
  POST demo_env (Some (group_message 8 "good morning all" None)) group_world
  = (status_ok, []).
Proof.
  apply (plain_text_fallback demo_env (group_message 8 "good morning all" None)
           group_world); reflexivity.
Defined.

(** ** Submissions *)

Lemma logSubmission_run env telegramUserId submissionText type context w h :
  exists written,
    logSubmission env telegramUserId submissionText type context w h
    = (Ret written,
       if questions_ready env
       then (h ++ [submission_record env telegramUserId submissionText type context])%list
       else h).
Proof.
  unfold logSubmission, questions_ready.
  destruct (has_base env), (Js.truthy (AIRTABLE_QUESTIONS_TABLE_ID _));
    cbn [negb orb andb]; try (now eexists).
  rewrite bind_run. unfold call at 1. cbn [fst snd]. unfold submission_record.
  destruct (w h _); now eexists.
Qed.

Lemma general_switch_ask env msg args :
  general_switch env msg "/ask" args =
  if negb (Js.truthy (Some (Js.join_space args))) then
    sendMessage env (chat_id (chat msg)) "Usage: `/ask How do I join Horizon Studio?`"
      None None
  else
    logSubmission env (user_id (from msg)) (Js.join_space args) "Questions" "General" ;;;
    sendMessage env (chat_id (chat msg)) "Thanks! Your question has been submitted."
      None None.
Proof. reflexivity. Qed.

(** X13. With the bot token configured, in a private chat, [/ask] without a question is answered by the
    usage reply and writes nothing.  With a question, one submission record
    is written (the question, the kind, the sender and the context General)
    when the submissions table is configured, and the acknowledgement is
    sent in every case: also when the table is not configured or the write
    fails. *)
Theorem ask_acknowledged env msg body w :
  let question := Js.join_space (args_of body) in
  token_set env = true ->
  is_private (chat_type (chat msg)) = true ->
  text msg = Some body ->
  command_of body = "/ask" ->
  POST env (Some msg) w =
  (status_ok,
   (second_resolution msg ++
    (if String.eqb question ""
     then [sendMessage_call (chat_id (chat msg))
             "Usage: `/ask How do I join Horizon Studio?`" None None]
     else
       (if questions_ready env
        then [submission_record env (user_id (from msg)) question "Questions" "General"]
        else [])
       ++ [sendMessage_call (chat_id (chat msg))
             "Thanks! Your question has been submitted." None None]))%list).
Proof.
  intros question Htok Hp Ht Hcmd.
  assert (default "" (text msg) = body) as Hbody by now rewrite Ht.
  rewrite (POST_run _ _ _ Htok), handle_run, moderation_run, Hbody, Hp.
  cbn [negb andb].
  rewrite (command_slash body) by now rewrite Hcmd.
  unfold commands. cbv zeta. rewrite Hbody, Hp, Hcmd. cbn [negb andb].
  rewrite bind_run.
  destruct (sender_check_run env msg w []) as (verdict & -> & _).
  rewrite (admin_event_switch_unknown env msg "/ask") by reflexivity.
  assert ((if verdict then ret None else ret None)
          = @ret (option HttpResponse) None) as -> by now destruct verdict.
  rewrite bind_ret_l, bind_run, general_switch_ask. fold question.
  cbn [Js.truthy]. destruct (String.eqb question ""); cbn [negb].
  - now rewrite sendMessage_run, Htok.
  - rewrite bind_run.
    destruct (logSubmission_run env (user_id (from msg)) question "Questions" "General"
                w ([] ++ second_resolution msg)%list) as (written & ->).
    rewrite sendMessage_run, Htok. cbn [ret app].
    destruct (questions_ready env); [now rewrite <- app_assoc | reflexivity].
Qed.

Lemma ask_acknowledged_witness :
  POST demo_env (Some (private_message 5 "/ask when is the next event?"))
    (fun _ _ => Rejected)
  = (status_ok,
     [submission_record demo_env 5 "when is the next event?" "Questions" "General";
      sendMessage_call 5 "Thanks! Your question has been submitted." None None]).
Proof.
  apply (ask_acknowledged demo_env (private_message 5 "/ask when is the next event?")
           "/ask when is the next event?" (fun _ _ => Rejected)); reflexivity.
Defined.

(** ** What the handler never does *)

Lemma unban_kind : telegram_action_kind is_unban.
Proof. intros [] H; try discriminate H; repeat split; discriminate. Qed.

#[export] Hint Resolve unban_kind : silent.

Lemma handle_never_unbans env msg : silent is_unban (handle env msg).
Proof.
  unfold handle, moderation, moderate, commands, isUserAdmin, banUser, muteUser,
    unmuteUser, deleteMessage, parseMuteDuration_of.
  cbv zeta. silent_auto.
Qed.

(** X14. No message makes the handler lift a ban: whatever the message and
    whatever the collaborators answer, the request to unban a member is
    never issued. *)
Theorem POST_never_unbans env body_message w :
  count_calls is_unban (snd (POST env body_message w)) = 0%nat.
Proof.
  destruct body_message as [msg|].
  - apply Nat.le_0_r, at_most_POST, handle_never_unbans.
  - unfold POST. now destruct (negb _).
Qed.

(** ** When the webhook answers 500 *)

Lemma yields_ret {A} (Q : A -> Prop) a : Q a -> yields Q (ret a).
Proof. intros H w h. now exists a. Qed.

Lemma yields_call c : yields (fun _ => True) (call c).
Proof. intros w h. now eexists. Qed.

Lemma yields_bind {A B} (Q1 : A -> Prop) (Q : B -> Prop) (m : M A) (f : A -> M B) :
  yields Q1 m -> (forall a, Q1 a -> yields Q (f a)) -> yields Q (bind m f).
Proof.
  intros Hm Hf w h. rewrite bind_run. destruct (Hm w h) as (a & Ha & Hq).
  destruct (m w h) as [[a'|] h']; cbn [fst] in Ha; [|discriminate Ha].
  injection Ha as ->. now apply Hf.
Qed.

Lemma yields_weaken {A} (Q1 Q : A -> Prop) (m : M A) :
  (forall a, Q1 a -> Q a) -> yields Q1 m -> yields Q m.
Proof. intros HQ Hm w h. destruct (Hm w h) as (a & Ha & Hq). eauto. Qed.

(** Structural steps: the result of an inner computation does not matter. *)
Ltac yields_auto :=
  repeat match goal with
         | |- yields _ (ret _) =>
             apply yields_ret; first [exact I | reflexivity | now left | now right]
         | |- yields _ (call _) => apply yields_call
         | |- yields _ (bind _ _) => apply (yields_bind (fun _ => True)); [|intros ? _]
         | |- yields _ (if ?b then _ else _) => destruct b
         | |- yields _ (match ?x with _ => _ end) => destruct x
         end.

Lemma sendMessage_yields env chatId body replyTo markup :
  yields (fun _ => True) (sendMessage env chatId body replyTo markup).
Proof. unfold sendMessage. yields_auto. Qed.

Lemma admin_event_switch_yields env msg command args :
  yields ok_or_none (admin_event_switch env msg command args).
Proof.
  unfold admin_event_switch, createEvent, updateEvent, getAllEventsAdmin, sendMessage,
    ok_or_none.
  cbv zeta. yields_auto.
Qed.

Lemma general_switch_yields env msg command args :
  yields (fun _ => True) (general_switch env msg command args).
Proof.
  unfold general_switch, getUpcomingEvents, logSubmission, handleVerification,
    verification_reply, verifyMember, createInviteLink, sendMessage.
  cbv zeta. yields_auto.
Qed.

Lemma free_text_yields env msg : yields (fun r => r = status_ok) (free_text env msg).
Proof.
  unfold free_text, getAllSubmissions, handleVerification, verification_reply,
    verifyMember, createInviteLink, sendMessage.
  cbv zeta. yields_auto.
Qed.

Lemma commands_yields_private env msg :
  is_private (chat_type (chat msg)) = true ->
  yields (fun r => r = status_ok) (commands env msg).
Proof.
  intros Hp. unfold commands. cbv zeta. rewrite Hp. cbn [negb andb].
  apply (yields_bind (fun _ => True)).
  { unfold isUserAdmin. yields_auto. }
  intros isSenderAdmin _. apply (yields_bind ok_or_none).
  { destruct isSenderAdmin; [apply admin_event_switch_yields|].
    apply yields_ret. now left. }
  intros returned [-> | ->]; [|now apply yields_ret].
  apply (yields_bind (fun _ => True)); [apply general_switch_yields|].
  intros _ _. now apply yields_ret.
Qed.

(** X15. With the bot token configured, the webhook answers ok to every
    message of a private chat and to every text that starts with no slash,
    whatever the collaborators answer and however their requests fail: an
    answer 500 is only possible for a command in a chat that is not
    private. *)
Theorem POST_ok_outside_group_commands env msg w :
  token_set env = true ->
  is_private (chat_type (chat msg)) = true \/
  Js.startsWith "/" (default "" (text msg)) = false ->
  fst (POST env (Some msg) w) = status_ok.
Proof.
  intros Htok H. rewrite (POST_run _ _ _ Htok).
  assert (yields (fun r => r = status_ok) (handle env msg)) as Hok.
  { unfold handle. cbv zeta. rewrite moderation_skipped by exact H.
    rewrite bind_ret_l. destruct H as [Hp | Hs].
    - destruct (Js.startsWith _ _);
        [now apply commands_yields_private | apply free_text_yields].
    - rewrite Hs. apply free_text_yields. }
  destruct (Hok w []) as (r & Hr & ->).
  destruct (handle env msg w []) as [[r'|] t]; cbn [fst] in Hr; [|discriminate Hr].
  now injection Hr as ->.
Qed.

Lemma POST_ok_outside_group_commands_witness :
  fst (POST demo_env (Some (private_message 42 "/closeevent wad25"))
         (fun _ _ => Rejected)) = status_ok.
Proof.
  apply (POST_ok_outside_group_commands demo_env
           (private_message 42 "/closeevent wad25") (fun _ _ => Rejected));
    [reflexivity | left; reflexivity].
Defined.

(** ** Verification *)

Ltac verification_leaf :=
  eexists; split; [rewrite <- ?app_assoc; reflexivity|];
  cbn; repeat split; try lia; try discriminate.

(** X16. With the bot token configured, a verification is always answered by
    exactly one reply, after at most one lookup of the member and at most
    one request for an invite link; and an invite link is requested only
    for a code of the right shape whose lookup found a member with a name,
    when the community group is configured. *)
Theorem verification_outcome env chatId aetherId w h :
  token_set env = true ->
  exists t,
    snd (handleVerification env chatId aetherId w h) = (h ++ t)%list /\
    count_calls is_reply t = 1%nat /\
    (count_calls is_datastore t <= 1)%nat /\
    (count_calls is_invite t <= 1)%nat /\
    (count_calls is_invite t = 1%nat ->
     exists id record records,
       aetherId = Some id /\ test_aeth id = true /\
       w h (lookup_member env id) = Records (record :: records) /\
       Js.truthy (get record "fullName") = true /\
       Js.truthy (TELEGRAM_GROUP_CHAT_ID (config env)) = true).
Proof.
  intros Htok. unfold handleVerification.
  destruct aetherId as [id|]; cbn [Js.truthy Js.show negb];
    [|rewrite sendMessage_run, Htok; verification_leaf].
  destruct (String.eqb id ""); cbn [negb];
    [rewrite sendMessage_run, Htok; verification_leaf|].
  cbv zeta. destruct (test_aeth id) eqn:Htest; cbn [negb];
    [|rewrite sendMessage_run, Htok; verification_leaf].
  rewrite bind_run. unfold verifyMember.
  destruct (negb (has_base env) || negb (Js.truthy (AIRTABLE_MEMBERS_TABLE_ID _))).
  { cbn [ret]. unfold verification_reply. cbn [verified andb].
    rewrite sendMessage_run, Htok. verification_leaf. }
  rewrite bind_run. unfold call at 1. cbn [fst snd].
  destruct (w h (select_call _ _ _ _)) as [| | [|record records] |] eqn:Hw;
    cbn [ret]; unfold verification_reply; cbn [verified fullName andb];
    try (rewrite sendMessage_run, Htok; verification_leaf).
  destruct (Js.truthy (get record "fullName")) eqn:Hname;
    [|rewrite sendMessage_run, Htok; verification_leaf].
  rewrite bind_run.
  destruct (Js.truthy (TELEGRAM_GROUP_CHAT_ID (config env))) eqn:Hgroup;
    [|cbn [ret]; rewrite sendMessage_run, Htok; verification_leaf].
  rewrite bind_run. unfold createInviteLink. rewrite bind_run.
  unfold call at 1. cbn [fst snd].
  destruct (w _ (createChatInviteLink_call _ _ _)) as [|[|] [result|]| |];
    cbn [ret]; try destruct (Js.truthy (result "invite_link")); cbn [ret Js.truthy];
    rewrite sendMessage_run, Htok; verification_leaf;
    intros _; exists id, record, records; repeat split; assumption.
Qed.

Lemma verification_outcome_witness :
  exists t,
    snd (handleVerification demo_env 5 (Some "AETH-0000") quiet_world []) = ([] ++ t)%list /\
    count_calls is_reply t = 1%nat /\
    (count_calls is_datastore t <= 1)%nat /\
    (count_calls is_invite t <= 1)%nat /\
    (count_calls is_invite t = 1%nat ->
     exists id record records,
       Some "AETH-0000" = Some id /\ test_aeth id = true /\
       quiet_world [] (lookup_member demo_env id) = Records (record :: records) /\
       Js.truthy (get record "fullName") = true /\
       Js.truthy (TELEGRAM_GROUP_CHAT_ID (config demo_env)) = true).
Proof.
  apply (verification_outcome demo_env 5 (Some "AETH-0000") quiet_world []).
  reflexivity.
Defined.

(** ** The report of the submissions *)







(** ** The chat in which the handler acts *)

Ltac same_chat_call :=
  cbn [in_other_chat]; rewrite ?Z.eqb_refl; reflexivity.

Ltac same_chat_auto :=
  repeat match goal with
         | |- silent _ (ret _) => apply silent_ret
         | |- silent _ throw => apply silent_throw
         | |- silent _ (call _) => apply silent_call; same_chat_call
         | |- silent _ (fetch_ _) => apply silent_fetch; same_chat_call
         | |- silent _ (bind _ _) => apply silent_bind; [|intros ?]
         | |- silent _ (if ?b then _ else _) => destruct b
         | |- silent _ (match ?x with _ => _ end) => destruct x
         end.

Lemma handle_same_chat env msg :
  silent (in_other_chat (chat_id (chat msg))) (handle env msg).
Proof.
  unfold handle, moderation, moderate, commands, free_text, admin_event_switch,
    general_switch, isUserAdmin, banUser, muteUser, unmuteUser, deleteMessage,
    parseMuteDuration_of, createEvent, updateEvent, getAllEventsAdmin,
    getUpcomingEvents, getAllSubmissions, logSubmission, handleVerification,
    verification_reply, verifyMember, createInviteLink, sendMessage.
  cbv zeta. same_chat_auto.
Qed.

(** X18. The handler acts only in the chat of the message: every reply, every
    membership query and every ban, restriction and deletion that it requests
    names that chat (the request for an invite link names the configured
    community group and is not counted). *)
Theorem POST_same_chat env msg w :
  count_calls (in_other_chat (chat_id (chat msg))) (snd (POST env (Some msg) w)) = 0%nat.
Proof. apply Nat.le_0_r, at_most_POST, handle_same_chat. Qed.

(** ** Closing an event *)

Lemma admin_event_switch_close env msg args :
  admin_event_switch env msg "/closeevent" args =
  if negb (Js.truthy (nth_error args 0)) then
    sendMessage env (chat_id (chat msg)) "Usage: `/closeevent <event_code>`" None None ;;;
    ret None
  else
    closeResult <- updateEvent env (Js.show (nth_error args 0)) {[ "status" := "closed" ]} ;;
    sendMessage env (chat_id (chat msg)) (message closeResult)
      (Some (message_id msg)) None ;;;
    ret (Some status_ok).
Proof. reflexivity. Qed.

Lemma close_fields :
  fieldsToUpdate {[ "status" := "closed" ]} = [("Published", FBool false)].
Proof. reflexivity. Qed.

(** X19. Whoever sends [/closeevent] and whatever the collaborators answer,
    no record is created, and the only update that can be written sets
    [Published] to false and nothing else. *)
Theorem closeevent_only_unpublishes env msg w :
  command_of (default "" (text msg)) = "/closeevent" ->
  count_calls other_write (snd (POST env (Some msg) w)) = 0%nat.
Proof.
  intros Hcmd. apply Nat.le_0_r, at_most_POST.
  unfold handle. cbv zeta. apply silent_bind.
  { unfold moderation, moderate, isUserAdmin, banUser, muteUser, unmuteUser,
      deleteMessage, parseMuteDuration_of, sendMessage.
    cbv zeta. same_chat_auto; try (apply silent_call; reflexivity);
      try (apply silent_fetch; reflexivity). }
  intros [r|]; [apply silent_ret|].
  destruct (Js.startsWith _ _).
  2:{ unfold free_text, getAllSubmissions, handleVerification, verification_reply,
        verifyMember, createInviteLink, sendMessage.
      cbv zeta. same_chat_auto; apply silent_call; reflexivity. }
  unfold commands. cbv zeta. rewrite Hcmd.
  rewrite admin_event_switch_close, (general_switch_event_command env msg "/closeevent")
    by reflexivity.
  unfold updateEvent. rewrite close_fields.
  unfold isUserAdmin, sendMessage.
  same_chat_auto; try (apply silent_call; reflexivity).
Qed.

Lemma closeevent_only_unpublishes_witness :
  count_calls other_write
    (snd (POST demo_env (Some (private_message 42 "/closeevent wad25")) one_event_world))
  = 0%nat.
Proof.
  apply (closeevent_only_unpublishes demo_env (private_message 42 "/closeevent wad25")
           one_event_world).
  reflexivity.
Defined.

(** ** Lifting a mute and deleting a message *)

Lemma moderate_unmute env msg replied :
  command_of (default "" (text msg)) = "/unmute" ->
  reply_to_message msg = Some replied ->
  moderate env msg =
  (unmuteUser env (chat_id (chat msg)) (user_id (from replied)) ;;; ret None).
Proof.
  intros Hc Hr. unfold moderate. cbv zeta. rewrite Hc, Hr. reflexivity.
Qed.

(** X20. With the bot token configured, in a chat that is not private and has no
    positive id: an [/unmute] sent by an administrator as a reply gives the replied-to
    user all permissions back, whatever the role of that user is (it is not
    queried), and confirms it when the request did not fail; a failed
    request makes the webhook answer 500 without any reply. *)
Theorem unmute_applied env msg body replied w :
  let chatId := chat_id (chat msg) in
  let qs := getChatMember_call chatId (user_id (from msg)) in
  let restore := permissions_restored chatId (user_id (from replied)) in
  token_set env = true ->
  is_private (chat_type (chat msg)) = false ->
  (chatId >? 0) = false ->
  text msg = Some body ->
  command_of body = "/unmute" ->
  reply_to_message msg = Some replied ->
  member_is_admin (w [] qs) = true ->
  POST env (Some msg) w =
  if rejected (w [qs] restore)
  then (status_500, [qs; restore])
  else (status_ok,
        ([qs; restore; sendMessage_call chatId "User has been unmuted." None None]
         ++ second_resolution msg)%list).
Proof.
  intros chatId qs restore Htok Hp Hchat Ht Hcmd Hr Hs.
  assert (default "" (text msg) = body) as Hbody by now rewrite Ht.
  assert (Js.startsWith "/" body = true) as Hslash
    by (apply command_slash; now rewrite Hcmd).
  rewrite (POST_run _ _ _ Htok), handle_run.
  rewrite moderation_admin; try assumption; [|now rewrite Hbody].
  fold chatId qs. rewrite Hbody, Hslash.
  rewrite (moderate_unmute env msg replied) by (rewrite ?Hbody; assumption).
  unfold unmuteUser. rewrite !bind_run, fetch_run. fold chatId.
  fold (permissions_restored chatId (user_id (from replied))). fold restore.
  cbn [app]. destruct (rejected (w [qs] restore)); [reflexivity|].
  rewrite sendMessage_run, Htok. cbn [ret reply_to_field].
  rewrite (commands_after_moderation env msg "/unmute"); try assumption;
    [reflexivity | now rewrite Hbody | reflexivity].
Qed.

Lemma unmute_applied_witness :
  POST demo_env
    (Some (group_message 7 "/unmute" (Some (group_message 6 "hello" None))))
    group_world
  = (status_ok,
     [getChatMember_call (-1001) 7; permissions_restored (-1001) 6;
      sendMessage_call (-1001) "User has been unmuted." None None;
      getChatMember_call (-1001) 7]).
Proof.
  apply (unmute_applied demo_env
           (group_message 7 "/unmute" (Some (group_message 6 "hello" None)))
           "/unmute" (group_message 6 "hello" None) group_world); reflexivity.
Defined.

Lemma moderate_del env msg replied :
  command_of (default "" (text msg)) = "/del" ->
  reply_to_message msg = Some replied ->
  moderate env msg =
  (((if message_id replied =? 0 then ret tt
     else deleteMessage (chat_id (chat msg)) (message_id replied)) ;;;
    deleteMessage (chat_id (chat msg)) (message_id msg)) ;;;
   ret None).
Proof.
  intros Hc Hr. unfold moderate. cbv zeta. rewrite Hc, Hr. reflexivity.
Qed.

(** X21. With the bot token configured, in a chat that is not private and has no
    positive id: a [/del] sent by an administrator as a reply to a
    message with an id other than zero requests the deletion of the
    replied-to message and then of the command itself, and sends no
    reply; when the first deletion fails the command is not deleted and the
    webhook answers 500, as it does when the second one fails. *)
Theorem del_applied env msg body replied w :
  let chatId := chat_id (chat msg) in
  let qs := getChatMember_call chatId (user_id (from msg)) in
  let first := deleteMessage_call chatId (message_id replied) in
  let second := deleteMessage_call chatId (message_id msg) in
  token_set env = true ->
  is_private (chat_type (chat msg)) = false ->
  (chatId >? 0) = false ->
  text msg = Some body ->
  command_of body = "/del" ->
  reply_to_message msg = Some replied ->
  message_id replied <> 0 ->
  member_is_admin (w [] qs) = true ->
  POST env (Some msg) w =
  if rejected (w [qs] first) then (status_500, [qs; first])
  else if rejected (w [qs; first] second) then (status_500, [qs; first; second])
  else (status_ok, ([qs; first; second] ++ second_resolution msg)%list).
Proof.
  intros chatId qs first second Htok Hp Hchat Ht Hcmd Hr Hid Hs.
  assert (default "" (text msg) = body) as Hbody by now rewrite Ht.
  assert (Js.startsWith "/" body = true) as Hslash
    by (apply command_slash; now rewrite Hcmd).
  rewrite (POST_run _ _ _ Htok), handle_run.
  rewrite moderation_admin; try assumption; [|now rewrite Hbody].
  fold chatId qs. rewrite Hbody, Hslash.
  rewrite (moderate_del env msg replied) by (rewrite ?Hbody; assumption).
  fold chatId. rewrite (proj2 (Z.eqb_neq _ _) Hid).
  unfold deleteMessage. rewrite !bind_run, fetch_run. fold first. cbn [app].
  destruct (rejected (w [qs] first)); [reflexivity|].
  rewrite fetch_run. fold second. cbn [app].
  destruct (rejected (w [qs; first] second)); [reflexivity|].
  cbn [ret].
  rewrite (commands_after_moderation env msg "/del"); try assumption;
    [reflexivity | now rewrite Hbody | reflexivity].
Qed.

Lemma del_applied_witness :
  POST demo_env (Some (group_message 7 "/del" (Some (earlier_message 9 "buy now"))))
    group_world
  = (status_ok,
     [getChatMember_call (-1001) 7; deleteMessage_call (-1001) 70;
      deleteMessage_call (-1001) 77; getChatMember_call (-1001) 7]).
Proof.
  apply (del_applied demo_env
           (group_message 7 "/del" (Some (earlier_message 9 "buy now")))
           "/del" (earlier_message 9 "buy now") group_world);
    solve [reflexivity | discriminate].
Defined.
